(** * Keno game: draw engine and settlement engine

    A shallow embedding of the provably-fair draw engine (services/rng.js),
    the paytable (models/paytable.js), the ticket service required by the
    draw service as ./ticketService, the draw service
    (services/drawService.js) and the routers of the draw, paytable and
    ticket endpoints (/api/v1/draws, /api/v1/paytables, /api/v1/tickets),
    followed by the properties established about them.

    Conventions.
    - A JavaScript call either returns, throws, or never returns: [outcome].
    - Buffers are [list byte]; 32-bit reads are [Z] values in [0, 2^32).
    - Money is carried in integer cents (the store's DECIMAL(_,2) columns);
      the program's additions and comparisons of such amounts are exact.
    - The probability code is embedded once, over an interface of numbers,
      and read both on IEEE-754 binary64 values (what the program runs) and
      on rationals.
    - The persistent store is a record of row lists; every [database.query]
      is one step on it and may be refused by the store.  Inside a
      transaction the statements of [client] are kept apart from those sent
      through [database.query].
    - Logging and audit logging have no effect on the state and are left
      out. *)

From Stdlib Require Import ZArith QArith Qround Qabs List String Ascii Bool Lia.
From Stdlib.Strings Require Import Byte.
From Stdlib Require Import DecimalString Floats Uint63 Permutation Sorted Finite.
Import ListNotations.
Local Open Scope Z_scope.

(* ================================================================== *)
(** * Part I: definitions *)
(* ================================================================== *)

(** ** Outcomes of a call *)

Inductive error : Type :=
| RangeError                 (* Buffer read outside the buffer *)
| TypeError                  (* destructuring null or undefined *)
| StoreError                 (* the store rejected a statement *)
| Error (message : string).  (* [throw new Error(message)] *)

Inductive outcome (A : Type) : Type :=
| Returns (a : A)
| Throws (e : error)
| Diverges.
Arguments Returns {A} a.
Arguments Throws {A} e.
Arguments Diverges {A}.

Definition obind {A B} (m : outcome A) (k : A -> outcome B) : outcome B :=
  match m with
  | Returns a => k a
  | Throws e => Throws e
  | Diverges => Diverges
  end.

(** [try { body } catch (error) { handler }] *)
Definition try_catch {A} (body : outcome A) (handler : error -> outcome A)
  : outcome A :=
  match body with
  | Returns a => Returns a
  | Throws e => handler e
  | Diverges => Diverges
  end.

(** ** Bytes, hexadecimal and decimal text *)

Definition Z_of_byte (b : byte) : Z := Z.of_N (Byte.to_N b).

Definition byte_of_Z (z : Z) : byte :=
  match Byte.of_N (Z.to_N (z mod 256)) with
  | Some b => b
  | None => x00
  end.

Definition hex_digit (n : Z) : ascii :=
  if n <? 10 then ascii_of_N (Z.to_N (48 + n))
  else ascii_of_N (Z.to_N (87 + n)).

(** [buffer.toString('hex')] *)
Fixpoint hex (bs : list byte) : string :=
  match bs with
  | [] => EmptyString
  | b :: rest =>
      String (hex_digit (Z_of_byte b / 16))
        (String (hex_digit (Z_of_byte b mod 16)) (hex rest))
  end.

(** The unsigned big-endian integer held in a run of bytes. *)
Definition uint_be (bs : list byte) : Z :=
  fold_left (fun acc b => acc * 256 + Z_of_byte b) bs 0.

(** [Number.prototype.toString()] on an integer (decimal digits, a leading
    minus sign when negative; exact below 10^21 in magnitude). *)
Definition toString (n : Z) : string := NilZero.string_of_int (Z.to_int n).

(** ** Node's [crypto]: SHA-256 (FIPS 180-4) and HMAC (RFC 2104) *)

Module Sha256.

Definition mask32 : Z := 0xffffffff.
Definition add32 (a b : Z) : Z := Z.land (a + b) mask32.
Definition rotr (n x : Z) : Z :=
  Z.lor (Z.shiftr x n) (Z.land (Z.shiftl x (32 - n)) mask32).
Definition xor3 (a b c : Z) : Z := Z.lxor (Z.lxor a b) c.

Definition Ch (x y z : Z) : Z :=
  Z.lxor (Z.land x y) (Z.land (Z.lxor x mask32) z).
Definition Maj (x y z : Z) : Z :=
  xor3 (Z.land x y) (Z.land x z) (Z.land y z).
Definition Sigma0 (x : Z) : Z := xor3 (rotr 2 x) (rotr 13 x) (rotr 22 x).
Definition Sigma1 (x : Z) : Z := xor3 (rotr 6 x) (rotr 11 x) (rotr 25 x).
Definition sigma0 (x : Z) : Z := xor3 (rotr 7 x) (rotr 18 x) (Z.shiftr x 3).
Definition sigma1 (x : Z) : Z := xor3 (rotr 17 x) (rotr 19 x) (Z.shiftr x 10).

(** The primes up to 311: the first 64. *)
Definition is_prime (p : Z) : bool :=
  forallb (fun d => negb (p mod Z.of_nat d =? 0)) (seq 2 (Z.to_nat p - 2)).

Definition primes : list Z :=
  filter is_prime (map Z.of_nat (seq 2 310)).

(** The integer part of the cube root, by bisection between [lo] and
    [hi]. *)
Fixpoint cube_root (fuel : nat) (x lo hi : Z) : Z :=
  match fuel with
  | O => lo
  | S fuel' =>
      let mid := (lo + hi) / 2 in
      if mid * mid * mid <=? x then cube_root fuel' x mid hi
      else cube_root fuel' x lo mid
  end.

(** The round constants: the first 32 bits of the fractional parts of the
    cube roots of the first 64 primes. *)
Definition K : list Z :=
  Eval vm_compute in
    map (fun p => Z.land (cube_root 40 (p * 2 ^ 96) 0 (2 ^ 36)) mask32) primes.

Record state : Type := mkState
  { ha : Z; hb : Z; hc : Z; hd : Z; he : Z; hf : Z; hg : Z; hh : Z }.

(** The first 32 bits of the fractional part of the square root of [p]. *)
Definition root_bits (p : Z) : Z := Z.land (Z.sqrt (p * 2 ^ 64)) mask32.

(** The initial hash value, from the first eight primes. *)
Definition initial : state :=
  mkState (root_bits 2) (root_bits 3) (root_bits 5) (root_bits 7)
          (root_bits 11) (root_bits 13) (root_bits 17) (root_bits 19).

(** Big-endian bytes of a word of [n] bytes. *)
Fixpoint be_bytes (n : nat) (w : Z) : list byte :=
  match n with
  | O => []
  | S n' => byte_of_Z (Z.shiftr w (8 * Z.of_nat n')) :: be_bytes n' w
  end.

(** Padding: a 1 bit, zeros up to 56 mod 64, the bit length on 8 bytes. *)
Definition pad (msg : list byte) : list byte :=
  let len := Z.of_nat (List.length msg) in
  msg ++ [x80] ++ repeat x00 (Z.to_nat ((55 - len) mod 64))
      ++ be_bytes 8 (8 * len).

Fixpoint chunks (size : nat) (n : nat) (bs : list byte) : list (list byte) :=
  match n with
  | O => []
  | S n' => firstn size bs :: chunks size n' (skipn size bs)
  end.

(** The message schedule, most recent word first. *)
Fixpoint extend (n : nat) (w : list Z) : list Z :=
  match n with
  | O => w
  | S n' =>
      let wt := add32 (add32 (sigma1 (nth 1 w 0)) (nth 6 w 0))
                      (add32 (sigma0 (nth 14 w 0)) (nth 15 w 0)) in
      extend n' (wt :: w)
  end.

Definition schedule (block : list byte) : list Z :=
  rev (extend 48 (rev (map uint_be (chunks 4 16 block)))).

Definition round (s : state) (kw : Z * Z) : state :=
  let t1 := add32 (add32 (add32 (hh s) (Sigma1 (he s)))
                         (add32 (Ch (he s) (hf s) (hg s)) (fst kw)))
                  (snd kw) in
  let t2 := add32 (Sigma0 (ha s)) (Maj (ha s) (hb s) (hc s)) in
  mkState (add32 t1 t2) (ha s) (hb s) (hc s)
          (add32 (hd s) t1) (he s) (hf s) (hg s).

Definition compress (s : state) (block : list byte) : state :=
  let r := fold_left round (combine K (schedule block)) s in
  mkState (add32 (ha s) (ha r)) (add32 (hb s) (hb r))
          (add32 (hc s) (hc r)) (add32 (hd s) (hd r))
          (add32 (he s) (he r)) (add32 (hf s) (hf r))
          (add32 (hg s) (hg r)) (add32 (hh s) (hh r)).

Definition digest_of (s : state) : list byte :=
  be_bytes 4 (ha s) ++ be_bytes 4 (hb s) ++ be_bytes 4 (hc s)
    ++ be_bytes 4 (hd s) ++ be_bytes 4 (he s) ++ be_bytes 4 (hf s)
    ++ be_bytes 4 (hg s) ++ be_bytes 4 (hh s).

Definition sha256 (msg : list byte) : list byte :=
  let padded := pad msg in
  digest_of
    (fold_left compress (chunks 64 (Nat.div (List.length padded) 64) padded) initial).

Definition xor_pad (c : Z) (key : list byte) : list byte :=
  map (fun b => byte_of_Z (Z.lxor (Z_of_byte b) c)) key.

Definition hmac (key msg : list byte) : list byte :=
  let k0 := if (64 <? Z.of_nat (List.length key)) then sha256 key else key in
  let k := k0 ++ repeat x00 (64 - List.length k0)%nat in
  sha256 (xor_pad 0x5c k ++ sha256 (xor_pad 0x36 k ++ msg)).

End Sha256.

(** [crypto.createHash('sha256').update(s).digest('hex')] *)
Definition createHash_sha256_hex (s : string) : string :=
  hex (Sha256.sha256 (list_byte_of_string s)).

(** [crypto.createHmac('sha256', key).update(message).digest()] *)
Definition createHmac_sha256 (key message : string) : list byte :=
  Sha256.hmac (list_byte_of_string key) (list_byte_of_string message).

(** ** Values drawn from the environment by one call: a fresh identifier
    ([crypto.randomUUID()], [uuidv4()]), the clock ([Date.now()],
    [new Date()]) and the operating system's random bytes
    ([crypto.randomBytes(n)]). *)

Definition uuid : Type := nat.
Bind Scope nat_scope with uuid.

Record Env : Type := mkEnv
  { env_uuid : uuid;
    env_now : Z;
    env_randomBytes : nat -> list byte }.

(** ** services/rng.js *)

Module DrawResult.
Record t : Type := mk
  { drawId : uuid;
    timestamp : Z;
    numbers : list Z;
    serverSeedHash : string;
    clientSeed : string;
    nonce : Z;
    poolSize : Z;
    drawSize : Z }.
End DrawResult.

Module RNGService.

(** The fields set by the constructor. *)
Record t : Type := mk
  { serverSeed : string;
    clientSeedLength : Z;
    poolSize : Z;
    drawSize : Z }.

Definition generateSecureSeed (this : t) (env : Env) : string :=
  hex (env_randomBytes env 32).

Definition getServerSeedHash (this : t) : string :=
  createHash_sha256_hex (serverSeed this).

(** Returns the updated service and the value returned to the caller. *)
Definition rotateServerSeed (this : t) (env : Env) : t * string :=
  let this' := mk (generateSecureSeed this env) (clientSeedLength this)
                  (poolSize this) (drawSize this) in
  (this', getServerSeedHash this').

(** [hash.readUInt32BE(offset)] *)
Definition readUInt32BE (hash : list byte) (offset : nat) : outcome Z :=
  if (offset + 4 <=? List.length hash)%nat
  then Returns (uint_be (firstn 4 (skipn offset hash)))
  else Throws RangeError.

(** The bound of the [do ... while]:
    [Math.floor(0x100000000 / max) * max]. *)
Definition rejectionBound (max : Z) : Z := (0x100000000 / max) * max.

(** The [do ... while] of [getRandomIndex], [fuel] iterations of it. *)
Fixpoint getRandomIndex_loop (fuel : nat) (hash : list byte) (max : Z)
    (offset : nat) : outcome Z :=
  match fuel with
  | O => Diverges
  | S fuel' =>
      obind (readUInt32BE hash (offset mod (List.length hash - 4)))
        (fun randomValue =>
           if randomValue >=? rejectionBound max
           then getRandomIndex_loop fuel' hash max (offset + 4)
           else Returns (randomValue mod max))
  end.

(** The loop goes round once more after reading at [offset]. *)
Definition rejects (hash : list byte) (max : Z) (offset : nat) : Prop :=
  exists v, readUInt32BE hash offset = Returns v
            /\ (v >=? rejectionBound max) = true.

(** [getRandomIndex(hash, max)], for [max >= 1].  The offsets read repeat
    with a period that divides [hash.length - 4], so that many iterations
    decide whether the loop ever exits ([getRandomIndex_loop_stable]).  On a
    buffer of at most 4 bytes the first read is out of range. *)
Definition getRandomIndex (this : t) (hash : list byte) (max : Z)
  : outcome Z :=
  if (List.length hash <=? 4)%nat then Throws RangeError
  else getRandomIndex_loop (List.length hash - 4) hash max 0.

(** Ghost trace of [getRandomIndex_loop]: the offsets handed to
    [readUInt32BE], in order. *)
Fixpoint getRandomIndex_reads (fuel : nat) (hash : list byte) (max : Z)
    (offset : nat) : list nat :=
  match fuel with
  | O => []
  | S fuel' =>
      let at_offset := (offset mod (List.length hash - 4))%nat in
      at_offset ::
      match readUInt32BE hash at_offset with
      | Returns randomValue =>
          if randomValue >=? rejectionBound max
          then getRandomIndex_reads fuel' hash max (offset + 4)
          else []
      | _ => []
      end
  end.

(** [array[i] = x]; the indices written by the shuffle are inside the
    array. *)
Fixpoint assign (numbers : list Z) (i : nat) (x : Z) : list Z :=
  match numbers, i with
  | [], _ => []
  | _ :: rest, O => x :: rest
  | n :: rest, S i' => n :: assign rest i' x
  end.

(** [[numbers[i], numbers[j]] = [numbers[j], numbers[i]]] *)
Definition swap (numbers : list Z) (i j : nat) : list Z :=
  let right := (nth j numbers 0, nth i numbers 0) in
  assign (assign numbers i (fst right)) j (snd right).

(** The [for (let i = numbers.length - 1; i > 0; i--)] loop, entered at
    index [i]. *)
Fixpoint shuffle (this : t) (hash : list byte) (i : nat) (numbers : list Z)
  : outcome (list Z) :=
  match i with
  | O => Returns numbers
  | S i' =>
      obind (getRandomIndex this hash (Z.of_nat i + 1))
        (fun j => shuffle this hash i' (swap numbers i (Z.to_nat j)))
  end.

(** Ghost trace of [shuffle]: the offsets read, call after call. *)
Fixpoint shuffle_reads (this : t) (hash : list byte) (i : nat) : list nat :=
  match i with
  | O => []
  | S i' =>
      getRandomIndex_reads (List.length hash - 4) hash (Z.of_nat i + 1) 0
        ++ match getRandomIndex this hash (Z.of_nat i + 1) with
           | Returns _ => shuffle_reads this hash i'
           | _ => []
           end
  end.

(** [numbers.slice(0, end)] *)
Definition slice0 (numbers : list Z) (finish : Z) : list Z :=
  if finish <? 0
  then firstn (Z.to_nat (Z.of_nat (List.length numbers) + finish)) numbers
  else firstn (Z.to_nat finish) numbers.

(** [numbers.sort((a, b) => a - b)]: the ascending rearrangement. *)
Fixpoint insert (x : Z) (sorted : list Z) : list Z :=
  match sorted with
  | [] => [x]
  | y :: rest => if x <=? y then x :: sorted else y :: insert x rest
  end.

Definition sort (numbers : list Z) : list Z := fold_right insert [] numbers.

(** [Array.from({ length: poolSize }, (_, i) => i + 1)] *)
Definition pool (poolSize : Z) : list Z :=
  map (fun i => Z.of_nat i + 1) (seq 0 (Z.to_nat poolSize)).

Definition sampleWithoutReplacement (this : t) (seed : string) (nonce : Z)
    (poolSize sampleSize : Z) : outcome (list Z) :=
  let hash := createHmac_sha256 seed (toString nonce) in
  let numbers := pool poolSize in
  obind (shuffle this hash (List.length numbers - 1) numbers)
    (fun numbers => Returns (sort (slice0 numbers sampleSize))).

Definition sample_reads (this : t) (seed : string) (nonce : Z) (poolSize : Z)
  : list nat :=
  shuffle_reads this (createHmac_sha256 seed (toString nonce))
    (List.length (pool poolSize) - 1).

(** *** The rejection loop in closed form

    On a 32-byte digest the offsets read are 0, 4, ..., 24 and then 0 again;
    bytes 28 to 31 are never read. *)

Definition window (hash : list byte) (offset : nat) : Z :=
  uint_be (firstn 4 (skipn offset hash)).

Definition windows : list nat := [0; 4; 8; 12; 16; 20; 24]%nat.

(** The first window whose value is below the bound, if any. *)
Definition first_accepted (hash : list byte) (max : Z) : option nat :=
  find (fun offset => window hash offset <? rejectionBound max) windows.

(** Every bound the shuffle of a pool of [poolSize] numbers asks for, from
    [poolSize] down to 2, has a window below it. *)
Definition exits (hash : list byte) (poolSize : Z) : bool :=
  forallb (fun i => match first_accepted hash (Z.of_nat i + 1) with
                    | Some _ => true
                    | None => false
                    end)
          (seq 1 (Z.to_nat poolSize - 1)).

(** [clientSeed || ...], [nonce || ...]: [null], the empty string and [0]
    are falsy. *)
Definition string_or (s : option string) (otherwise : string) : string :=
  match s with
  | Some (String c rest) => String c rest
  | _ => otherwise
  end.

Definition number_or (n : option Z) (otherwise : Z) : Z :=
  match n with
  | Some 0 | None => otherwise
  | Some v => v
  end.

Definition generateDraw (this : t) (env : Env) (clientSeed : option string)
    (nonce : option Z) : outcome DrawResult.t :=
  let drawId := env_uuid env in
  let timestamp := env_now env in
  let actualClientSeed :=
    string_or clientSeed
      (hex (env_randomBytes env (Z.to_nat (clientSeedLength this)))) in
  let actualNonce := number_or nonce (env_now env) in
  obind (sampleWithoutReplacement this
           (serverSeed this ++ actualClientSeed) actualNonce
           (poolSize this) (drawSize this))
    (fun numbers =>
       Returns (DrawResult.mk drawId timestamp numbers
                  (getServerSeedHash this) actualClientSeed actualNonce
                  (poolSize this) (drawSize this))).

(** [JSON.stringify(a) === JSON.stringify(b)] on arrays of integers. *)
Fixpoint same_json (a b : list Z) : bool :=
  match a, b with
  | [], [] => true
  | x :: a', y :: b' => (x =? y) && same_json a' b'
  | _, _ => false
  end.

(** [verifyDraw(drawResult)]; [None] stands for [null] or [undefined]. *)
Definition verifyDraw (this : t) (drawResult : option DrawResult.t)
  : outcome bool :=
  try_catch
    (match drawResult with
     | None => Throws TypeError
     | Some dr =>
         if negb (String.eqb (getServerSeedHash this)
                             (DrawResult.serverSeedHash dr))
         then Throws (Error "Server seed hash mismatch")
         else
           obind (sampleWithoutReplacement this
                    (serverSeed this ++ DrawResult.clientSeed dr)
                    (DrawResult.nonce dr) (DrawResult.poolSize dr)
                    (DrawResult.drawSize dr))
             (fun regeneratedNumbers =>
                let isValid :=
                  same_json (DrawResult.numbers dr) regeneratedNumbers in
                if negb isValid
                then Throws (Error "Draw verification failed")
                else Returns true)
     end)
    (fun _ => Returns false).

End RNGService.

(** ** models/paytable.js *)

(** The arithmetic of JavaScript numbers used by the probability code.  The
    program runs it on IEEE-754 binary64 values ([binary64]); the same code
    read over the rationals ([exact]) is the computation it approximates. *)
Class Number (T : Type) : Type :=
  { of_int : Z -> T;
    times : T -> T -> T;
    divided_by : T -> T -> T;
    Math_round : T -> T }.

(** An integer below 2^53 in magnitude as a binary64 value. *)
Definition float_of_int (z : Z) : float :=
  if z <? 0 then PrimFloat.opp (PrimFloat.of_uint63 (Uint63.of_Z (- z)))
  else PrimFloat.of_uint63 (Uint63.of_Z z).

(** [Math.round] on binary64: the integer [floor(x + 1/2)], computed on the
    exact value of [x]; values with no fractional bits, zeros, infinities and
    NaN are returned unchanged, and a zero result keeps the sign of [x]. *)
Definition float_round (x : float) : float :=
  match Prim2SF x with
  | S754_finite sign m e =>
      if 0 <=? e then x
      else
        let d := 2 ^ (- e) in
        let r := if sign then (d - 2 * Z.pos m) / (2 * d)
                 else (2 * Z.pos m + d) / (2 * d) in
        if r =? 0 then (if sign then PrimFloat.opp 0%float else 0%float)
        else float_of_int r
  | _ => x
  end.

#[export] Instance binary64 : Number float :=
  { of_int := float_of_int;
    times := PrimFloat.mul;
    divided_by := PrimFloat.div;
    Math_round := float_round }.

#[export] Instance exact : Number Q :=
  { of_int := inject_Z;
    times := Qmult;
    divided_by := Qdiv;
    Math_round := fun x => inject_Z (Qfloor (x + (1 # 2))) }.

(** Addition of such numbers ([+=] in [calculateRTP]). *)
Class Adding (T : Type) : Type := { plus : T -> T -> T }.

#[export] Instance binary64_adding : Adding float := { plus := PrimFloat.add }.
#[export] Instance exact_adding : Adding Q := { plus := Qplus }.


Module PaytableService.

(** One entry of [this.paytables]; amounts in cents. *)
Record Paytable : Type := mkPaytable
  { name : string;
    wager : Z;
    payouts : list (Z * Z) }.

Definition paytables : list (Z * Paytable) :=
  [ (1, mkPaytable "1-Spot" 100 [(1, 300)]);
    (2, mkPaytable "2-Spot" 100 [(0, 0); (1, 0); (2, 1200)]);
    (3, mkPaytable "3-Spot" 100 [(0, 0); (1, 0); (2, 100); (3, 4200)]);
    (4, mkPaytable "4-Spot" 100
          [(0, 0); (1, 0); (2, 100); (3, 300); (4, 10000)]);
    (5, mkPaytable "5-Spot" 100
          [(0, 0); (1, 0); (2, 100); (3, 200); (4, 1000); (5, 50000)]);
    (6, mkPaytable "6-Spot" 100
          [(0, 0); (1, 0); (2, 0); (3, 100); (4, 500); (5, 5000);
           (6, 100000)]);
    (7, mkPaytable "7-Spot" 100
          [(0, 0); (1, 0); (2, 0); (3, 0); (4, 100); (5, 1000); (6, 10000);
           (7, 200000)]);
    (8, mkPaytable "8-Spot" 100
          [(0, 0); (1, 0); (2, 0); (3, 0); (4, 0); (5, 500); (6, 5000);
           (7, 50000); (8, 500000)]);
    (9, mkPaytable "9-Spot" 100
          [(0, 0); (1, 0); (2, 0); (3, 0); (4, 0); (5, 200); (6, 2000);
           (7, 20000); (8, 200000); (9, 1000000)]);
    (10, mkPaytable "10-Spot" 100
          [(0, 0); (1, 0); (2, 0); (3, 0); (4, 0); (5, 100); (6, 1000);
           (7, 10000); (8, 100000); (9, 500000); (10, 10000000)]) ].

(** [object[key]]: [None] is [undefined]. *)
Fixpoint property {V : Type} (object : list (Z * V)) (key : Z) : option V :=
  match object with
  | [] => None
  | (k, v) :: rest => if k =? key then Some v else property rest key
  end.

Definition getPaytable (spotSize : Z) : outcome Paytable :=
  match property paytables spotSize with
  | None => Throws (Error ("Invalid spot size: " ++ toString spotSize))
  | Some paytable => Returns paytable
  end.

Record Payout : Type := mkPayout
  { matches : Z;
    basePayout : Z;
    payout_wager : Z;
    payout : Z;
    spotSize : Z }.

Definition dollars (cents : Z) : Q := cents # 100.

(** [calculatePayout(spotSize, matches, wager)], [wager] in cents;
    [Math.round(payout * 100) / 100] is the payout to the nearest cent, kept
    here as that number of cents. *)
Definition calculatePayout (spotSize matches wager : Z) : outcome Payout :=
  obind (getPaytable spotSize) (fun paytable =>
    let basePayout :=
      match property (payouts paytable) matches with
      | Some p => p
      | None => 0
      end in
    let payout :=
      ((dollars basePayout / dollars (PaytableService.wager paytable))
         * dollars wager)%Q in
    Returns (mkPayout matches basePayout wager
               (Qfloor (payout * 100 + (1 # 2))) spotSize)).

Section Probability.
Context {T : Type} `{Number T}.

(** The [for (let i = 0; i < k; i++)] loop of [combination], with [steps]
    iterations left. *)
Fixpoint combination_loop (steps : nat) (n i : Z) (result : T) : T :=
  match steps with
  | O => result
  | S steps' =>
      combination_loop steps' n (i + 1)
        (divided_by (times result (of_int (n - i))) (of_int (i + 1)))
  end.

Definition combination (n k : Z) : T :=
  if (k >? n) || (k <? 0) then of_int 0
  else if (k =? 0) || (k =? n) then of_int 1
  else Math_round (combination_loop (Z.to_nat k) n 0 (of_int 1)).

Definition calculateMatchProbability (spotSize matches poolSize drawSize : Z)
  : T :=
  if (matches >? spotSize) || (matches >? drawSize) then of_int 0
  else if matches <? 0 then of_int 0
  else
    let numerator :=
      times (combination spotSize matches)
            (combination (poolSize - spotSize) (drawSize - matches)) in
    let denominator := combination poolSize drawSize in
    divided_by numerator denominator.

End Probability.

Section ReturnToPlayer.
Context {T : Type} `{Number T} `{Adding T}.

(** The JavaScript number written for an amount of money, [3.00] for 300
    cents. *)
Definition amount (cents : Z) : T := divided_by (of_int cents) (of_int 100).

(** [calculateRTP(spotSize)], [spotSize] an integer; the loop runs over
    [matches] from 0 to [spotSize]. *)
Definition calculateRTP (spotSize : Z) : outcome T :=
  obind (getPaytable spotSize) (fun paytable =>
    let poolSize := 80 in
    let drawSize := 20 in
    let spotSizeNum := spotSize in
    let totalExpectedPayout :=
      fold_left
        (fun total i =>
           let matches := Z.of_nat i in
           let probability :=
             calculateMatchProbability spotSizeNum matches poolSize drawSize in
           let payout :=
             match property (payouts paytable) matches with
             | Some p => amount p
             | None => of_int 0
             end in
           plus total (times probability payout))
        (seq 0 (Z.to_nat (spotSizeNum + 1))) (of_int 0) in
    let rtp := divided_by totalExpectedPayout (amount (wager paytable)) in
    Returns (divided_by (Math_round (times rtp (of_int 10000))) (of_int 100))).

End ReturnToPlayer.

(** [validatePaytable(spotSize, payouts)], [spotSize] an integer and
    [payouts] an object with amounts in cents: the errors pushed, in order. *)
Definition validatePaytable (spotSize : Z) (payouts : list (Z * Z))
  : list string :=
  (if (spotSize <? 1) || (spotSize >? 10)
   then ["Spot size must be between 1 and 10"%string] else [])
  ++ flat_map
       (fun i =>
          let matches := Z.of_nat i in
          match property payouts matches with
          | None =>
              [("Payout for " ++ toString matches ++ " matches is required")
                 %string]
          | Some p =>
              if p <? 0
              then [("Payout for " ++ toString matches
                       ++ " matches cannot be negative")%string]
              else []
          end)
       (seq 0 (Z.to_nat (spotSize + 1))).

End PaytableService.

(** ** routes/paytables.js *)

(** What a handler sends: [data] with a status code, a refusal with a
    message of the handler's own, or the message of the error it caught. *)
Inductive Reply (A : Type) : Type :=
| Sent (code : Z) (data : A)
| Refused (code : Z) (message : string)
| Failed (code : Z) (caught : error).
Arguments Sent {A} code data.
Arguments Refused {A} code message.
Arguments Failed {A} code caught.

Module PaytablesRouter.





End PaytablesRouter.

(** ** The hypergeometric value of the specification

    What [probability(spotCount, matchCount, poolSize, drawSize)] is said to
    equal: C(spotCount, matchCount) C(poolSize-spotCount,
    drawSize-matchCount) / C(poolSize, drawSize), an exact rational. *)

(** The binomial coefficient, by Pascal's rule. *)
Fixpoint choose (n k : nat) : Z :=
  match n, k with
  | _, O => 1
  | O, S _ => 0
  | S n', S k' => choose n' k' + choose n' k
  end.

(** [C(n, k)] on integers: zero outside [0 <= k <= n]. *)
Definition C (n k : Z) : Z :=
  if (0 <=? k) && (k <=? n) then choose (Z.to_nat n) (Z.to_nat k) else 0.

Definition hypergeometric (spotCount matchCount poolSize drawSize : Z) : Q :=
  (inject_Z (C spotCount matchCount
             * C (poolSize - spotCount) (drawSize - matchCount))
   / inject_Z (C poolSize drawSize))%Q.

(** ** The persistent store (database/migrations/001_create_tables.sql) *)

Inductive DrawStatus : Type := pending | completed | draw_cancelled.
Inductive TicketStatus : Type := active | settled | cancelled | refunded.
Inductive TransactionType : Type :=
  deposit | withdrawal | wager_tx | payout_tx | refund_tx.

Record DrawRow : Type := mkDraw
  { draw_id : uuid;
    draw_number : Z;
    draw_time : Z;
    draw_numbers : list Z;
    server_seed_hash : string;
    client_seed : string;
    draw_nonce : Z;
    draw_status : DrawStatus;
    completed_at : option Z }.

Record TicketRow : Type := mkTicket
  { ticket_id : uuid;
    ticket_user_id : uuid;
    ticket_draw_id : option uuid;
    ticket_number : uuid;
    ticket_spots : list Z;
    spot_size : Z;
    ticket_wager : Z;
    total_cost : Z;
    ticket_status : TicketStatus;
    settlement_time : option Z }.

Record SettlementRow : Type := mkSettlement
  { settlement_id : uuid;
    settlement_ticket_id : uuid;
    settlement_draw_id : uuid;
    settlement_matches : Z;
    settlement_payout : Z;
    settlement_reference : uuid }.

Record WalletRow : Type := mkWallet
  { wallet_id : uuid;
    wallet_user_id : uuid;
    balance : Z }.

Record TransactionRow : Type := mkTransaction
  { transaction_wallet_id : uuid;
    transaction_type : TransactionType;
    amount : Z;
    balance_before : Z;
    balance_after : Z;
    reference_id : uuid }.

Record Store : Type := mkStore
  { draws : list DrawRow;
    tickets : list TicketRow;
    ticket_settlements : list SettlementRow;
    user_wallets : list WalletRow;
    wallet_transactions : list TransactionRow }.

Definition DrawStatus_eqb (a b : DrawStatus) : bool :=
  match a, b with
  | pending, pending | completed, completed
  | draw_cancelled, draw_cancelled => true
  | _, _ => false
  end.

Definition TicketStatus_eqb (a b : TicketStatus) : bool :=
  match a, b with
  | active, active | settled, settled | cancelled, cancelled
  | refunded, refunded => true
  | _, _ => false
  end.

Definition with_draws (f : list DrawRow -> list DrawRow) (s : Store) : Store :=
  mkStore (f (draws s)) (tickets s) (ticket_settlements s) (user_wallets s)
          (wallet_transactions s).
Definition with_tickets (f : list TicketRow -> list TicketRow) (s : Store)
  : Store :=
  mkStore (draws s) (f (tickets s)) (ticket_settlements s) (user_wallets s)
          (wallet_transactions s).
Definition with_settlements (f : list SettlementRow -> list SettlementRow)
    (s : Store) : Store :=
  mkStore (draws s) (tickets s) (f (ticket_settlements s)) (user_wallets s)
          (wallet_transactions s).
Definition with_wallets (f : list WalletRow -> list WalletRow) (s : Store)
  : Store :=
  mkStore (draws s) (tickets s) (ticket_settlements s) (f (user_wallets s))
          (wallet_transactions s).
Definition with_transactions (f : list TransactionRow -> list TransactionRow)
    (s : Store) : Store :=
  mkStore (draws s) (tickets s) (ticket_settlements s) (user_wallets s)
          (f (wallet_transactions s)).

(** ** The process and its surroundings *)

(** [refusals] lists the store's answers to the statements to come: [true]
    when the store refuses the statement (connection lost, lock or constraint
    failure), nothing once the list is used up.  [rngService] is the module's
    single [RNGService] instance. *)
Record World : Type := mkWorld
  { store : Store;
    refusals : list bool;
    next_uuid : uuid;
    clock : Z;
    entropy : nat -> nat -> list byte;
    entropy_used : nat;
    rngService : RNGService.t }.

Definition with_store (f : Store -> Store) (w : World) : World :=
  mkWorld (f (store w)) (refusals w) (next_uuid w) (clock w) (entropy w)
          (entropy_used w) (rngService w).
Definition with_refusals (r : list bool) (w : World) : World :=
  mkWorld (store w) r (next_uuid w) (clock w) (entropy w) (entropy_used w)
          (rngService w).

(** Asynchronous code: a step on the world that returns, throws or never
    ends. *)
Definition M (A : Type) : Type := World -> outcome A * World.

Definition ret {A} (a : A) : M A := fun w => (Returns a, w).
Definition throw {A} (e : error) : M A := fun w => (Throws e, w).
Definition bind {A B} (m : M A) (k : A -> M B) : M B :=
  fun w =>
    match m w with
    | (Returns a, w') => k a w'
    | (Throws e, w') => (Throws e, w')
    | (Diverges, w') => (Diverges, w')
    end.
Definition lift {A} (o : outcome A) : M A := fun w => (o, w).

Notation "x <- m ;; k" := (bind m (fun x => k))
  (at level 61, m at next level, right associativity).
Notation "m ;;; k" := (bind m (fun _ => k))
  (at level 61, right associativity).

(** [try { body } catch (error) { handler(error) }] *)
Definition catching {A} (body : M A) (handler : error -> M A) : M A :=
  fun w =>
    match body w with
    | (Throws e, w') => handler e w'
    | other => other
    end.

(** [uuidv4()] *)
Definition uuidv4 : M uuid :=
  fun w => (Returns (next_uuid w),
            mkWorld (store w) (refusals w) (S (next_uuid w)) (clock w)
                    (entropy w) (entropy_used w) (rngService w)).

(** [CURRENT_TIMESTAMP], [new Date()] *)
Definition current_timestamp : M Z := fun w => (Returns (clock w), w).

(** What one call into the RNG service draws from its surroundings. *)
Definition environment : M Env :=
  fun w => (Returns (mkEnv (next_uuid w) (clock w)
                           (entropy w (entropy_used w))),
            mkWorld (store w) (refusals w) (S (next_uuid w)) (clock w)
                    (entropy w) (S (entropy_used w)) (rngService w)).

(** Modelled from the spec: [database.query] of config/database.js, which is
    not among the sources.  The persistent store applies one statement as a
    whole, committed on its own, or refuses it (store unavailable), in which
    case the promise is rejected and the store is left as it was. *)
Definition query {A} (statement : Store -> A * Store) : M A :=
  fun w =>
    match refusals w with
    | true :: rest => (Throws StoreError, with_refusals rest w)
    | false :: rest =>
        let (rows, s) := statement (store w) in
        (Returns rows, with_store (fun _ => s) (with_refusals rest w))
    | [] =>
        let (rows, s) := statement (store w) in
        (Returns rows, with_store (fun _ => s) w)
    end.

(** Modelled from the spec: [database.transaction] of config/database.js,
    which is not among the sources: a single transactional boundary, all or
    nothing.  The statements of the callback are committed when it returns
    and rolled back when it throws, and the error is thrown again. *)
Definition transaction {A} (callback : M A) : M A :=
  fun w =>
    match callback w with
    | (Throws e, w') => (Throws e, with_store (fun _ => store w) w')
    | other => other
    end.

(** Statements that only read. *)
Definition reading {A} (rows : Store -> A) : Store -> A * Store :=
  fun s => (rows s, s).
(** Statements that only write. *)
Definition writing (change : Store -> Store) : Store -> unit * Store :=
  fun s => (tt, change s).

(** Modelled from the spec: the two connections at work inside
    [database.transaction(callback)] of config/database.js, which is not
    among the sources.  What the callback sends through [client] belongs to
    the transaction: it is seen by the later statements of [client], applied
    to the store when the callback returns and dropped when it throws.  What
    the callback sends through [database.query] travels on another connection
    and is committed on its own, whatever becomes of the transaction.  A
    callback in progress carries the changes [client] has made so far. *)
Definition Tx (A : Type) : Type :=
  (Store -> Store) -> World -> (outcome A * World) * (Store -> Store).

Definition tx_ret {A} (a : A) : Tx A :=
  fun changes w => ((Returns a, w), changes).
Definition tx_throw {A} (e : error) : Tx A :=
  fun changes w => ((Throws e, w), changes).
Definition tx_bind {A B} (m : Tx A) (k : A -> Tx B) : Tx B :=
  fun changes w =>
    match m changes w with
    | ((Returns a, w'), changes') => k a changes' w'
    | ((Throws e, w'), changes') => ((Throws e, w'), changes')
    | ((Diverges, w'), changes') => ((Diverges, w'), changes')
    end.

(** [client.query]: the statement reads the store with the changes made so
    far on it, and what it writes is added to them. *)
Definition client_query {A} (statement : Store -> A * Store) : Tx A :=
  fun changes w =>
    match query (fun s => (fst (statement (changes s)), s)) w with
    | (Returns rows, w') =>
        ((Returns rows, w'), fun s => snd (statement (changes s)))
    | other => (other, changes)
    end.

(** [database.query] and what is built on it, called from the callback. *)
Definition on_pool {A} (m : M A) : Tx A := fun changes w => (m w, changes).

Definition transaction_on_client {A} (callback : Tx A) : M A :=
  fun w =>
    match callback (fun s => s) w with
    | ((Returns a, w'), changes) => (Returns a, with_store changes w')
    | (other, _) => other
    end.

(** ** services/ticketService.js *)

Module TicketService.

Record t : Type := mk
  { minWager : Z; maxWager : Z; minSpots : Z; maxSpots : Z }.

Record TicketData : Type := mkTicketData
  { spots : list Z; wager : Z; spotSize : Z; drawId : option uuid }.

Definition check (failed : bool) (message : string) : outcome unit :=
  if failed then Throws (Error message) else Returns tt.

Definition validateTicketData (this : t) (spots : list Z) (wager spotSize : Z)
  : outcome unit :=
  let count := Z.of_nat (List.length spots) in
  obind (check (count =? 0) "Spots must be a non-empty array") (fun _ =>
  obind (check ((count <? minSpots this) || (count >? maxSpots this))
           ("Number of spots must be between " ++ toString (minSpots this)
              ++ " and " ++ toString (maxSpots this))) (fun _ =>
  obind (check (negb (spotSize =? count))
           "Spot size must match number of selected spots") (fun _ =>
  obind (check (existsb (fun spot => (spot <? 1) || (spot >? 80)) spots)
           "All spots must be integers between 1 and 80") (fun _ =>
  obind (check (negb (List.length (nodup Z.eq_dec spots)
                      =? List.length spots)%nat)
           "Duplicate spots are not allowed") (fun _ =>
  (* the message also spells out the two bounds *)
  check ((wager <? minWager this) || (wager >? maxWager this))
        "Wager must be between the configured bounds"))))).

(** [Date.now()] and [Math.random()] put together; here a fresh value. *)
Definition generateTicketNumber (this : t) : M uuid := uuidv4.

Definition getUserWallet (this : t) (userId : uuid) : M WalletRow :=
  rows <- query (reading (fun s =>
            filter (fun wl => wallet_user_id wl =? userId)%nat
                   (user_wallets s))) ;;
  match rows with
  | [] =>
      walletId <- uuidv4 ;;
      query (writing (with_wallets (fun wls =>
               wls ++ [mkWallet walletId userId 0]))) ;;;
      ret (mkWallet walletId userId 0)
  | first :: _ => ret first
  end.

Record Reservation : Type := mkReservation
  { reservation_before : Z; reservation_after : Z }.

Definition reserveFunds (this : t) (walletId : uuid) (amount : Z)
    (referenceId : uuid) (transactionType : TransactionType)
  : M Reservation :=
  transaction (
    walletResult <- query (reading (fun s =>
        filter (fun wl => wallet_id wl =? walletId)%nat (user_wallets s))) ;;
    match walletResult with
    | [] => throw (Error "Wallet not found")
    | row :: _ =>
        let currentBalance := balance row in
        let newBalance := currentBalance - amount in
        if newBalance <? 0 then throw (Error "Insufficient balance")
        else
          query (writing (with_wallets (map (fun wl =>
            if (wallet_id wl =? walletId)%nat
            then mkWallet (wallet_id wl) (wallet_user_id wl) newBalance
            else wl)))) ;;;
          query (writing (with_transactions (fun txs =>
            txs ++ [mkTransaction walletId transactionType (- amount)
                      currentBalance newBalance referenceId]))) ;;;
          ret (mkReservation currentBalance newBalance)
    end).

Definition purchaseTicket (this : t) (userId : uuid) (ticketData : TicketData)
  : M TicketRow :=
  let spots := spots ticketData in
  let wager := wager ticketData in
  let spotSize := spotSize ticketData in
  let drawId := drawId ticketData in
  catching (
    lift (validateTicketData this spots wager spotSize) ;;;
    wallet <- getUserWallet this userId ;;
    if balance wallet <? wager then throw (Error "Insufficient balance")
    else
      ticketNumber <- generateTicketNumber this ;;
      ticketId <- uuidv4 ;;
      let ticket := mkTicket ticketId userId drawId ticketNumber spots
                      spotSize wager wager active None in
      query (writing (with_tickets (fun ts => ts ++ [ticket]))) ;;;
      reserveFunds this (wallet_id wallet) wager ticketId wager_tx ;;;
      ret ticket)
    (fun error => throw error).

(** [LEFT JOIN]: the matching rows, or one [NULL] row when there is none. *)
Definition left_join {Row : Type} (matching : Row -> bool) (rows : list Row)
  : list (option Row) :=
  match filter matching rows with
  | [] => [None]
  | found => map Some found
  end.

(** A row of [getTicketById]: the ticket, with the draw and the settlement
    joined to it. *)
Record TicketView : Type := mkTicketView
  { view_ticket : TicketRow;
    view_draw : option DrawRow;
    view_settlement : option SettlementRow }.

Definition getTicketById (this : t) (ticketId : uuid)
  : M (option TicketView) :=
  rows <- query (reading (fun s =>
      flat_map (fun tk =>
        flat_map (fun d =>
          map (fun st => mkTicketView tk d st)
              (left_join (fun st => settlement_ticket_id st =? ticket_id tk)%nat
                         (ticket_settlements s)))
          (left_join (fun d => match ticket_draw_id tk with
                               | Some drawId => (draw_id d =? drawId)%nat
                               | None => false
                               end)
                     (draws s)))
        (filter (fun tk => ticket_id tk =? ticketId)%nat (tickets s)))) ;;
  ret (hd_error rows).

(** The UPDATE of [refundTicket] and of [cancelTicket] on one row. *)
Definition set_balance (walletId : uuid) (newBalance : Z) (wl : WalletRow)
  : WalletRow :=
  if (wallet_id wl =? walletId)%nat
  then mkWallet (wallet_id wl) (wallet_user_id wl) newBalance
  else wl.

Definition mark_cancelled (ticketId : uuid) (tk : TicketRow) : TicketRow :=
  if (ticket_id tk =? ticketId)%nat
  then mkTicket (ticket_id tk) (ticket_user_id tk) (ticket_draw_id tk)
         (ticket_number tk) (ticket_spots tk) (spot_size tk)
         (ticket_wager tk) (total_cost tk) cancelled (settlement_time tk)
  else tk.

(** [refundTicket(client, ticket)]: the wallet is fetched, and created when
    there is none, through [database.query]; the two writes go through
    [client]. *)
Definition refundTicket (this : t) (ticket : TicketRow) : Tx unit :=
  tx_bind (on_pool (getUserWallet this (ticket_user_id ticket)))
    (fun wallet =>
  let newBalance := balance wallet + ticket_wager ticket in
  tx_bind (client_query (writing (with_wallets
             (map (set_balance (wallet_id wallet) newBalance)))))
    (fun _ =>
  client_query (writing (with_transactions (fun txs =>
    txs ++ [mkTransaction (wallet_id wallet) refund_tx (ticket_wager ticket)
              (balance wallet) newBalance (ticket_id ticket)]))))).

Record Cancelled : Type := mkCancelled
  { cancel_success : bool; refund_amount : Z }.

(** The check of [cancelTicket] that the draw has not occurred. *)
Definition draw_still_open (ticket : TicketRow) : Tx unit :=
  match ticket_draw_id ticket with
  | Some drawId =>
      tx_bind (client_query (reading (fun s =>
                 filter (fun d => draw_id d =? drawId)%nat (draws s))))
        (fun drawResult =>
           match drawResult with
           | d :: _ =>
               if DrawStatus_eqb (draw_status d) completed
               then tx_throw
                      (Error "Cannot cancel ticket after draw has completed")
               else tx_ret tt
           | [] => tx_ret tt
           end)
  | None => tx_ret tt
  end.

Definition cancelTicket (this : t) (ticketId userId : uuid) : M Cancelled :=
  transaction_on_client (
    tx_bind (client_query (reading (fun s =>
               filter (fun tk => (ticket_id tk =? ticketId)%nat
                                 && (ticket_user_id tk =? userId)%nat)
                      (tickets s))))
      (fun ticketResult =>
         match ticketResult with
         | [] => tx_throw (Error "Ticket not found")
         | ticket :: _ =>
             if negb (TicketStatus_eqb (ticket_status ticket) active)
             then tx_throw (Error "Ticket cannot be cancelled")
             else
               tx_bind (draw_still_open ticket) (fun _ =>
               tx_bind (refundTicket this ticket) (fun _ =>
               tx_bind (client_query (writing (with_tickets
                          (map (mark_cancelled ticketId))))) (fun _ =>
               tx_ret (mkCancelled true (ticket_wager ticket)))))
         end)).

End TicketService.

(** ** services/drawService.js *)

Module DrawService.

(** The services the module requires. *)
Record t : Type := mk { ticketService : TicketService.t }.

(** [SELECT COALESCE(MAX(draw_number), 0) + 1 FROM draws] *)
Definition getNextDrawNumber (this : t) : M Z :=
  query (reading (fun s =>
    match map draw_number (draws s) with
    | [] => 0
    | first :: others => fold_right Z.max first others
    end + 1)).

Definition createDraw (this : t) (drawTime : Z) : M DrawRow :=
  catching (
    drawNumber <- getNextDrawNumber this ;;
    env <- environment ;;
    drawResult <- (fun w =>
        (RNGService.generateDraw (rngService w) env None None, w)) ;;
    drawId <- uuidv4 ;;
    let draw := mkDraw drawId drawNumber drawTime
                  (DrawResult.numbers drawResult)
                  (DrawResult.serverSeedHash drawResult)
                  (DrawResult.clientSeed drawResult)
                  (DrawResult.nonce drawResult) pending None in
    query (writing (with_draws (fun ds => ds ++ [draw]))) ;;;
    ret draw)
    (fun error => throw error).

Definition calculateMatches (ticketSpots drawNumbers : list Z) : Z :=
  let spotSet := nodup Z.eq_dec ticketSpots in
  let drawSet := nodup Z.eq_dec drawNumbers in
  fold_left (fun matches spot =>
               if existsb (Z.eqb spot) drawSet then matches + 1 else matches)
            spotSet 0.

Definition calculatePayout (this : t) (spotSize matches wager : Z)
  : outcome PaytableService.Payout :=
  PaytableService.calculatePayout spotSize matches wager.

Definition creditWinnings (this : t) (userId : uuid) (amount : Z)
    (ticketId : uuid) : M unit :=
  catching (
    wallet <- TicketService.getUserWallet (ticketService this) userId ;;
    let newBalance := balance wallet + amount in
    query (writing (with_wallets (map (fun wl =>
      if (wallet_id wl =? wallet_id wallet)%nat
      then mkWallet (wallet_id wl) (wallet_user_id wl) newBalance
      else wl)))) ;;;
    query (writing (with_transactions (fun txs =>
      txs ++ [mkTransaction (wallet_id wallet) payout_tx amount
                (balance wallet) newBalance ticketId]))))
    (fun error => throw error).

Record Settled : Type := mkSettled { settled_matches : Z; settled_payout : Z }.

Definition settleTicket (this : t) (ticket : TicketRow) (draw : DrawRow)
  : M Settled :=
  catching (
    let matches := calculateMatches (ticket_spots ticket) (draw_numbers draw) in
    payoutResult <- lift (calculatePayout this (spot_size ticket) matches
                            (ticket_wager ticket)) ;;
    let payout := PaytableService.payout payoutResult in
    settlementId <- uuidv4 ;;
    query (writing (with_settlements (fun sts =>
      sts ++ [mkSettlement settlementId (ticket_id ticket) (draw_id draw)
                matches payout settlementId]))) ;;;
    now <- current_timestamp ;;
    query (writing (with_tickets (map (fun tk =>
      if (ticket_id tk =? ticket_id ticket)%nat
      then mkTicket (ticket_id tk) (ticket_user_id tk) (ticket_draw_id tk)
             (ticket_number tk) (ticket_spots tk) (spot_size tk)
             (ticket_wager tk) (total_cost tk) settled (Some now)
      else tk)))) ;;;
    (if payout >? 0
     then creditWinnings this (ticket_user_id ticket) payout (ticket_id ticket)
     else ret tt) ;;;
    ret (mkSettled matches payout))
    (fun error => throw error).

(** The [for (const ticket of tickets)] loop of [completeDraw]: a failure is
    logged and the loop goes on. *)
Fixpoint settle_each (this : t) (tickets : list TicketRow) (draw : DrawRow)
  : M unit :=
  match tickets with
  | [] => ret tt
  | ticket :: rest =>
      catching (settleTicket this ticket draw ;;; ret tt)
               (fun error => ret tt) ;;;
      settle_each this rest draw
  end.

Record Completed : Type := mkCompleted
  { completed_drawId : uuid; ticketsSettled : Z }.

Definition is_active_for (drawId : uuid) (tk : TicketRow) : bool :=
  match ticket_draw_id tk with
  | Some d => (d =? drawId)%nat && TicketStatus_eqb (ticket_status tk) active
  | None => false
  end.

Definition completeDraw (this : t) (drawId : uuid) : M Completed :=
  catching (
    drawResult <- query (reading (fun s =>
        filter (fun d => draw_id d =? drawId)%nat (draws s))) ;;
    match drawResult with
    | [] => throw (Error "Draw not found")
    | draw :: _ =>
        if negb (DrawStatus_eqb (draw_status draw) pending)
        then throw (Error "Draw is not in pending status")
        else
          now <- current_timestamp ;;
          query (writing (with_draws (map (fun d =>
            if (draw_id d =? drawId)%nat
            then mkDraw (draw_id d) (draw_number d) (draw_time d)
                   (draw_numbers d) (server_seed_hash d) (client_seed d)
                   (draw_nonce d) completed (Some now)
            else d)))) ;;;
          tickets <- query (reading (fun s =>
              filter (is_active_for drawId) (tickets s))) ;;
          settle_each this tickets draw ;;;
          ret (mkCompleted drawId (Z.of_nat (List.length tickets)))
    end)
    (fun error => throw error).

Definition getDrawById (this : t) (drawId : uuid) : M (option DrawRow) :=
  rows <- query (reading (fun s =>
      filter (fun d => draw_id d =? drawId)%nat (draws s))) ;;
  ret (hd_error rows).

(** [ORDER BY draw_time]: rows with equal times keep their stored order. *)
Fixpoint insert_by (before : DrawRow -> DrawRow -> bool) (d : DrawRow)
    (sorted : list DrawRow) : list DrawRow :=
  match sorted with
  | [] => [d]
  | x :: rest =>
      if before x d then x :: insert_by before d rest else d :: sorted
  end.

Definition order_by (before : DrawRow -> DrawRow -> bool) (rows : list DrawRow)
  : list DrawRow :=
  fold_right (insert_by before) [] rows.

Definition getRecentDraws (this : t) (limit : Z) : M (list DrawRow) :=
  query (reading (fun s =>
    firstn (Z.to_nat limit)
      (order_by (fun x y => draw_time y <=? draw_time x) (draws s)))).

Definition getUpcomingDraws (this : t) : M (list DrawRow) :=
  query (reading (fun s =>
    order_by (fun x y => draw_time x <=? draw_time y)
      (filter (fun d => DrawStatus_eqb (draw_status d) pending) (draws s)))).

Record Verified : Type := mkVerified
  { verified_drawId : uuid; isValid : bool; verify_error : option error }.

Definition verifyDraw (this : t) (drawId : uuid) : M Verified :=
  catching (
    draw <- getDrawById this drawId ;;
    match draw with
    | None => throw (Error "Draw not found")
    | Some draw =>
        isValid <- (fun w =>
          (RNGService.verifyDraw (rngService w)
             (* the object passed has no drawId and no timestamp *)
             (Some (DrawResult.mk O 0 (draw_numbers draw)
                      (server_seed_hash draw) (client_seed draw)
                      (draw_nonce draw) 80 20)), w)) ;;
        ret (mkVerified drawId isValid None)
    end)
    (fun error => ret (mkVerified drawId false (Some error))).

(** [runScheduledDraw()]: what is thrown is logged and goes no further. *)
Definition runScheduledDraw (this : t) : M unit :=
  catching (
    drawTime <- current_timestamp ;;
    draw <- createDraw this drawTime ;;
    completeDraw this (draw_id draw) ;;;
    ret tt)
    (fun error => ret tt).

End DrawService.

(** ** routes/draws.js *)

Module DrawsRouter.

(** The JSON object sent for one draw; [None] is a field left out. *)
Record DrawJson : Type := mkDrawJson
  { drawId : uuid;
    drawNumber : Z;
    drawTime : Z;
    numbers : option (list Z);
    status : DrawStatus;
    serverSeedHash : option string;
    clientSeed : option string;
    nonce : option Z;
    completedAt : option (option Z) }.

Inductive Response : Type :=
| Json (code : Z) (data : list DrawJson)
| Failure (code : Z) (message : string).

Definition full (draw : DrawRow) : DrawJson :=
  mkDrawJson (draw_id draw) (draw_number draw) (draw_time draw)
    (Some (draw_numbers draw)) (draw_status draw)
    (Some (server_seed_hash draw)) (Some (client_seed draw))
    (Some (draw_nonce draw)) (Some (completed_at draw)).

Definition brief (draw : DrawRow) : DrawJson :=
  mkDrawJson (draw_id draw) (draw_number draw) (draw_time draw)
    None (draw_status draw) None None None None.

(** [GET /api/v1/draws] *)
Definition get_draws (service : DrawService.t) (limit : Z) : M Response :=
  catching (
    draws <- DrawService.getRecentDraws service limit ;;
    ret (Json 200 (map full draws)))
    (fun error => ret (Failure 500 "Failed to retrieve draws")).

(** [GET /api/v1/draws/upcoming] *)
Definition get_upcoming (service : DrawService.t) : M Response :=
  catching (
    draws <- DrawService.getUpcomingDraws service ;;
    ret (Json 200 (map brief draws)))
    (fun error => ret (Failure 500 "Failed to retrieve upcoming draws")).

(** [GET /api/v1/draws/:drawId] *)
Definition get_draw (service : DrawService.t) (drawId : uuid) : M Response :=
  catching (
    draw <- DrawService.getDrawById service drawId ;;
    match draw with
    | None => ret (Failure 404 "Draw not found")
    | Some draw => ret (Json 200 [full draw])
    end)
    (fun error => ret (Failure 500 "Failed to retrieve draw")).

(** [POST /api/v1/draws], as an administrator. *)
Definition post_draw (service : DrawService.t) (drawTime : Z) : M Response :=
  catching (
    draw <- DrawService.createDraw service drawTime ;;
    ret (Json 201 [brief draw]))
    (fun error => ret (Failure 500 "Failed to create draw")).

(** [POST /api/v1/draws/:drawId/verify] *)
Definition post_verify (service : DrawService.t) (drawId : uuid)
  : M (Reply DrawService.Verified) :=
  catching (
    result <- DrawService.verifyDraw service drawId ;;
    ret (Sent 200 result))
    (fun error => ret (Refused 500 "Failed to verify draw")).

End DrawsRouter.

(** ** routes/tickets.js *)

Module TicketsRouter.

(** The JSON object sent for one ticket, but for the times of purchase and
    of settlement, which the rows here do not carry; [None] is [null]. *)
Record TicketJson : Type := mkTicketJson
  { ticketId : uuid;
    ticketNumber : uuid;
    spots : list Z;
    wager : Z;
    spotSize : Z;
    status : TicketStatus;
    drawTime : option Z;
    drawNumbers : option (list Z);
    drawStatus : option DrawStatus;
    matches : option Z;
    payout : option Z }.

Definition shown (view : TicketService.TicketView) : TicketJson :=
  let ticket := TicketService.view_ticket view in
  mkTicketJson (ticket_id ticket) (ticket_number ticket) (ticket_spots ticket)
    (ticket_wager ticket) (spot_size ticket) (ticket_status ticket)
    (option_map draw_time (TicketService.view_draw view))
    (option_map draw_numbers (TicketService.view_draw view))
    (option_map draw_status (TicketService.view_draw view))
    (option_map settlement_matches (TicketService.view_settlement view))
    (option_map settlement_payout (TicketService.view_settlement view)).

(** [GET /api/v1/tickets/:ticketId], asked by the user [userId]. *)
Definition get_ticket (service : TicketService.t) (ticketId userId : uuid)
  : M (Reply TicketJson) :=
  catching (
    ticket <- TicketService.getTicketById service ticketId ;;
    match ticket with
    | None => ret (Refused 404 "Ticket not found")
    | Some view =>
        if negb (ticket_user_id (TicketService.view_ticket view) =? userId)%nat
        then ret (Refused 403 "Access denied")
        else ret (Sent 200 (shown view))
    end)
    (fun error => ret (Refused 500 "Failed to retrieve ticket")).

(** [DELETE /api/v1/tickets/:ticketId], asked by the user [userId]; the
    data sent is the refund amount. *)
Definition delete_ticket (service : TicketService.t) (ticketId userId : uuid)
  : M (Reply Z) :=
  catching (
    result <- TicketService.cancelTicket service ticketId userId ;;
    ret (Sent 200 (TicketService.refund_amount result)))
    (fun error => ret (Failed 400 error)).

End TicketsRouter.

(** ** Observations on the store *)

Definition sum_over {A : Type} (f : A -> Z) (l : list A) : Z :=
  fold_right (fun a total => f a + total) 0 l.

(** The sum of a list of rationals. *)
Definition total (terms : list Q) : Q := fold_right Qplus 0%Q terms.

Definition ticket_rows (s : Store) (ticketId : uuid) : list TicketRow :=
  filter (fun tk => ticket_id tk =? ticketId)%nat (tickets s).

Definition settlements_of (s : Store) (ticketId : uuid) : list SettlementRow :=
  filter (fun st => settlement_ticket_id st =? ticketId)%nat
         (ticket_settlements s).

Definition is_payout_for (ticketId : uuid) (tx : TransactionRow) : bool :=
  match transaction_type tx with
  | payout_tx => (reference_id tx =? ticketId)%nat
  | _ => false
  end.

(** The ledger entries that credit a ticket's winnings. *)
Definition payouts_of (s : Store) (ticketId : uuid) : list TransactionRow :=
  filter (is_payout_for ticketId) (wallet_transactions s).

(** The balance [getUserWallet] finds for a user (none yet: zero). *)
Definition user_balance (s : Store) (userId : uuid) : Z :=
  match filter (fun wl => wallet_user_id wl =? userId)%nat (user_wallets s) with
  | wl :: _ => balance wl
  | [] => 0
  end.

(** What a ticket wins on a draw, and what [settleTicket] has credited for
    it (nothing unless the payout is positive). *)
Definition prize (ticket : TicketRow) (draw : DrawRow) : Z :=
  match PaytableService.calculatePayout (spot_size ticket)
          (DrawService.calculateMatches (ticket_spots ticket)
             (draw_numbers draw))
          (ticket_wager ticket) with
  | Returns p => PaytableService.payout p
  | _ => 0
  end.

Definition credit (draw : DrawRow) (ticket : TicketRow) : Z :=
  if prize ticket draw >? 0 then prize ticket draw else 0.

(** The UPDATE of [settleTicket] on one row. *)
Definition mark_settled (now : Z) (ticketId : uuid) (tk : TicketRow)
  : TicketRow :=
  if (ticket_id tk =? ticketId)%nat
  then mkTicket (ticket_id tk) (ticket_user_id tk) (ticket_draw_id tk)
         (ticket_number tk) (ticket_spots tk) (spot_size tk)
         (ticket_wager tk) (total_cost tk) settled (Some now)
  else tk.

(** The UPDATE of [completeDraw] on one row. *)
Definition mark_completed (now : Z) (drawId : uuid) (d : DrawRow) : DrawRow :=
  if (draw_id d =? drawId)%nat
  then mkDraw (draw_id d) (draw_number d) (draw_time d) (draw_numbers d)
         (server_seed_hash d) (client_seed d) (draw_nonce d) completed
         (Some now)
  else d.

(** What the schema and [uuidv4] guarantee: primary keys are unique, fresh
    identifiers are not yet in use, spot sizes are between 1 and 10. *)
Definition wallets_ok (w : World) : Prop :=
  NoDup (map wallet_id (user_wallets (store w)))
  /\ Forall (fun wl => (wallet_id wl < next_uuid w)%nat)
            (user_wallets (store w)).

Definition well_formed (w : World) : Prop :=
  NoDup (map ticket_id (tickets (store w)))
  /\ Forall (fun tk => 1 <= spot_size tk <= 10) (tickets (store w))
  /\ wallets_ok w.

(** ** Concrete scenarios *)

Module Scenario.

(** Spec, scenario 1: secret "S1", client seed "C1", nonce 42, 20 of 80. *)
Definition rng : RNGService.t := RNGService.mk "S1" 32 80 20.

Definition zeros (n : nat) : list byte := repeat x00 n.

Definition env : Env := mkEnv 7%nat 1700000000000 zeros.

(** The draw [rng] generates for client seed "C1" and nonce 42. *)
Definition draw : DrawResult.t :=
  DrawResult.mk 7%nat 1700000000000
    [1; 2; 6; 10; 12; 15; 16; 17; 22; 24; 25; 27; 28; 32; 34; 38; 48; 67; 73;
     76]
    "3696ad59777e09d5f2daacb544022d435e7cd053d87c5781241fabd8fdf2a90d"
    "C1" 42 80 20.


(** The HMAC digest of that draw result: key "S1C1", message "336". *)
Definition wide_digest : list byte := createHmac_sha256 "S1C1" (toString 336).

(** A ticket service with the default limits (wagers from $0.25 to $20,
    1 to 10 spots) and the draw service on top of it. *)
Definition ticketing : TicketService.t := TicketService.mk 25 2000 1 10.
Definition drawing : DrawService.t := DrawService.mk ticketing.

(** An empty store, but for the wallet of user 1, holding $10. *)
Definition opening : World :=
  mkWorld (mkStore [] [] [] [mkWallet 50 1 1000] []) [] 100 1700000000000
          (fun _ => zeros) 0 rng.

(** A pending draw with one active three-spot ticket of user 1 that matches
    three numbers (payout 42 times the $1 wager). *)
Definition round : DrawRow :=
  mkDraw 60
    1 1700000000000
    [1; 2; 6; 10; 12; 15; 16; 17; 22; 24; 25; 27; 28; 32; 34; 38; 48; 67; 73;
     76]
    "3696ad59777e09d5f2daacb544022d435e7cd053d87c5781241fabd8fdf2a90d"
    "C1" 42 pending None.

Definition winner : TicketRow :=
  mkTicket 70 1 (Some 60%nat) 71 [1; 2; 6] 3 100 100 active None.

Definition betting (answers : list bool) : World :=
  mkWorld (mkStore [round] [winner] [] [mkWallet 50 1 900] []) answers 100
          1700000000000 (fun _ => zeros) 0 rng.

(** Spec, scenario 3: the draw with three active wagers: the winner above,
    a three-spot ticket of user 1 that matches nothing, and a two-spot
    ticket of user 2 (who has no wallet yet) that matches both numbers. *)
Definition three_wagers : World :=
  mkWorld
    (mkStore [round]
       [winner;
        mkTicket 72 1 (Some 60%nat) 73 [3; 4; 5] 3 100 100 active None;
        mkTicket 74 2 (Some 60%nat) 75 [1; 2] 2 50 50 active None]
       [] [mkWallet 50 1 800] [])
    [] 100 1700000000000 (fun _ => zeros) 0 rng.

Definition wagers : list TicketRow :=
  filter (DrawService.is_active_for 60) (tickets (store three_wagers)).

(** The purchase of a one-dollar three-spot ticket on that draw. *)
Definition order : TicketService.TicketData :=
  TicketService.mkTicketData [1; 2; 6] 100 3 (Some 60%nat).

Definition before_purchase (answers : list bool) : World :=
  mkWorld (mkStore [round] [] [] [mkWallet 50 1 1000] []) answers 100
          1700000000000 (fun _ => zeros) 0 rng.

(** The draw once completed, the winner's ticket still active: what a
    settlement that the store refused leaves behind. *)
Definition closed_round : DrawRow :=
  mkDraw 60 1 1700000000000 (draw_numbers round) (server_seed_hash round)
    (client_seed round) (draw_nonce round) completed (Some 1700000000000).

Definition stranded (answers : list bool) : World :=
  mkWorld (mkStore [closed_round] [winner] [] [mkWallet 50 1 900] []) answers
          100 1700000000000 (fun _ => zeros) 0 rng.

(** The draw that [createDraw] stores in [opening]: client seed of 32 zero
    bytes, the clock for nonce. *)
Definition created : DrawRow :=
  mkDraw 101 1 1700000300000
    [1; 2; 6; 7; 12; 13; 16; 18; 22; 23; 26; 27; 34; 40; 43; 54; 59; 61;
     67; 76]
    "3696ad59777e09d5f2daacb544022d435e7cd053d87c5781241fabd8fdf2a90d"
    "0000000000000000000000000000000000000000000000000000000000000000"
    1700000000000 pending None.


End Scenario.

(* ================================================================== *)
(** * Part II: properties *)
(* ================================================================== *)

#[local] Arguments Nat.modulo : simpl never.
#[local] Arguments Nat.div : simpl never.

(** ** Outcomes *)

Lemma obind_Returns {A B} (m : outcome A) (k : A -> outcome B) (b : B) :
  obind m k = Returns b -> exists a, m = Returns a /\ k a = Returns b.
Proof. destruct m; simpl; intros E; try discriminate; eauto. Qed.

(** A statement on a store that refuses nothing. *)
Lemma query_quiet {A} (statement : Store -> A * Store) w :
  refusals w = [] ->
  query statement w
  = (Returns (fst (statement (store w))),
     with_store (fun _ => snd (statement (store w))) w).
Proof.
  unfold query. intros ->. destruct (statement (store w)); reflexivity.
Qed.

(** ** The rejection loop of [getRandomIndex] *)

Section RejectionLoop.
Import RNGService.
Variable hash : list byte.
Variable max : Z.

Let m : nat := (List.length hash - 4)%nat.

Let rejects := RNGService.rejects hash max.

Lemma loop_more_fuel (fuel extra offset : nat) :
  getRandomIndex_loop fuel hash max offset <> Diverges ->
  getRandomIndex_loop (fuel + extra) hash max offset
  = getRandomIndex_loop fuel hash max offset.
Proof.
  revert offset; induction fuel as [|fuel IH]; intros offset Hne.
  - now contradiction Hne.
  - simpl in *. destruct (readUInt32BE hash _) as [v| |]; simpl in *; auto.
    destruct (v >=? rejectionBound max); auto.
Qed.

Lemma loop_diverges_rejects (fuel offset : nat) :
  getRandomIndex_loop fuel hash max offset = Diverges ->
  forall k, (k < fuel)%nat -> rejects ((offset + 4 * k) mod m).
Proof.
  revert offset; induction fuel as [|fuel IH]; intros offset Hd k Hk; [lia|].
  simpl in Hd. fold m in Hd.
  destruct (readUInt32BE hash (offset mod m)) as [v| |] eqn:Hr;
    simpl in Hd; try discriminate;
    [|unfold readUInt32BE in Hr; destruct (_ <=? _)%nat; discriminate].
  destruct (v >=? rejectionBound max) eqn:Hv; try discriminate.
  destruct k as [|k].
  - replace (offset + 4 * 0)%nat with offset by lia. exists v; auto.
  - replace (offset + 4 * S k)%nat with (offset + 4 + 4 * k)%nat by lia.
    apply IH; [assumption | lia].
Qed.

Lemma loop_rejects_diverges (fuel offset : nat) :
  (forall k, (k < fuel)%nat -> rejects ((offset + 4 * k) mod m)) ->
  getRandomIndex_loop fuel hash max offset = Diverges.
Proof.
  revert offset; induction fuel as [|fuel IH]; intros offset Hall; [reflexivity|].
  simpl. fold m.
  destruct (Hall 0%nat ltac:(lia)) as (v & Hr & Hv).
  replace (offset + 4 * 0)%nat with offset in Hr by lia.
  rewrite Hr; simpl; rewrite Hv.
  apply IH. intros k Hk.
  replace (offset + 4 + 4 * k)%nat with (offset + 4 * S k)%nat by lia.
  apply Hall; lia.
Qed.

(** Once the offsets have gone through [hash.length - 4] iterations they
    only repeat: more iterations change nothing, and [Diverges] there means
    that the loop never exits. *)
Lemma getRandomIndex_loop_stable (fuel : nat) :
  (4 < List.length hash)%nat -> (m <= fuel)%nat ->
  getRandomIndex_loop fuel hash max 0 = getRandomIndex_loop m hash max 0.
Proof.
  intros Hlen Hfuel.
  destruct (getRandomIndex_loop m hash max 0) as [j|e|] eqn:Hm.
  - replace fuel with (m + (fuel - m))%nat by lia.
    rewrite loop_more_fuel; rewrite Hm; [reflexivity|discriminate].
  - replace fuel with (m + (fuel - m))%nat by lia.
    rewrite loop_more_fuel; rewrite Hm; [reflexivity|discriminate].
  - apply loop_rejects_diverges. intros k _.
    assert (Hm0 : m <> 0%nat) by (unfold m; lia).
    rewrite Nat.add_0_l, <- (Nat.Div0.mul_mod_idemp_r 4 k m).
    pose proof (loop_diverges_rejects m 0 Hm (k mod m)%nat) as H.
    rewrite Nat.add_0_l in H. apply H.
    apply Nat.mod_upper_bound; assumption.
Qed.

Lemma loop_range (fuel offset : nat) (j : Z) :
  0 < max ->
  getRandomIndex_loop fuel hash max offset = Returns j -> 0 <= j < max.
Proof.
  intros Hmax. revert offset; induction fuel as [|fuel IH]; intros offset;
    simpl; [discriminate|].
  destruct (readUInt32BE hash _) as [v| |]; simpl; try discriminate.
  destruct (v >=? rejectionBound max); [apply IH|].
  intros E; injection E as <-. apply Z.mod_pos_bound; assumption.
Qed.

End RejectionLoop.

(** The ghost trace follows the loop: when the loop returns, the last
    offset of the trace is the one whose value was accepted, and every offset
    before it was read and rejected. *)
Lemma reads_follow_loop hash max (fuel offset : nat) (j : Z) :
  RNGService.getRandomIndex_loop fuel hash max offset = Returns j ->
  exists earlier last v,
    RNGService.getRandomIndex_reads fuel hash max offset = earlier ++ [last]
    /\ RNGService.readUInt32BE hash last = Returns v
    /\ v < RNGService.rejectionBound max
    /\ j = v mod max
    /\ Forall (RNGService.rejects hash max) earlier.
Proof.
  revert offset; induction fuel as [|fuel IH]; intros offset; [discriminate|].
  cbn [RNGService.getRandomIndex_loop RNGService.getRandomIndex_reads].
  set (r := (offset mod (List.length hash - 4))%nat).
  destruct (RNGService.readUInt32BE hash r) as [v| |] eqn:Hread;
    cbn [obind]; try discriminate.
  destruct (Z.geb_spec v (RNGService.rejectionBound max)) as [Hge|Hlt].
  - intros Hloop.
    destruct (IH _ Hloop) as (earlier & last & v' & Hreads & Hlast & Hv & Hj
                              & Hrej).
    exists (r :: earlier), last, v'. rewrite Hreads.
    repeat split; auto. constructor; [|exact Hrej].
    exists v. split; [exact Hread|]. apply Z.geb_le. lia.
  - intros E. injection E as <-.
    exists [], r, v. repeat split; auto.
Qed.

Lemma find_app {A} (f : A -> bool) (l1 l2 : list A) :
  find f (l1 ++ l2)
  = match find f l1 with Some x => Some x | None => find f l2 end.
Proof.
  induction l1 as [|x l1 IH]; simpl; [reflexivity|].
  destruct (f x); auto.
Qed.

Lemma readUInt32BE_window hash offset :
  (offset + 4 <= List.length hash)%nat ->
  RNGService.readUInt32BE hash offset
  = Returns (RNGService.window hash offset).
Proof.
  intros H. unfold RNGService.readUInt32BE, RNGService.window.
  destruct (Nat.leb_spec (offset + 4) (List.length hash)); [reflexivity|lia].
Qed.

(** The loop as a search through the offsets it reads, on a 32-byte
    digest. *)
Lemma loop_as_search hash max (fuel offset : nat) :
  List.length hash = 32%nat ->
  RNGService.getRandomIndex_loop fuel hash max offset
  = match find (fun r => RNGService.window hash r
                         <? RNGService.rejectionBound max)
               (map (fun k => ((offset + 4 * k) mod 28)%nat) (seq 0 fuel)) with
    | Some r => Returns (RNGService.window hash r mod max)
    | None => Diverges
    end.
Proof.
  intros Hlen. revert offset.
  induction fuel as [|fuel IH]; intros offset; [reflexivity|].
  cbn [RNGService.getRandomIndex_loop seq map find].
  rewrite Hlen. change (32 - 4)%nat with 28%nat.
  replace (offset + 4 * 0)%nat with offset by lia.
  assert (Hr : (offset mod 28 < 28)%nat) by (apply Nat.mod_upper_bound; lia).
  rewrite readUInt32BE_window by lia. cbn [obind].
  rewrite Z.geb_leb, Z.ltb_antisym.
  destruct (RNGService.rejectionBound max
            <=? RNGService.window hash (offset mod 28)); cbn [negb].
  2: reflexivity.
  rewrite IH, <- seq_shift, map_map.
  erewrite map_ext; [reflexivity|].
  intros k. simpl. f_equal. lia.
Qed.

(** [getRandomIndex] in closed form: the first of the seven windows at
    offsets 0, 4, ..., 24 whose value is below the bound decides; when none
    is, the loop never exits. *)
Lemma getRandomIndex_closed_form (this : RNGService.t) hash max :
  List.length hash = 32%nat ->
  RNGService.getRandomIndex this hash max
  = match RNGService.first_accepted hash max with
    | Some offset => Returns (RNGService.window hash offset mod max)
    | None => Diverges
    end.
Proof.
  intros Hlen. unfold RNGService.getRandomIndex, RNGService.first_accepted.
  rewrite Hlen. change (32 <=? 4)%nat with false. change (32 - 4)%nat with 28%nat.
  cbv iota. rewrite loop_as_search by assumption.
  change (map (fun k => ((0 + 4 * k) mod 28)%nat) (seq 0 28))
    with (RNGService.windows ++ RNGService.windows ++ RNGService.windows
            ++ RNGService.windows).
  rewrite !find_app.
  destruct (find _ RNGService.windows); reflexivity.
Qed.

(** On a buffer of 0xff bytes the bound for 80 has no window below it:
    [getRandomIndex] reads the same seven windows for ever. *)
Example getRandomIndex_never_returns :
  RNGService.getRandomIndex Scenario.rng (repeat xff 32) 80 = Diverges.
Proof. vm_compute. reflexivity. Qed.

Lemma hmac_length key message :
  List.length (createHmac_sha256 key message) = 32%nat.
Proof. reflexivity. Qed.

Lemma getRandomIndex_range (this : RNGService.t) hash max j :
  0 < max -> RNGService.getRandomIndex this hash max = Returns j ->
  0 <= j < max.
Proof.
  unfold RNGService.getRandomIndex. intros Hmax.
  destruct (List.length hash <=? 4)%nat; [discriminate|].
  apply loop_range; assumption.
Qed.

(** ** The Fisher-Yates loop *)

Section Shuffle.
Import RNGService.

Lemma assign_length l i x : List.length (assign l i x) = List.length l.
Proof.
  revert i; induction l as [|a l IH]; intros [|i]; simpl; auto.
Qed.

Lemma nth_assign_same l i x d :
  (i < List.length l)%nat -> nth i (assign l i x) d = x.
Proof.
  revert i; induction l as [|a l IH]; intros [|i] H; simpl in *;
    try lia; auto. apply IH; lia.
Qed.

Lemma nth_assign_other l i j x d :
  i <> j -> nth j (assign l i x) d = nth j l d.
Proof.
  revert i j; induction l as [|a l IH]; intros [|i] [|j] H; simpl;
    try reflexivity; try congruence.
  apply IH; congruence.
Qed.

(** Writing [x] at index [i] trades the old element for [x]. *)
Lemma assign_perm l i x :
  (i < List.length l)%nat ->
  Permutation (nth i l 0 :: assign l i x) (x :: l).
Proof.
  revert i; induction l as [|a l IH]; intros [|i] H; simpl in *; try lia.
  - apply perm_swap.
  - rewrite perm_swap. rewrite (IH i) by lia. apply perm_swap.
Qed.

Lemma swap_length l i j : List.length (swap l i j) = List.length l.
Proof. unfold swap; simpl. now rewrite !assign_length. Qed.

Lemma swap_perm l i j :
  (i < List.length l)%nat -> (j < List.length l)%nat ->
  Permutation (swap l i j) l.
Proof.
  intros Hi Hj. unfold swap; simpl.
  set (a := nth i l 0). set (b := nth j l 0).
  assert (H1 : Permutation (a :: assign l i b) (b :: l))
    by (apply assign_perm; assumption).
  assert (Hb : nth j (assign l i b) 0 = b).
  { destruct (Nat.eq_dec i j) as [->|Hne].
    - apply nth_assign_same; assumption.
    - rewrite nth_assign_other by assumption. reflexivity. }
  assert (H2 : Permutation (b :: assign (assign l i b) j a)
                           (a :: assign l i b)).
  { rewrite <- Hb at 1. apply assign_perm. now rewrite assign_length. }
  apply (Permutation_cons_inv (a := b)).
  now rewrite H2, H1.
Qed.

Lemma shuffle_perm this hash i numbers r :
  (i <= List.length numbers - 1)%nat ->
  shuffle this hash i numbers = Returns r -> Permutation r numbers.
Proof.
  revert numbers; induction i as [|i IH]; intros numbers Hi; simpl.
  - intros E; injection E as <-. reflexivity.
  - intros E. apply obind_Returns in E as (j & Hj & E).
    apply getRandomIndex_range in Hj; [|lia].
    apply IH in E; [|rewrite swap_length; lia].
    rewrite E. apply swap_perm; lia.
Qed.

(** The loop runs to its end when every bound it asks for has a window
    below it. *)
Lemma shuffle_returns this hash i numbers :
  List.length hash = 32%nat ->
  (forall k, (1 <= k <= i)%nat ->
             first_accepted hash (Z.of_nat k + 1) <> None) ->
  exists r, shuffle this hash i numbers = Returns r.
Proof.
  intros Hlen. revert numbers; induction i as [|i IH]; intros numbers Hacc.
  - simpl; eauto.
  - cbn [shuffle]. rewrite getRandomIndex_closed_form by assumption.
    destruct (first_accepted hash (Z.of_nat (S i) + 1)) eqn:Hf.
    + cbn [obind]. apply IH. intros k Hk; apply Hacc; lia.
    + exfalso. apply (Hacc (S i)); [lia|assumption].
Qed.


Lemma exits_accepts hash poolSize k :
  exits hash poolSize = true ->
  (1 <= k <= Z.to_nat poolSize - 1)%nat ->
  first_accepted hash (Z.of_nat k + 1) <> None.
Proof.
  unfold exits. rewrite forallb_forall. intros H Hk.
  specialize (H k). rewrite in_seq in H.
  destruct (first_accepted hash (Z.of_nat k + 1)); [discriminate|].
  specialize (H ltac:(lia)). discriminate.
Qed.

(** *** Sorting *)

Lemma insert_perm x l : Permutation (insert x l) (x :: l).
Proof.
  induction l as [|y l IH]; simpl; [reflexivity|].
  destruct (x <=? y); [reflexivity|].
  rewrite IH. apply perm_swap.
Qed.

Lemma sort_perm l : Permutation (sort l) l.
Proof.
  induction l as [|x l IH]; simpl; [reflexivity|].
  rewrite insert_perm. now constructor.
Qed.

Lemma insert_sorted x l :
  StronglySorted Z.le l -> StronglySorted Z.le (insert x l).
Proof.
  induction 1 as [|y l Hs IH Hy]; simpl.
  - repeat constructor.
  - destruct (Z.leb_spec x y).
    + constructor; [constructor; assumption|].
      constructor; [assumption|].
      eapply Forall_impl; [|exact Hy]. simpl; intros; lia.
    + constructor; [assumption|].
      rewrite (Forall_forall (Z.le y)). intros z Hz.
      apply (Permutation_in _ (insert_perm x l)) in Hz.
      destruct Hz as [<-|Hz]; [lia|].
      rewrite Forall_forall in Hy; auto.
Qed.

Lemma sort_sorted l : StronglySorted Z.le (sort l).
Proof.
  induction l; simpl; [constructor|apply insert_sorted; assumption].
Qed.

Lemma sorted_nodup_strict l :
  StronglySorted Z.le l -> NoDup l -> StronglySorted Z.lt l.
Proof.
  induction 1 as [|x l Hs IH Hx]; intros Hnd; constructor;
    inversion Hnd as [|? ? Hnotin Hnd']; subst; auto.
  rewrite Forall_forall in *. intros y Hy.
  specialize (Hx y Hy). assert (x <> y) by (intros ->; contradiction). lia.
Qed.

(** *** The pool and the slice *)

Lemma pool_length poolSize : List.length (pool poolSize) = Z.to_nat poolSize.
Proof. unfold pool. now rewrite length_map, length_seq. Qed.


Lemma pool_NoDup poolSize : NoDup (pool poolSize).
Proof.
  unfold pool. apply Finite.Injective_map_NoDup; [|apply seq_NoDup].
  intros a b Hab. lia.
Qed.




(** It returns when the digest has a window below every bound asked for. *)
Lemma sample_returns this seed nonce poolSize sampleSize :
  exits (createHmac_sha256 seed (toString nonce)) poolSize = true ->
  exists l,
    sampleWithoutReplacement this seed nonce poolSize sampleSize = Returns l.
Proof.
  intros Hex. unfold sampleWithoutReplacement.
  destruct (shuffle_returns this (createHmac_sha256 seed (toString nonce))
              (List.length (pool poolSize) - 1) (pool poolSize)
              (hmac_length _ _)) as (r & Hr).
  - intros k Hk. eapply exits_accepts; [exact Hex|].
    rewrite pool_length in Hk. lia.
  - rewrite Hr. simpl. eauto.
Qed.

(** And only then: it never gets past a bound that has no window. *)
Lemma shuffle_stuck this hash k i numbers :
  List.length hash = 32%nat ->
  first_accepted hash (Z.of_nat k + 1) = None -> (1 <= k <= i)%nat ->
  shuffle this hash i numbers = Diverges.
Proof.
  intros Hlen Hnone. revert numbers; induction i as [|i IH]; intros numbers Hk;
    [lia|].
  cbn [shuffle]. rewrite getRandomIndex_closed_form by assumption.
  destruct (Nat.eq_dec k (S i)) as [->|Hne]; [now rewrite Hnone|].
  destruct (first_accepted hash (Z.of_nat (S i) + 1)); [|reflexivity].
  cbn [obind]. apply IH. lia.
Qed.

Lemma sample_returns_iff this seed nonce poolSize sampleSize :
  exits (createHmac_sha256 seed (toString nonce)) poolSize = true
  <-> exists l,
        sampleWithoutReplacement this seed nonce poolSize sampleSize
        = Returns l.
Proof.
  split; [apply sample_returns|].
  intros (l & Hl). unfold sampleWithoutReplacement in Hl.
  apply obind_Returns in Hl as (r & Hr & _).
  unfold exits. apply forallb_forall. intros k Hk. apply in_seq in Hk.
  destruct (first_accepted _ (Z.of_nat k + 1)) eqn:Hf; [reflexivity|].
  rewrite (shuffle_stuck this _ k) in Hr;
    [discriminate | apply hmac_length | exact Hf | rewrite pool_length; lia].
Qed.


End Shuffle.

(** ** The sampler and the verifier *)

Lemma same_json_eq a b : RNGService.same_json a b = true <-> a = b.
Proof.
  revert b; induction a as [|x a IH]; intros [|y b]; simpl;
    try (split; [discriminate|congruence]); [tauto|].
  rewrite andb_true_iff, Z.eqb_eq, IH.
  split; [intros [-> ->]; reflexivity | intros E; injection E; auto].
Qed.

Lemma generateDraw_commitment this env clientSeed nonce dr :
  RNGService.generateDraw this env clientSeed nonce = Returns dr ->
  DrawResult.serverSeedHash dr = RNGService.getServerSeedHash this.
Proof.
  unfold RNGService.generateDraw. intros E.
  apply obind_Returns in E as (numbers & _ & E). now injection E as <-.
Qed.

(** A commitment that differs from the hash of the current seed is
    refused, whatever else the draw result holds. *)
Lemma verifyDraw_mismatch this dr :
  RNGService.getServerSeedHash this <> DrawResult.serverSeedHash dr ->
  RNGService.verifyDraw this (Some dr) = Returns false.
Proof.
  intros Hne. unfold RNGService.verifyDraw.
  destruct (String.eqb_spec (RNGService.getServerSeedHash this)
                            (DrawResult.serverSeedHash dr)); [contradiction|].
  reflexivity.
Qed.

(** Past the commitment check the verifier does what the sampler does. *)
Lemma verifyDraw_match this dr :
  RNGService.getServerSeedHash this = DrawResult.serverSeedHash dr ->
  RNGService.verifyDraw this (Some dr)
  = match RNGService.sampleWithoutReplacement this
            (RNGService.serverSeed this ++ DrawResult.clientSeed dr)
            (DrawResult.nonce dr) (DrawResult.poolSize dr)
            (DrawResult.drawSize dr) with
    | Returns regenerated =>
        Returns (RNGService.same_json (DrawResult.numbers dr) regenerated)
    | Throws _ => Returns false
    | Diverges => Diverges
    end.
Proof.
  intros Heq. unfold RNGService.verifyDraw.
  rewrite Heq, String.eqb_refl. cbn [negb].
  destruct (RNGService.sampleWithoutReplacement _ _ _ _ _) as [l|e|];
    cbn [obind try_catch]; try reflexivity.
  destruct (RNGService.same_json _ l); reflexivity.
Qed.

(** The shuffle reads nothing of the service it is called on. *)
Lemma shuffle_receiver this1 this2 hash i numbers :
  RNGService.shuffle this1 hash i numbers
  = RNGService.shuffle this2 hash i numbers.
Proof.
  revert numbers; induction i as [|i IH]; intros numbers; [reflexivity|].
  cbn [RNGService.shuffle].
  change (RNGService.getRandomIndex this1) with (RNGService.getRandomIndex this2).
  destruct (RNGService.getRandomIndex this2 hash (Z.of_nat (S i) + 1));
    cbn [obind]; auto.
Qed.

(** C5. Two calls of [sampleWithoutReplacement] with the same seed, nonce,
    pool size and draw size have the same outcome, whatever the state of the
    service they are made on: the result is a function of the four arguments
    alone, with no hidden state and no clock or entropy read. *)
Theorem C5_sample_deterministic :
  forall (this1 this2 : RNGService.t) (seed : string)
         (nonce poolSize drawSize : Z),
    RNGService.sampleWithoutReplacement this1 seed nonce poolSize drawSize
    = RNGService.sampleWithoutReplacement this2 seed nonce poolSize drawSize.
Proof.
  intros. unfold RNGService.sampleWithoutReplacement.
  now rewrite (shuffle_receiver this1 this2).
Qed.







(** C8, as stated, fails: the draw of scenario 1 verifies before the
    rotation and no longer does after it. *)
Lemma C8_rotation_breaks_past_draws :
  RNGService.generateDraw Scenario.rng Scenario.env (Some "C1"%string) (Some 42)
  = Returns Scenario.draw
  /\ RNGService.verifyDraw Scenario.rng (Some Scenario.draw) = Returns true
  /\ RNGService.verifyDraw
       (fst (RNGService.rotateServerSeed Scenario.rng Scenario.env))
       (Some Scenario.draw)
     = Returns false.
Proof. repeat split; vm_compute; reflexivity. Qed.

(** C8, amended. [rotateServerSeed] overwrites the server seed with fresh
    random bytes and keeps nothing of the seed it replaces.  A draw generated
    under the previous seed no longer verifies afterwards: unless the new
    seed has the same hash as the old one, [verifyDraw] returns false. *)
Theorem C8_rotation_discards_previous_seed :
  forall (this : RNGService.t) (env env' : Env)
         (clientSeed : option string) (nonce : option Z) (dr : DrawResult.t),
    RNGService.generateDraw this env clientSeed nonce = Returns dr ->
    RNGService.getServerSeedHash (fst (RNGService.rotateServerSeed this env'))
    <> RNGService.getServerSeedHash this ->
    fst (RNGService.rotateServerSeed this env')
    = RNGService.mk (hex (env_randomBytes env' 32))
        (RNGService.clientSeedLength this) (RNGService.poolSize this)
        (RNGService.drawSize this)
    /\ RNGService.verifyDraw (fst (RNGService.rotateServerSeed this env'))
         (Some dr)
       = Returns false.
Proof.
  intros this env env' clientSeed nonce dr Hgen Hne.
  split; [reflexivity|].
  apply verifyDraw_mismatch.
  rewrite (generateDraw_commitment _ _ _ _ _ Hgen). exact Hne.
Qed.

Lemma C8_rotation_discards_previous_seed_witness :
  fst (RNGService.rotateServerSeed Scenario.rng Scenario.env)
  = RNGService.mk (hex (env_randomBytes Scenario.env 32))
      (RNGService.clientSeedLength Scenario.rng)
      (RNGService.poolSize Scenario.rng) (RNGService.drawSize Scenario.rng)
  /\ RNGService.verifyDraw
       (fst (RNGService.rotateServerSeed Scenario.rng Scenario.env))
       (Some Scenario.draw)
     = Returns false.
Proof.
  apply (C8_rotation_discards_previous_seed Scenario.rng Scenario.env
           Scenario.env (Some "C1"%string) (Some 42) Scenario.draw).
  - vm_compute. reflexivity.
  - vm_compute. discriminate.
Defined.

(** C4, as stated, fails: in the draw of scenario 1 every one of the 79
    indices is drawn from the window at offset 0, so windows are used again
    and again. *)
Lemma C4_windows_are_reused :
  ~ NoDup (RNGService.sample_reads Scenario.rng "S1C1" 42 80).
Proof.
  assert (E : RNGService.sample_reads Scenario.rng "S1C1" 42 80
              = repeat 0%nat 79) by (vm_compute; reflexivity).
  rewrite E. cbn [repeat]. intros H.
  inversion H as [|x l Hnotin _]. apply Hnotin. left; reflexivity.
Qed.

Lemma find_first {A} (f : A -> bool) (l : list A) (x : A) :
  find f l = Some x ->
  exists earlier later,
    l = earlier ++ x :: later /\ f x = true
    /\ Forall (fun y => f y = false) earlier.
Proof.
  induction l as [|a l IH]; simpl; [discriminate|].
  destruct (f a) eqn:Ha.
  - intros E; injection E as <-. exists [], l. auto.
  - intros E. destruct (IH E) as (earlier & later & -> & Hx & Hall).
    exists (a :: earlier), later. auto.
Qed.

(** C4, amended. For each index i from poolSize-1 down to 1 the swap index
    is drawn by rejection sampling over the 4-byte windows of the single
    32-byte HMAC digest at offsets 0, 4, ..., 24, tried in that order from
    offset 0 anew for every index, rejecting values at or above
    floor(2^32 / (i+1)) * (i+1); the index is the first accepted value modulo
    i+1, and when all seven windows are rejected the loop goes round the same
    windows for ever: no further HMAC block is derived. *)
Theorem C4_rejection_sampling_windows :
  forall (this : RNGService.t) (seed : string) (nonce poolSize sampleSize : Z),
    let hash := createHmac_sha256 seed (toString nonce) in
    RNGService.sampleWithoutReplacement this seed nonce poolSize sampleSize
    = obind (RNGService.shuffle this hash (Z.to_nat poolSize - 1)
               (RNGService.pool poolSize))
        (fun numbers =>
           Returns (RNGService.sort (RNGService.slice0 numbers sampleSize)))
    /\ (forall (i : nat) (numbers : list Z),
          let max := Z.of_nat (S i) + 1 in
          RNGService.shuffle this hash (S i) numbers
          = match RNGService.first_accepted hash max with
            | Some offset =>
                RNGService.shuffle this hash i
                  (RNGService.swap numbers (S i)
                     (Z.to_nat (RNGService.window hash offset mod max)))
            | None => Diverges
            end)
    /\ (forall (max : Z) (offset : nat),
          RNGService.first_accepted hash max = Some offset ->
          exists earlier later,
            [0; 4; 8; 12; 16; 20; 24]%nat = earlier ++ offset :: later
            /\ RNGService.window hash offset < 2 ^ 32 / max * max
            /\ Forall (fun o => 2 ^ 32 / max * max
                                <= RNGService.window hash o) earlier)
    /\ (forall max : Z,
          RNGService.first_accepted hash max = None ->
          Forall (fun o => 2 ^ 32 / max * max <= RNGService.window hash o)
                 [0; 4; 8; 12; 16; 20; 24]%nat)
    /\ (forall (i offset : nat),
          0 <= RNGService.window hash offset mod (Z.of_nat (S i) + 1)
            <= Z.of_nat (S i)).
Proof.
  intros this seed nonce poolSize sampleSize hash.
  split; [|split; [|split; [|split]]].
  5: { intros i offset.
       pose proof (Z.mod_pos_bound (RNGService.window hash offset)
                     (Z.of_nat (S i) + 1)). lia. }
  - unfold RNGService.sampleWithoutReplacement. fold hash.
    now rewrite pool_length.
  - intros i numbers max. cbn [RNGService.shuffle]. fold max.
    rewrite getRandomIndex_closed_form by apply hmac_length.
    destruct (RNGService.first_accepted hash max); reflexivity.
  - intros max offset Hf.
    apply find_first in Hf as (earlier & later & Hw & Hacc & Hrej).
    exists earlier, later. split; [exact Hw|]. split.
    + apply Z.ltb_lt. exact Hacc.
    + eapply Forall_impl; [|exact Hrej]. intros o. apply Z.ltb_ge.
  - intros max Hf. rewrite Forall_forall. intros o Ho.
    apply Z.ltb_ge.
    exact (find_none _ _ Hf o Ho).
Qed.

Lemma C4_rejection_sampling_windows_witness :
  (exists earlier later,
     [0; 4; 8; 12; 16; 20; 24]%nat = earlier ++ 4%nat :: later
     /\ RNGService.window Scenario.wide_digest 4
        < 2 ^ 32 / 3300000000 * 3300000000
     /\ Forall (fun o => 2 ^ 32 / 3300000000 * 3300000000
                         <= RNGService.window Scenario.wide_digest o) earlier)
  /\ Forall (fun o => 2 ^ 32 / 2147483649 * 2147483649
                      <= RNGService.window Scenario.wide_digest o)
            [0; 4; 8; 12; 16; 20; 24]%nat.
Proof.
  destruct (C4_rejection_sampling_windows Scenario.rng "S1C1" 336 80 20)
    as (_ & _ & Haccepted & Hrejected & _).
  split.
  - apply (Haccepted 3300000000 4%nat). vm_compute. reflexivity.
  - apply (Hrejected 2147483649). vm_compute. reflexivity.
Defined.

(** ** The match probability *)







Lemma Qfloor_half z : Qfloor (inject_Z z + (1 # 2)) = z.
Proof.
  unfold Qfloor, Qplus, inject_Z. simpl.
  symmetry. apply (Z.div_unique _ 2 z 1); lia.
Qed.

Section ExactProbability.
Import PaytableService.




End ExactProbability.




(** ** The draw routes *)

(** Whatever its status, a stored draw is sent with its numbers by
    [GET /api/v1/draws/:drawId]. *)
Lemma get_draw_sends_numbers service drawId draw w :
  refusals w = [] ->
  hd_error (filter (fun d => draw_id d =? drawId)%nat (draws (store w)))
  = Some draw ->
  exists shown,
    fst (DrawsRouter.get_draw service drawId w)
    = Returns (DrawsRouter.Json 200 [shown])
    /\ DrawsRouter.status shown = draw_status draw
    /\ DrawsRouter.numbers shown = Some (draw_numbers draw).
Proof.
  intros Hr Hdraw.
  unfold DrawsRouter.get_draw, DrawService.getDrawById, catching, bind.
  rewrite query_quiet by exact Hr. cbn [fst snd reading].
  unfold ret. rewrite Hdraw. cbn [fst].
  eexists. split; [reflexivity|]. split; reflexivity.
Qed.

(** A draw is created pending, with the numbers just drawn. *)
Lemma createDraw_pending service drawTime w draw w' :
  DrawService.createDraw service drawTime w = (Returns draw, w') ->
  draw_status draw = pending
  /\ exists env,
       RNGService.generateDraw (rngService w) env None None
       = Returns (DrawResult.mk (env_uuid env) (env_now env)
                    (draw_numbers draw) (server_seed_hash draw)
                    (client_seed draw) (draw_nonce draw)
                    (RNGService.poolSize (rngService w))
                    (RNGService.drawSize (rngService w))).
Proof.
  unfold DrawService.createDraw, catching, bind, DrawService.getNextDrawNumber.
  destruct (query _ w) as [[n| |] w1] eqn:Hq; try discriminate.
  assert (Hrng : rngService w1 = rngService w).
  { unfold query in Hq. destruct (refusals w) as [|[|] rest];
      [|discriminate|]; injection Hq as _ <-; reflexivity. }
  unfold environment, uuidv4. rewrite Hrng.
  cbn [rngService next_uuid store refusals clock entropy entropy_used].
  set (env := mkEnv (next_uuid w1) (clock w1) (entropy w1 (entropy_used w1))).
  destruct (RNGService.generateDraw (rngService w) env None None)
    as [dr| |] eqn:Hgen; try discriminate.
  match goal with
  | |- context [query ?stmt ?w2] =>
      destruct (query stmt w2) as [[[]| |] w3]
  end; try discriminate.
  unfold ret. intros E. injection E as <- _.
  split; [reflexivity|]. exists env. cbn.
  unfold RNGService.generateDraw in Hgen |- *.
  destruct (RNGService.sampleWithoutReplacement _ _ _ _ _); try discriminate.
  cbn [obind] in Hgen |- *. injection Hgen as <-. reflexivity.
Qed.

(** C3, on the code: a draw is stored with its numbers and status pending,
    and [GET /api/v1/draws/:drawId] and [GET /api/v1/draws] send those
    numbers while the status is still pending; [GET /api/v1/draws/upcoming]
    and the answer to [POST /api/v1/draws] leave them out. *)
Theorem C3_pending_draw_numbers_are_served :
  let numbers :=
    [1; 2; 6; 7; 12; 13; 16; 18; 22; 23; 26; 27; 34; 40; 43; 54; 59; 61;
     67; 76] in
  match DrawService.createDraw Scenario.drawing 1700000300000
          Scenario.opening with
  | (Returns draw, w) =>
      draw_status draw = pending
      /\ (exists shown,
            fst (DrawsRouter.get_draw Scenario.drawing (draw_id draw) w)
            = Returns (DrawsRouter.Json 200 [shown])
            /\ DrawsRouter.status shown = pending
            /\ DrawsRouter.numbers shown = Some numbers)
      /\ (exists shown,
            fst (DrawsRouter.get_draws Scenario.drawing 10 w)
            = Returns (DrawsRouter.Json 200 [shown])
            /\ DrawsRouter.status shown = pending
            /\ DrawsRouter.numbers shown = Some numbers)
      /\ (exists shown,
            fst (DrawsRouter.get_upcoming Scenario.drawing w)
            = Returns (DrawsRouter.Json 200 [shown])
            /\ DrawsRouter.numbers shown = None)
      /\ (exists shown,
            fst (DrawsRouter.post_draw Scenario.drawing 1700000300000
                   Scenario.opening)
            = Returns (DrawsRouter.Json 201 [shown])
            /\ DrawsRouter.drawId shown = draw_id draw
            /\ DrawsRouter.numbers shown = None)
  | _ => False
  end.
Proof.
  vm_compute. repeat split; eexists; repeat split; reflexivity.
Qed.

(** ** Settlement *)

Lemma NoDup_map_injective {A B} (f : A -> B) (l : list A) x y :
  NoDup (map f l) -> In x l -> In y l -> f x = f y -> x = y.
Proof.
  induction l as [|a l IH]; simpl; [tauto|].
  intros Hnd Hx Hy Hxy. inversion Hnd as [|? ? Hnotin Hnd']; subst.
  destruct Hx as [<-|Hx], Hy as [<-|Hy]; auto.
  - exfalso. apply Hnotin. rewrite Hxy. now apply in_map.
  - exfalso. apply Hnotin. rewrite <- Hxy. now apply in_map.
Qed.

(** Rows selected from a table with unique keys have unique keys. *)
Lemma unique_keys_filter {Row Key} (key : Row -> Key) (keep : Row -> bool)
    (rows : list Row) :
  NoDup (map key rows) -> NoDup (map key (filter keep rows)).
Proof.
  induction rows as [|row rows IH]; simpl; [auto|].
  intros Hnd. inversion Hnd as [|? ? Hnotin Hnd']; subst.
  destruct (keep row); simpl; auto.
  constructor; auto. intros Hin. apply Hnotin.
  apply in_map_iff in Hin as (x & Hx & Hin).
  apply filter_In in Hin as [Hin _]. rewrite <- Hx. now apply in_map.
Qed.

Lemma hd_error_filter_In {A} (p : A -> bool) (l : list A) x :
  hd_error (filter p l) = Some x -> In x l /\ p x = true.
Proof.
  intros H. apply filter_In.
  destruct (filter p l) as [|y r]; [discriminate|].
  injection H as ->. now left.
Qed.

Lemma sum_over_app {A} (f : A -> Z) l1 l2 :
  sum_over f (l1 ++ l2) = sum_over f l1 + sum_over f l2.
Proof. induction l1 as [|a l1 IH]; simpl; [reflexivity|]. rewrite IH; lia. Qed.

Lemma sum_over_cons {A} (f : A -> Z) a l :
  sum_over f (a :: l) = f a + sum_over f l.
Proof. reflexivity. Qed.

(** *** Wallets *)

Section Wallets.
Variable this : TicketService.t.

Lemma user_balance_new_wallet st walletId userId u :
  filter (fun wl => wallet_user_id wl =? userId)%nat (user_wallets st) = [] ->
  user_balance
    (with_wallets (fun wls => wls ++ [mkWallet walletId userId 0]) st) u
  = user_balance st u.
Proof.
  intros Hnone. unfold user_balance. cbn [user_wallets with_wallets].
  rewrite filter_app. cbn [filter wallet_user_id].
  destruct (filter (fun wl => (wallet_user_id wl =? u)%nat) (user_wallets st))
    as [|x r] eqn:Hu; [|reflexivity].
  destruct (Nat.eqb_spec userId u); reflexivity.
Qed.

(** The UPDATE of a wallet's balance, seen through [user_balance]. *)
Lemma user_balance_update st wallet userId newBalance u :
  NoDup (map wallet_id (user_wallets st)) ->
  hd_error (filter (fun wl => wallet_user_id wl =? userId)%nat
                   (user_wallets st)) = Some wallet ->
  user_balance
    (with_wallets (map (fun wl =>
       if (wallet_id wl =? wallet_id wallet)%nat
       then mkWallet (wallet_id wl) (wallet_user_id wl) newBalance
       else wl)) st) u
  = if (u =? userId)%nat then newBalance else user_balance st u.
Proof.
  intros Hnd Hfirst. unfold user_balance. cbn [user_wallets with_wallets].
  set (update := fun wl => if (wallet_id wl =? wallet_id wallet)%nat
                           then mkWallet (wallet_id wl) (wallet_user_id wl)
                                  newBalance
                           else wl).
  assert (Hcomm : forall l,
             filter (fun wl => (wallet_user_id wl =? u)%nat) (map update l)
             = map update (filter (fun wl => (wallet_user_id wl =? u)%nat) l)).
  { induction l as [|a l IH]; [reflexivity|]. cbn [map filter].
    replace (wallet_user_id (update a)) with (wallet_user_id a)
      by (unfold update; destruct (_ =? _)%nat; reflexivity).
    destruct (_ =? u)%nat; cbn [map]; congruence. }
  rewrite Hcomm.
  pose proof (hd_error_filter_In _ _ _ Hfirst) as [Hin Huser].
  apply Nat.eqb_eq in Huser.
  destruct (Nat.eqb_spec u userId) as [->|Hne].
  - destruct (filter _ (user_wallets st)) as [|x r]; [discriminate|].
    injection Hfirst as ->. cbn [map]. unfold update.
    now rewrite Nat.eqb_refl.
  - destruct (filter (fun wl => (wallet_user_id wl =? u)%nat)
                     (user_wallets st)) as [|x r] eqn:Hu; [reflexivity|].
    cbn [map]. unfold update.
    destruct (Nat.eqb_spec (wallet_id x) (wallet_id wallet)) as [Hid|];
      [|reflexivity].
    assert (Hx : In x (user_wallets st) /\ (wallet_user_id x =? u)%nat = true).
    { apply (hd_error_filter_In (fun wl => (wallet_user_id wl =? u)%nat)).
      now rewrite Hu. }
    destruct Hx as [Hx Hxu]. apply Nat.eqb_eq in Hxu.
    assert (x = wallet)
      by (eapply NoDup_map_injective; eassumption).
    subst x. congruence.
Qed.

Lemma getUserWallet_quiet userId w :
  refusals w = [] -> wallets_ok w ->
  exists wallet w',
    TicketService.getUserWallet this userId w = (Returns wallet, w')
    /\ refusals w' = [] /\ wallets_ok w' /\ clock w' = clock w
    /\ draws (store w') = draws (store w)
    /\ tickets (store w') = tickets (store w)
    /\ ticket_settlements (store w') = ticket_settlements (store w)
    /\ wallet_transactions (store w') = wallet_transactions (store w)
    /\ hd_error (filter (fun wl => wallet_user_id wl =? userId)%nat
                        (user_wallets (store w'))) = Some wallet
    /\ balance wallet = user_balance (store w) userId
    /\ forall u, user_balance (store w') u = user_balance (store w) u.
Proof.
  destruct w as [st rf nu ck en eu rg]. unfold wallets_ok. simpl.
  intros -> [Hnd Hfresh].
  unfold TicketService.getUserWallet, bind, query, reading. simpl.
  destruct (filter _ (user_wallets st)) as [|first rest] eqn:Hu.
  - unfold uuidv4, bind, query, writing, ret, with_store. simpl.
    do 2 eexists. split; [reflexivity|]. simpl.
    repeat split; try reflexivity.
    + rewrite map_app. simpl.
      apply NoDup_app; [assumption|repeat constructor; intros []|].
      intros x Hx [<-|[]].
      apply in_map_iff in Hx as (wl & Hid & Hwl).
      rewrite Forall_forall in Hfresh. specialize (Hfresh wl Hwl). lia.
    + apply Forall_app. split.
      * eapply Forall_impl; [|exact Hfresh]. simpl. intros; lia.
      * repeat constructor.
    + rewrite filter_app, Hu. simpl. now rewrite Nat.eqb_refl.
    + unfold user_balance. now rewrite Hu.
    + intros u. apply (user_balance_new_wallet st nu userId u Hu).
  - unfold ret. do 2 eexists. split; [reflexivity|].
    unfold with_store. simpl.
    repeat split; try reflexivity; try assumption.
    + now rewrite Hu.
    + unfold user_balance. now rewrite Hu.
Qed.

End Wallets.

(** *** Fault-free statements *)

Lemma calculatePayout_valid spotSize matches wager :
  1 <= spotSize <= 10 ->
  exists p, PaytableService.calculatePayout spotSize matches wager = Returns p.
Proof.
  intros H. unfold PaytableService.calculatePayout.
  assert (Hs : spotSize = 1 \/ spotSize = 2 \/ spotSize = 3 \/ spotSize = 4
               \/ spotSize = 5 \/ spotSize = 6 \/ spotSize = 7
               \/ spotSize = 8 \/ spotSize = 9 \/ spotSize = 10) by lia.
  repeat destruct Hs as [->|Hs]; try subst spotSize; eexists; reflexivity.
Qed.

Section Settlement.
Variable this : DrawService.t.

Lemma creditWinnings_quiet userId amount ticketId w :
  refusals w = [] -> wallets_ok w ->
  exists w',
    DrawService.creditWinnings this userId amount ticketId w = (Returns tt, w')
    /\ refusals w' = [] /\ wallets_ok w' /\ clock w' = clock w
    /\ draws (store w') = draws (store w)
    /\ tickets (store w') = tickets (store w)
    /\ ticket_settlements (store w') = ticket_settlements (store w)
    /\ (exists walletId before,
          wallet_transactions (store w')
          = wallet_transactions (store w)
              ++ [mkTransaction walletId payout_tx amount before
                    (before + amount) ticketId])
    /\ forall u, user_balance (store w') u
                 = user_balance (store w) u
                   + (if (u =? userId)%nat then amount else 0).
Proof.
  intros Hr Hok.
  destruct (getUserWallet_quiet (DrawService.ticketService this) userId w
              Hr Hok)
    as (wallet & w1 & Hget & Hr1 & [Hnd1 Hfresh1] & Hck & Hd & Ht & Hs & Htx
        & Hfirst & Hbal & Hub).
  unfold DrawService.creditWinnings, catching, bind. rewrite Hget.
  rewrite query_quiet by exact Hr1. cbn [fst snd writing].
  rewrite query_quiet by exact Hr1. cbn [fst snd writing].
  eexists. split; [reflexivity|].
  destruct w1 as [st1 rf1 nu1 ck1 en1 eu1 rg1].
  unfold wallets_ok. simpl in *.
  repeat split; try assumption.
  - rewrite map_map.
    erewrite map_ext; [exact Hnd1|].
    intros wl. simpl. destruct (_ =? _)%nat; reflexivity.
  - rewrite Forall_map. eapply Forall_impl; [|exact Hfresh1].
    intros wl. simpl. destruct (_ =? _)%nat; auto.
  - rewrite Htx. eauto.
  - intros u.
    pose proof (user_balance_update st1 wallet userId
                  (balance wallet + amount) u Hnd1 Hfirst) as Hupd.
    unfold user_balance in Hupd |- *. simpl in Hupd |- *.
    rewrite Hupd. specialize (Hub u). unfold user_balance in Hub, Hbal.
    destruct (Nat.eqb_spec u userId) as [->|]; lia.
Qed.

Lemma settleTicket_quiet ticket draw w :
  refusals w = [] -> wallets_ok w -> 1 <= spot_size ticket <= 10 ->
  exists result w',
    DrawService.settleTicket this ticket draw w = (Returns result, w')
    /\ refusals w' = [] /\ wallets_ok w' /\ clock w' = clock w
    /\ draws (store w') = draws (store w)
    /\ tickets (store w')
       = map (mark_settled (clock w) (ticket_id ticket)) (tickets (store w))
    /\ (exists row,
          ticket_settlements (store w') = ticket_settlements (store w) ++ [row]
          /\ settlement_ticket_id row = ticket_id ticket
          /\ settlement_payout row = prize ticket draw)
    /\ (exists walletId before,
          wallet_transactions (store w')
          = wallet_transactions (store w)
              ++ (if prize ticket draw >? 0
                  then [mkTransaction walletId payout_tx (prize ticket draw)
                          before (before + prize ticket draw)
                          (ticket_id ticket)]
                  else []))
    /\ forall u, user_balance (store w') u
                 = user_balance (store w) u
                   + (if (u =? ticket_user_id ticket)%nat
                      then credit draw ticket else 0).
Proof.
  intros Hr Hok Hspot.
  destruct (calculatePayout_valid (spot_size ticket)
              (DrawService.calculateMatches (ticket_spots ticket)
                 (draw_numbers draw))
              (ticket_wager ticket) Hspot) as (p & Hp).
  assert (Hprize : prize ticket draw = PaytableService.payout p)
    by (unfold prize; now rewrite Hp).
  unfold credit. rewrite Hprize.
  unfold DrawService.settleTicket, DrawService.calculatePayout, catching, bind,
    lift. rewrite Hp.
  unfold uuidv4, current_timestamp.
  destruct w as [st rf nu ck en eu rg]. simpl in Hr; subst rf.
  rewrite query_quiet by reflexivity. cbn [fst snd writing].
  rewrite query_quiet by reflexivity. cbn [fst snd writing].
  unfold wallets_ok in Hok. simpl in Hok.
  destruct (PaytableService.payout p >? 0) eqn:Hpos.
  - match goal with
    | |- context [DrawService.creditWinnings this ?u ?a ?t ?w0] =>
        destruct (creditWinnings_quiet u a t w0) as
          (w' & Hcw & Hr' & Hok' & Hck' & Hd' & Ht' & Hs' & Htx' & Hub')
    end;
      [ reflexivity
      | unfold wallets_ok; simpl; split; [tauto|];
        eapply Forall_impl; [|exact (proj2 Hok)]; simpl; intros; lia
      | ].
    rewrite Hcw. unfold ret. do 2 eexists. split; [reflexivity|].
    simpl in *.
    split; [exact Hr'|]. split; [exact Hok'|]. split; [exact Hck'|].
    split; [exact Hd'|]. split; [exact Ht'|].
    split; [eexists; split; [exact Hs'|]; simpl; auto|].
    split; [destruct Htx' as (walletId & before & Htx'); eauto|].
    intros u. rewrite Hub'. unfold user_balance. simpl. reflexivity.
  - unfold ret. do 2 eexists. split; [reflexivity|].
    unfold wallets_ok. simpl.
    split; [reflexivity|]. split.
    { split; [tauto|].
      eapply Forall_impl; [|exact (proj2 Hok)]; simpl; intros; lia. }
    split; [reflexivity|]. split; [reflexivity|]. split; [reflexivity|].
    split; [eexists; split; [reflexivity|]; simpl; auto|].
    split; [exists 0%nat, 0; now rewrite app_nil_r|].
    intros u. unfold user_balance; simpl.
    destruct (_ =? _)%nat; lia.
Qed.

(** What the loop over the wagers adds up to. *)
Lemma settle_each_quiet wagers draw w :
  refusals w = [] -> wallets_ok w ->
  Forall (fun tk => 1 <= spot_size tk <= 10) wagers ->
  exists w',
    DrawService.settle_each this wagers draw w = (Returns tt, w')
    /\ refusals w' = [] /\ wallets_ok w' /\ clock w' = clock w
    /\ draws (store w') = draws (store w)
    /\ tickets (store w')
       = fold_left (fun rows t =>
                      map (mark_settled (clock w) (ticket_id t)) rows)
                   wagers (tickets (store w))
    /\ (forall tid,
          List.length (settlements_of (store w') tid)
          = (List.length (settlements_of (store w) tid)
             + List.length (filter (fun t => ticket_id t =? tid) wagers))%nat)
    /\ (forall tid,
          List.length (payouts_of (store w') tid)
          = (List.length (payouts_of (store w) tid)
             + List.length
                 (filter (fun t => prize t draw >? 0)
                    (filter (fun t => ticket_id t =? tid)%nat wagers)))%nat
          /\ sum_over amount (payouts_of (store w') tid)
             = sum_over amount (payouts_of (store w) tid)
               + sum_over (credit draw)
                   (filter (fun t => ticket_id t =? tid)%nat wagers))
    /\ forall u,
         user_balance (store w') u
         = user_balance (store w) u
           + sum_over (credit draw)
               (filter (fun t => ticket_user_id t =? u)%nat wagers).
Proof.
  revert w. induction wagers as [|t rest IH]; intros w Hr Hok Hspots.
  - exists w. simpl. repeat split; auto; try lia; apply Hok.
  - inversion Hspots as [|? ? Hspot Hrest]; subst.
    destruct (settleTicket_quiet t draw w Hr Hok Hspot)
      as (result & w1 & Hst & Hr1 & Hok1 & Hck1 & Hd1 & Ht1 & Hs1 & Htx1
          & Hub1).
    destruct (IH w1 Hr1 Hok1 Hrest)
      as (w2 & Hse & Hr2 & Hok2 & Hck2 & Hd2 & Ht2 & Hs2 & Htx2 & Hub2).
    exists w2. cbn [DrawService.settle_each].
    unfold bind, catching, ret in *. rewrite Hst, Hse.
    split; [reflexivity|]. split; [exact Hr2|]. split; [exact Hok2|].
    split; [congruence|]. split; [congruence|].
    split; [cbn [fold_left]; rewrite Ht2, Ht1, Hck1; reflexivity|].
    destruct Hs1 as (row & Hs1 & Hrow & _).
    destruct Htx1 as (walletId & before & Htx1).
    split; [|split].
    + intros tid. rewrite Hs2.
      assert (E : settlements_of (store w1) tid
                  = settlements_of (store w) tid
                      ++ (if (ticket_id t =? tid)%nat then [row] else [])).
      { unfold settlements_of. rewrite Hs1, filter_app. cbn [filter].
        now rewrite Hrow. }
      rewrite E, length_app. cbn [filter].
      destruct (ticket_id t =? tid)%nat; simpl; lia.
    + intros tid. destruct (Htx2 tid) as [Hn Hsum]. rewrite Hn, Hsum.
      assert (E : payouts_of (store w1) tid
                  = payouts_of (store w) tid
                      ++ (if (prize t draw >? 0) && (ticket_id t =? tid)%nat
                          then [mkTransaction walletId payout_tx
                                  (prize t draw) before
                                  (before + prize t draw) (ticket_id t)]
                          else [])).
      { unfold payouts_of. rewrite Htx1, filter_app.
        destruct (prize t draw >? 0); [|reflexivity].
        cbn [filter is_payout_for transaction_type reference_id andb].
        reflexivity. }
      rewrite E, length_app, sum_over_app. cbn [filter].
      destruct (ticket_id t =? tid)%nat;
        [rewrite andb_true_r, sum_over_cons | rewrite andb_false_r];
        cbn [filter].
      * change (credit draw t)
          with (if prize t draw >? 0 then prize t draw else 0).
        destruct (prize t draw >? 0); simpl; lia.
      * simpl; lia.
    + intros u. rewrite Hub2, Hub1. cbn [filter].
      destruct (Nat.eqb_spec (ticket_user_id t) u) as [->|Hne].
      * rewrite Nat.eqb_refl. simpl. lia.
      * destruct (Nat.eqb_spec u (ticket_user_id t)); [congruence|]. lia.
Qed.

(** *** Rows of one ticket through the loop *)

Lemma filter_map_commute {A} (p : A -> bool) (f : A -> A) (l : list A) :
  (forall x, p (f x) = p x) -> filter p (map f l) = map f (filter p l).
Proof.
  intros Hp. induction l as [|a l IH]; [reflexivity|]. cbn [map filter].
  rewrite Hp. destruct (p a); cbn [map]; congruence.
Qed.

Lemma mark_settled_id now tid tk :
  ticket_id (mark_settled now tid tk) = ticket_id tk.
Proof. unfold mark_settled. destruct (_ =? _)%nat; reflexivity. Qed.

Lemma marked_rows now wagers tid rows :
  filter (fun tk => ticket_id tk =? tid)%nat
    (fold_left (fun rows t => map (mark_settled now (ticket_id t)) rows)
               wagers rows)
  = fold_left (fun rows t => map (mark_settled now (ticket_id t)) rows)
      wagers (filter (fun tk => ticket_id tk =? tid)%nat rows).
Proof.
  revert rows; induction wagers as [|t rest IH]; intros rows; [reflexivity|].
  cbn [fold_left]. rewrite IH. f_equal.
  apply filter_map_commute. intros x. now rewrite mark_settled_id.
Qed.

Lemma marked_row now wagers x :
  (ticket_status x = settled
   \/ exists t, In t wagers /\ ticket_id t = ticket_id x) ->
  map ticket_status
    (fold_left (fun rows t => map (mark_settled now (ticket_id t)) rows)
               wagers [x])
  = [settled].
Proof.
  revert x; induction wagers as [|t rest IH]; intros x Hx.
  - destruct Hx as [Hx|(t & [] & _)]. simpl. now rewrite Hx.
  - cbn [fold_left map]. apply IH. rewrite mark_settled_id.
    unfold mark_settled.
    destruct (Nat.eqb_spec (ticket_id x) (ticket_id t)) as [Heq|Hne].
    + left; reflexivity.
    + destruct Hx as [Hx|(t' & [<-|Hin] & Hid)]; auto.
      * congruence.
      * right. exists t'. auto.
Qed.

Lemma filter_none {A} (p : A -> bool) (l : list A) :
  (forall y, In y l -> p y = false) -> filter p l = [].
Proof.
  induction l as [|a l IH]; intros H; [reflexivity|]. simpl.
  rewrite (H a) by now left. apply IH. intros y Hy. apply H. now right.
Qed.

Lemma only_row {A} (key : A -> uuid) (l : list A) (x : A) :
  NoDup (map key l) -> In x l ->
  filter (fun y => key y =? key x)%nat l = [x].
Proof.
  induction l as [|a l IH]; simpl; [tauto|].
  intros Hnd Hin. inversion Hnd as [|? ? Hnotin Hnd']; subst.
  assert (Hnone : forall y, In y l -> key y <> key a).
  { intros y Hy Hk. apply Hnotin. rewrite <- Hk. now apply in_map. }
  destruct Hin as [->|Hin].
  - rewrite Nat.eqb_refl. f_equal. apply filter_none.
    intros y Hy. apply Nat.eqb_neq. auto.
  - destruct (Nat.eqb_spec (key a) (key x)) as [Heq|Hne].
    + exfalso. apply (Hnone x Hin). auto.
    + auto.
Qed.

(** *** The two invocations *)

Lemma completeDraw_quiet drawId draw w :
  refusals w = [] -> well_formed w ->
  hd_error (filter (fun d => draw_id d =? drawId)%nat (draws (store w)))
  = Some draw ->
  draw_status draw = pending ->
  let wagers :=
    filter (DrawService.is_active_for drawId) (tickets (store w)) in
  exists w',
    DrawService.completeDraw this drawId w
    = (Returns (DrawService.mkCompleted drawId
                  (Z.of_nat (List.length wagers))), w')
    /\ refusals w' = []
    /\ draws (store w') = map (mark_completed (clock w) drawId) (draws (store w))
    /\ tickets (store w')
       = fold_left (fun rows t =>
                      map (mark_settled (clock w) (ticket_id t)) rows)
                   wagers (tickets (store w))
    /\ (forall tid,
          List.length (settlements_of (store w') tid)
          = (List.length (settlements_of (store w) tid)
             + List.length (filter (fun t => ticket_id t =? tid) wagers))%nat)
    /\ (forall tid,
          List.length (payouts_of (store w') tid)
          = (List.length (payouts_of (store w) tid)
             + List.length
                 (filter (fun t => prize t draw >? 0)
                    (filter (fun t => ticket_id t =? tid)%nat wagers)))%nat
          /\ sum_over amount (payouts_of (store w') tid)
             = sum_over amount (payouts_of (store w) tid)
               + sum_over (credit draw)
                   (filter (fun t => ticket_id t =? tid)%nat wagers))
    /\ forall u,
         user_balance (store w') u
         = user_balance (store w) u
           + sum_over (credit draw)
               (filter (fun t => ticket_user_id t =? u)%nat wagers).
Proof.
  intros Hr (Hids & Hspots & Hok) Hdraw Hpending wagers.
  destruct w as [st rf nu ck en eu rg]. simpl in Hr. subst rf.
  unfold DrawService.completeDraw, catching, bind.
  rewrite query_quiet by reflexivity. cbn [fst snd reading store].
  simpl in Hdraw.
  destruct (filter _ (draws st)) as [|first others]; [discriminate|].
  injection Hdraw as ->. rewrite Hpending. cbn [DrawStatus_eqb negb].
  unfold current_timestamp. cbn [with_store store clock].
  rewrite query_quiet by reflexivity. cbn [fst snd writing].
  rewrite query_quiet by reflexivity. cbn [fst snd reading].
  match goal with
  | |- context [DrawService.settle_each this ?ts draw ?w0] =>
      destruct (settle_each_quiet ts draw w0)
        as (w' & Hse & Hr' & Hok' & Hck' & Hd' & Ht' & Hs' & Htx' & Hub')
  end.
  - reflexivity.
  - exact Hok.
  - simpl. simpl in Hspots. rewrite Forall_forall in *.
    intros tk Htk. apply filter_In in Htk as [Htk _]. auto.
  - simpl in *. rewrite Hse. unfold ret.
    exists w'. repeat split; auto; apply Htx'.
Qed.

Lemma completeDraw_rejected drawId draw answers w :
  hd_error (filter (fun d => draw_id d =? drawId)%nat (draws (store w)))
  = Some draw ->
  draw_status draw <> pending ->
  exists e,
    DrawService.completeDraw this drawId (with_refusals answers w)
    = (Throws e, with_refusals (tl answers) w)
    /\ (hd false answers = false ->
        e = Error "Draw is not in pending status").
Proof.
  intros Hdraw Hstatus. destruct w as [st rf nu ck en eu rg].
  simpl in Hdraw.
  unfold DrawService.completeDraw, catching, bind, query, reading,
    with_refusals, with_store.
  cbn [refusals store next_uuid clock entropy entropy_used rngService].
  destruct (filter _ (draws st)) as [|first others]; [discriminate|].
  injection Hdraw as ->.
  assert (Hnot : negb (DrawStatus_eqb (draw_status draw) pending) = true)
    by (destruct (draw_status draw); [contradiction| |]; reflexivity).
  destruct answers as [|[|] rest]; cbn [tl hd]; rewrite ?Hnot; unfold throw;
    eexists; (split; [reflexivity|]); auto; discriminate.
Qed.

End Settlement.

(** C1. On a well-formed store, with the store answering every statement,
    [completeDraw] on a pending draw returns, and afterwards every wager that
    was active on the draw is settled (one row, status settled), has exactly
    one more settlement record, and has been credited exactly once: one more
    payout entry in the ledger when its payout is positive (none otherwise),
    for the amount of the payout, and each user's balance has grown by the
    payouts of that user's wagers.  A second [completeDraw] on the same draw,
    whatever the store answers, throws before any ticket is touched (the
    store is left as it was) and, unless the store refuses the first SELECT,
    the error is "Draw is not in pending status". *)
Theorem C1_second_completeDraw_rejected_wagers_settled_once :
  forall (this : DrawService.t) (w0 : World) (drawId : uuid) (draw : DrawRow),
    refusals w0 = [] ->
    well_formed w0 ->
    hd_error (filter (fun d => draw_id d =? drawId)%nat (draws (store w0)))
    = Some draw ->
    draw_status draw = pending ->
    let wagers :=
      filter (DrawService.is_active_for drawId) (tickets (store w0)) in
    exists w1,
      DrawService.completeDraw this drawId w0
      = (Returns (DrawService.mkCompleted drawId
                    (Z.of_nat (List.length wagers))), w1)
      /\ (forall answers, exists e,
            DrawService.completeDraw this drawId (with_refusals answers w1)
            = (Throws e, with_refusals (tl answers) w1)
            /\ (hd false answers = false ->
                e = Error "Draw is not in pending status"))
      /\ (forall ticket, In ticket wagers ->
            let tid := ticket_id ticket in
            map ticket_status (ticket_rows (store w1) tid) = [settled]
            /\ List.length (settlements_of (store w1) tid)
               = S (List.length (settlements_of (store w0) tid))
            /\ List.length (payouts_of (store w1) tid)
               = (List.length (payouts_of (store w0) tid)
                  + (if prize ticket draw >? 0 then 1 else 0))%nat
            /\ sum_over amount (payouts_of (store w1) tid)
               = sum_over amount (payouts_of (store w0) tid)
                 + credit draw ticket)
      /\ (forall user,
            user_balance (store w1) user
            = user_balance (store w0) user
              + sum_over (credit draw)
                  (filter (fun t => ticket_user_id t =? user)%nat wagers)).
Proof.
  intros this w0 drawId draw Hr Hwf Hdraw Hpending wagers.
  destruct (completeDraw_quiet this drawId draw w0 Hr Hwf Hdraw Hpending)
    as (w1 & Hrun & Hr1 & Hd1 & Ht1 & Hs1 & Htx1 & Hub1).
  fold wagers in Hrun, Ht1, Hs1, Htx1, Hub1.
  exists w1. split; [exact Hrun|]. split; [|split; [|exact Hub1]].
  - intros answers.
    apply (completeDraw_rejected this drawId
             (mark_completed (clock w0) drawId draw)).
    + rewrite Hd1, filter_map_commute.
      * destruct (filter _ (draws (store w0))); [discriminate|].
        injection Hdraw as ->. reflexivity.
      * intros d. unfold mark_completed.
        destruct (draw_id d =? drawId)%nat eqn:E; simpl; now rewrite ?E.
    + apply hd_error_filter_In in Hdraw as [_ Hid].
      unfold mark_completed. rewrite Hid. simpl. discriminate.
  - intros ticket Hin tid.
    destruct Hwf as (Hids & _ & _).
    assert (Hone : filter (fun t => ticket_id t =? tid)%nat wagers = [ticket])
      by (apply (only_row ticket_id);
          [apply unique_keys_filter; exact Hids | exact Hin]).
    split; [|split; [|split]].
    + unfold ticket_rows. rewrite Ht1, marked_rows.
      apply filter_In in Hin as Hin0. destruct Hin0 as [Hin0 _].
      fold tid. unfold tid at 1.
      rewrite (only_row ticket_id _ _ Hids Hin0).
      apply marked_row. right. exists ticket. auto.
    + rewrite Hs1, Hone. simpl. lia.
    + rewrite (proj1 (Htx1 tid)), Hone. cbn [filter].
      destruct (prize ticket draw >? 0); reflexivity.
    + rewrite (proj2 (Htx1 tid)), Hone. simpl. lia.
Qed.

Lemma C1_second_completeDraw_rejected_wagers_settled_once_witness :
  exists w1,
    DrawService.completeDraw Scenario.drawing 60 Scenario.three_wagers
    = (Returns (DrawService.mkCompleted 60
                  (Z.of_nat (List.length Scenario.wagers))), w1)
    /\ (forall answers, exists e,
          DrawService.completeDraw Scenario.drawing 60
            (with_refusals answers w1)
          = (Throws e, with_refusals (tl answers) w1)
          /\ (hd false answers = false ->
              e = Error "Draw is not in pending status"))
    /\ (forall ticket, In ticket Scenario.wagers ->
          map ticket_status (ticket_rows (store w1) (ticket_id ticket))
          = [settled]
          /\ List.length (settlements_of (store w1) (ticket_id ticket))
             = S (List.length
                    (settlements_of (store Scenario.three_wagers)
                       (ticket_id ticket)))
          /\ List.length (payouts_of (store w1) (ticket_id ticket))
             = (List.length
                  (payouts_of (store Scenario.three_wagers) (ticket_id ticket))
                + (if prize ticket Scenario.round >? 0 then 1 else 0))%nat
          /\ sum_over amount (payouts_of (store w1) (ticket_id ticket))
             = sum_over amount
                 (payouts_of (store Scenario.three_wagers) (ticket_id ticket))
               + credit Scenario.round ticket)
    /\ (forall user,
          user_balance (store w1) user
          = user_balance (store Scenario.three_wagers) user
            + sum_over (credit Scenario.round)
                (filter (fun t => ticket_user_id t =? user)%nat
                        Scenario.wagers)).
Proof.
  apply (C1_second_completeDraw_rejected_wagers_settled_once
           Scenario.drawing Scenario.three_wagers 60 Scenario.round).
  - reflexivity.
  - unfold well_formed, wallets_ok. simpl.
    repeat split; repeat constructor; simpl; intuition (try discriminate; lia).
  - reflexivity.
  - reflexivity.
Defined.

(** Scenario 3, run: three active wagers, two invocations; the ledger holds
    one payout of $42 for the first wager, none for the second and one of $6
    for the third, and the balances are $800 + $42 and $6. *)
Example scenario3_ledger :
  match DrawService.completeDraw Scenario.drawing 60 Scenario.three_wagers with
  | (Returns _, w1) =>
      match DrawService.completeDraw Scenario.drawing 60 w1 with
      | (Throws e, w2) =>
          e = Error "Draw is not in pending status"
          /\ map ticket_status (tickets (store w2)) = [settled; settled; settled]
          /\ map (fun tx => (reference_id tx, amount tx))
                 (wallet_transactions (store w2))
             = [(70%nat, 4200); (74%nat, 600)]
          /\ map (fun wl => (wallet_user_id wl, balance wl))
                 (user_wallets (store w2))
             = [(1%nat, 5000); (2%nat, 600)]
      | _ => False
      end
  | _ => False
  end.
Proof. vm_compute. repeat split; reflexivity. Qed.

(** Once the UPDATE of the draw has gone through, the draw is completed
    whatever becomes of the tickets: here the store refuses the SELECT of the
    tickets, and none of them is touched. *)
Lemma completeDraw_strands_wagers this drawId draw rest w :
  refusals w = false :: false :: true :: rest ->
  hd_error (filter (fun d => draw_id d =? drawId)%nat (draws (store w)))
  = Some draw ->
  draw_status draw = pending ->
  exists w',
    DrawService.completeDraw this drawId w = (Throws StoreError, w')
    /\ draws (store w') = map (mark_completed (clock w) drawId) (draws (store w))
    /\ tickets (store w') = tickets (store w)
    /\ ticket_settlements (store w') = ticket_settlements (store w)
    /\ user_wallets (store w') = user_wallets (store w)
    /\ wallet_transactions (store w') = wallet_transactions (store w).
Proof.
  intros Hr Hdraw Hpending. destruct w as [st rf nu ck en eu rg].
  simpl in Hr, Hdraw. subst rf.
  unfold DrawService.completeDraw, catching, bind, query, reading, writing,
    current_timestamp, throw.
  cbn [refusals store with_store with_refusals next_uuid clock entropy
       entropy_used rngService fst snd].
  destruct (filter _ (draws st)) as [|first others]; [discriminate|].
  injection Hdraw as ->. rewrite Hpending. cbn.
  eexists. split; [reflexivity|]. cbn. repeat split; reflexivity.
Qed.

(** C2, on the code: [completeDraw] marks the draw completed before it
    reads the tickets.  When the store then refuses the SELECT of the active
    tickets, the draw is completed with its ticket never attempted, and a
    second [completeDraw] is turned away; when the store refuses the INSERT
    of a settlement, the failure is swallowed, the draw is completed, the
    ticket stays active and the call reports one ticket settled. *)
Theorem C2_draw_completed_with_tickets_outstanding :
  match DrawService.completeDraw Scenario.drawing 60
          (Scenario.betting [false; false; true]) with
  | (Throws StoreError, w) =>
      map draw_status (draws (store w)) = [completed]
      /\ map ticket_status (tickets (store w)) = [active]
      /\ ticket_settlements (store w) = []
      /\ DrawService.completeDraw Scenario.drawing 60 w
         = (Throws (Error "Draw is not in pending status"), w)
  | _ => False
  end
  /\ match DrawService.completeDraw Scenario.drawing 60
             (Scenario.betting [false; false; false; true]) with
     | (Returns result, w) =>
         DrawService.ticketsSettled result = 1
         /\ map draw_status (draws (store w)) = [completed]
         /\ map ticket_status (tickets (store w)) = [active]
         /\ ticket_settlements (store w) = []
     | _ => False
     end.
Proof. vm_compute. repeat split; reflexivity. Qed.

(** C10, on the code: neither unit is all-or-nothing.  When the store
    refuses the first statement of [reserveFunds], [purchaseTicket] throws
    and leaves the active ticket behind with no debit; when the store refuses
    the UPDATE of the wallet in [creditWinnings], [settleTicket] throws and
    leaves the ticket settled, its settlement recorded, and the payout
    uncredited. *)
Theorem C10_partial_purchase_and_settlement :
  match TicketService.purchaseTicket Scenario.ticketing 1 Scenario.order
          (Scenario.before_purchase [false; false; true]) with
  | (Throws StoreError, w) =>
      map ticket_status (tickets (store w)) = [active]
      /\ map balance (user_wallets (store w)) = [1000]
      /\ wallet_transactions (store w) = []
  | _ => False
  end
  /\ match DrawService.settleTicket Scenario.drawing Scenario.winner
             Scenario.round
             (Scenario.betting [false; false; false; true]) with
     | (Throws StoreError, w) =>
         map ticket_status (tickets (store w)) = [settled]
         /\ map settlement_payout (ticket_settlements (store w)) = [4200]
         /\ map balance (user_wallets (store w)) = [900]
         /\ wallet_transactions (store w) = []
     | _ => False
     end.
Proof. vm_compute. repeat split; reflexivity. Qed.

Example sha256_constants :
  List.length Sha256.K = 64%nat
  /\ hd 0 Sha256.K = 0x428a2f98 /\ last Sha256.K 0 = 0xc67178f2
  /\ Sha256.ha Sha256.initial = 0x6a09e667
  /\ Sha256.hh Sha256.initial = 0x5be0cd19.
Proof. vm_compute. repeat split; reflexivity. Qed.

Example sha256_abc :
  createHash_sha256_hex "abc"
  = "ba7816bf8f01cfea414140de5dae2223b00361a396177a9cb410ff61f20015ad"%string.
Proof. vm_compute. reflexivity. Qed.

Example sha256_S1 :
  createHash_sha256_hex "S1"
  = "3696ad59777e09d5f2daacb544022d435e7cd053d87c5781241fabd8fdf2a90d"%string.
Proof. vm_compute. reflexivity. Qed.

Example hmac_rfc4231_case2 :
  hex (createHmac_sha256 "Jefe" "what do ya want for nothing?")
  = "5bdcc146bf60754e6a042426089575c75a003f089d2739839dec58b964ec3843"%string.
Proof. vm_compute. reflexivity. Qed.

(** RFC 4231, test case 6: a key longer than the block is hashed first. *)
Example hmac_rfc4231_case6 :
  hex (Sha256.hmac (repeat xaa 131)
         (list_byte_of_string
            "Test Using Larger Than Block-Size Key - Hash Key First"))
  = "60e431591ee0b67f0d8a26aacbf5b77f8e0bc6213728c5140546040f0ee37f54"%string.
Proof. vm_compute. reflexivity. Qed.

Example hmac_S1C1_42 :
  hex (createHmac_sha256 "S1C1" (toString 42))
  = "1bb6165eabf7dcd1eb7284399ef384da1b19699a641bd50230c81bae3ce03f5f"%string.
Proof. vm_compute. reflexivity. Qed.

Example sample_S1C1_42 :
  RNGService.sampleWithoutReplacement (RNGService.mk "S1" 32 80 20) "S1C1" 42 80 20
  = Returns [1; 2; 6; 10; 12; 15; 16; 17; 22; 24; 25; 27; 28; 32; 34; 38; 48; 67; 73; 76].
Proof. vm_compute. reflexivity. Qed.

Example payout_5_3 :
  PaytableService.calculatePayout 5 3 100
  = Returns (PaytableService.mkPayout 3 200 100 200 5).
Proof. vm_compute. reflexivity. Qed.

Example prob_exact_small :
  Qred (PaytableService.calculateMatchProbability (T:=Q) 3 2 10 4)
  = Qred (hypergeometric 3 2 10 4).
Proof. vm_compute. reflexivity. Qed.

(* ================================================================== *)
(** * Part III: further properties of the code *)
(* ================================================================== *)

(** ** The draw engine (services/rng.js) *)

(** What [generateDraw] returns passes [verifyDraw]. *)
Lemma generateDraw_accepted this env clientSeed nonce dr :
  RNGService.generateDraw this env clientSeed nonce = Returns dr ->
  RNGService.verifyDraw this (Some dr) = Returns true.
Proof.
  intros E. unfold RNGService.generateDraw in E.
  apply obind_Returns in E as (numbers & Hs & E). injection E as <-.
  rewrite verifyDraw_match by reflexivity.
  cbn [DrawResult.clientSeed DrawResult.nonce DrawResult.poolSize
       DrawResult.drawSize DrawResult.numbers].
  rewrite Hs. f_equal. now apply same_json_eq.
Qed.

(** X1. What [generateDraw] returns is accepted by [verifyDraw] on the same
    service, whatever the client seed and the nonce (the repository's test
    "RNG should be verifiable"). *)
Theorem generateDraw_then_verifyDraw :
  forall (this : RNGService.t) (env : Env) (clientSeed : option string)
         (nonce : option Z) (dr : DrawResult.t),
    RNGService.generateDraw this env clientSeed nonce = Returns dr ->
    RNGService.verifyDraw this (Some dr) = Returns true.
Proof. exact generateDraw_accepted. Qed.

Lemma generateDraw_then_verifyDraw_witness :
  RNGService.generateDraw Scenario.rng Scenario.env (Some "C1"%string) (Some 42)
  = Returns Scenario.draw
  /\ RNGService.verifyDraw Scenario.rng (Some Scenario.draw) = Returns true.
Proof.
  split; [vm_compute; reflexivity|].
  apply (generateDraw_then_verifyDraw Scenario.rng Scenario.env
           (Some "C1"%string) (Some 42)).
  vm_compute. reflexivity.
Defined.

(** Two strictly ascending lists with the same members are the same list. *)
Lemma ascending_same_members (drawn others : list Z) :
  StronglySorted Z.lt drawn -> StronglySorted Z.lt others ->
  (forall n, In n drawn <-> In n others) -> drawn = others.
Proof.
  intros Hd. revert others.
  induction Hd as [|x drawn Hd IH Hx]; intros others Ho Hsame.
  - destruct others as [|y others]; [reflexivity|].
    destruct (proj2 (Hsame y) (or_introl eq_refl)).
  - destruct Ho as [|y others Ho Hy].
    + destruct (proj1 (Hsame x) (or_introl eq_refl)).
    + rewrite Forall_forall in Hx, Hy.
      assert (x = y) as <-.
      { destruct (proj1 (Hsame x) (or_introl eq_refl)) as [E|Hin]; [auto|].
        destruct (proj2 (Hsame y) (or_introl eq_refl)) as [E|Hin']; [auto|].
        specialize (Hx _ Hin'). specialize (Hy _ Hin). lia. }
      f_equal. apply IH; [assumption|].
      intros n. split; intros Hn.
      * destruct (proj1 (Hsame n) (or_intror Hn)) as [<-|Hin]; [|assumption].
        specialize (Hx _ Hn). lia.
      * destruct (proj2 (Hsame n) (or_intror Hn)) as [<-|Hin]; [|assumption].
        specialize (Hy _ Hn). lia.
Qed.

Lemma pool_ascending poolSize : StronglySorted Z.lt (RNGService.pool poolSize).
Proof.
  unfold RNGService.pool. generalize (Z.to_nat poolSize) as count.
  generalize 0%nat as start. intros start count. revert start.
  induction count as [|count IH]; intros start; simpl; constructor.
  - apply IH.
  - rewrite Forall_forall. intros n Hn.
    apply in_map_iff in Hn as (i & <- & Hi). apply in_seq in Hi. lia.
Qed.

(** X2. A sample size at or above the pool size is not refused: the sampler
    returns the whole pool, 1 to poolSize, whatever the seed and the nonce. *)
Theorem sample_of_whole_pool :
  forall (this : RNGService.t) (seed : string)
         (nonce poolSize sampleSize : Z) (l : list Z),
    poolSize <= sampleSize ->
    RNGService.sampleWithoutReplacement this seed nonce poolSize sampleSize
    = Returns l ->
    l = RNGService.pool poolSize.
Proof.
  intros this seed nonce poolSize sampleSize l Hsize E.
  unfold RNGService.sampleWithoutReplacement in E.
  apply obind_Returns in E as (shuffled & Hsh & E). injection E as <-.
  apply shuffle_perm in Hsh; [|lia].
  assert (Hall : RNGService.slice0 shuffled sampleSize = shuffled).
  { unfold RNGService.slice0.
    pose proof (Permutation_length Hsh) as Hlen. rewrite pool_length in Hlen.
    destruct (Z.ltb_spec sampleSize 0).
    - destruct shuffled; [apply firstn_nil|simpl in Hlen; lia].
    - apply firstn_all2. lia. }
  rewrite Hall.
  pose proof (sort_perm shuffled) as Hp.
  apply ascending_same_members.
  - apply sorted_nodup_strict; [apply sort_sorted|].
    eapply Permutation_NoDup; [symmetry; exact Hp|].
    eapply Permutation_NoDup; [symmetry; exact Hsh|apply pool_NoDup].
  - apply pool_ascending.
  - intros n. split; intros Hn.
    + eapply Permutation_in; [exact Hsh|].
      eapply Permutation_in; [exact Hp|exact Hn].
    + eapply Permutation_in; [symmetry; exact Hp|].
      eapply Permutation_in; [symmetry; exact Hsh|exact Hn].
Qed.

Lemma sample_of_whole_pool_witness :
  5 <= 9
  /\ RNGService.sampleWithoutReplacement Scenario.rng "S1C1" 42 5 9
     = Returns [1; 2; 3; 4; 5]
  /\ [1; 2; 3; 4; 5] = RNGService.pool 5.
Proof.
  split; [lia|]. split; [vm_compute; reflexivity|].
  apply (sample_of_whole_pool Scenario.rng "S1C1" 42 5 9);
    [lia | vm_compute; reflexivity].
Defined.

Lemma rejectionBound_above max :
  0 < max -> 0x100000000 - max < RNGService.rejectionBound max.
Proof.
  intros Hmax. unfold RNGService.rejectionBound.
  pose proof (Z.mod_pos_bound 0x100000000 max Hmax).
  pose proof (Z.div_mod 0x100000000 max ltac:(lia)). nia.
Qed.

Lemma uint_be_nonneg bs : 0 <= uint_be bs.
Proof.
  unfold uint_be.
  assert (H : forall acc, 0 <= acc ->
            0 <= fold_left (fun acc b => acc * 256 + Z_of_byte b) bs acc).
  { induction bs as [|b bs IH]; simpl; intros acc Hacc; [assumption|].
    apply IH. unfold Z_of_byte. lia. }
  apply H. lia.
Qed.

(** A first window below the bound is the one the index is taken from. *)
Lemma getRandomIndex_first_window (this : RNGService.t) hash max :
  List.length hash = 32%nat ->
  RNGService.window hash 0 < RNGService.rejectionBound max ->
  RNGService.getRandomIndex this hash max
  = Returns (RNGService.window hash 0 mod max).
Proof.
  intros Hlen Hw. rewrite getRandomIndex_closed_form by assumption.
  unfold RNGService.first_accepted, RNGService.windows. cbn [find].
  apply Z.ltb_lt in Hw. now rewrite Hw.
Qed.

Lemma shuffle_first_window this hash1 hash2 i numbers :
  List.length hash1 = 32%nat -> List.length hash2 = 32%nat ->
  RNGService.window hash1 0 = RNGService.window hash2 0 ->
  RNGService.window hash1 0 <= 0x100000000 - (Z.of_nat i + 1) ->
  exists r,
    RNGService.shuffle this hash1 i numbers = Returns r
    /\ RNGService.shuffle this hash2 i numbers = Returns r.
Proof.
  intros Hlen1 Hlen2 Hsame. revert numbers.
  induction i as [|i IH]; intros numbers Hw.
  - simpl. eauto.
  - cbn [RNGService.shuffle].
    pose proof (rejectionBound_above (Z.of_nat (S i) + 1) ltac:(lia)) as Hb.
    rewrite (getRandomIndex_first_window this hash1) by (assumption || lia).
    rewrite (getRandomIndex_first_window this hash2)
      by (assumption || (rewrite <- Hsame; lia)).
    cbn [obind]. rewrite <- Hsame. apply IH. lia.
Qed.

(** X3. The numbers drawn are read off the first four bytes of the HMAC
    digest alone whenever those bytes, as a 32-bit integer, are at most
    2^32 - poolSize: every index of the shuffle is that integer reduced
    modulo its own bound, and two digests that agree on their first four
    bytes give the same draw, whatever the other 28 bytes are. *)
Theorem sample_read_off_first_window :
  forall (this : RNGService.t) (seed1 seed2 : string)
         (nonce1 nonce2 poolSize sampleSize : Z),
    RNGService.window (createHmac_sha256 seed1 (toString nonce1)) 0
    = RNGService.window (createHmac_sha256 seed2 (toString nonce2)) 0 ->
    RNGService.window (createHmac_sha256 seed1 (toString nonce1)) 0
    <= 0x100000000 - poolSize ->
    exists l,
      RNGService.sampleWithoutReplacement this seed1 nonce1 poolSize sampleSize
      = Returns l
      /\ RNGService.sampleWithoutReplacement this seed2 nonce2 poolSize
           sampleSize
         = Returns l.
Proof.
  intros this seed1 seed2 nonce1 nonce2 poolSize sampleSize Hsame Hw.
  unfold RNGService.sampleWithoutReplacement. rewrite pool_length.
  destruct (Z.to_nat poolSize - 1)%nat as [|i] eqn:Hi.
  - simpl. eauto.
  - destruct (shuffle_first_window this _ _ (S i) (RNGService.pool poolSize)
                (hmac_length seed1 (toString nonce1))
                (hmac_length seed2 (toString nonce2)) Hsame)
      as (r & -> & ->); [lia|].
    simpl. eauto.
Qed.

Lemma sample_read_off_first_window_witness :
  exists l,
    RNGService.sampleWithoutReplacement Scenario.rng "S1C1" 20038 80 20
    = Returns l
    /\ RNGService.sampleWithoutReplacement Scenario.rng "S1C1" 141248 80 20
       = Returns l.
Proof.
  apply (sample_read_off_first_window Scenario.rng "S1C1" "S1C1" 20038 141248
           80 20).
  - vm_compute. reflexivity.
  - vm_compute. discriminate.
Defined.

(** X4. The rejection bound removes the modulo bias: when the loop stops at
    a window, the index j is returned exactly when the window holds
    q * max + j for some q below floor(2^32 / max), so that every index in
    [0, max) is the image of the same number, floor(2^32 / max), of accepted
    32-bit values. *)
Theorem getRandomIndex_unbiased :
  forall (this : RNGService.t) (hash : list byte) (max j : Z) (offset : nat),
    List.length hash = 32%nat -> 0 < max ->
    RNGService.first_accepted hash max = Some offset ->
    (RNGService.getRandomIndex this hash max = Returns j
     <-> 0 <= j < max
         /\ exists q, 0 <= q < 0x100000000 / max
                      /\ RNGService.window hash offset = q * max + j).
Proof.
  intros this hash max j offset Hlen Hmax Hf.
  rewrite getRandomIndex_closed_form by assumption. rewrite Hf.
  apply find_some in Hf as [_ Hacc]. apply Z.ltb_lt in Hacc.
  unfold RNGService.rejectionBound in Hacc.
  pose proof (uint_be_nonneg (firstn 4 (skipn offset hash))) as Hpos.
  fold (RNGService.window hash offset) in Hpos.
  set (v := RNGService.window hash offset) in *.
  pose proof (Z.mod_pos_bound v max Hmax) as Hrange.
  pose proof (Z.div_mod v max ltac:(lia)) as Hv.
  split.
  - intros E. injection E as <-. split; [assumption|].
    exists (v / max). split; [|lia].
    split; [apply Z.div_pos; lia|].
    apply Z.div_lt_upper_bound; lia.
  - intros (Hj & q & Hq & E). f_equal.
    rewrite E, Z.add_comm, Z_mod_plus_full. now apply Z.mod_small.
Qed.

Lemma getRandomIndex_unbiased_witness :
  RNGService.getRandomIndex Scenario.rng
    (createHmac_sha256 "S1C1" (toString 42)) 80 = Returns 30
  <-> 0 <= 30 < 80
      /\ exists q, 0 <= q < 0x100000000 / 80
                   /\ RNGService.window
                        (createHmac_sha256 "S1C1" (toString 42)) 0
                      = q * 80 + 30.
Proof.
  apply (getRandomIndex_unbiased Scenario.rng
           (createHmac_sha256 "S1C1" (toString 42)) 80 30 0).
  - vm_compute. reflexivity.
  - lia.
  - vm_compute. reflexivity.
Defined.

(** ** The paytable (models/paytable.js) *)

(** A property read on an object is one of its entries. *)
Lemma property_In {V} (object : list (Z * V)) key v :
  PaytableService.property object key = Some v -> In (key, v) object.
Proof.
  induction object as [|[k x] rest IH]; simpl; [discriminate|].
  destruct (Z.eqb_spec k key) as [->|Hne].
  - intros E; injection E as ->. now left.
  - intros E. right. auto.
Qed.

Lemma paytables_whole_dollars :
  Forall (fun entry =>
            PaytableService.wager (snd entry) = 100
            /\ Forall (fun line => 0 <= snd line /\ snd line mod 100 = 0)
                      (PaytableService.payouts (snd entry)))
         PaytableService.paytables.
Proof. repeat constructor; discriminate. Qed.

Lemma getPaytable_iff spotSize :
  (exists paytable, PaytableService.getPaytable spotSize = Returns paytable)
  <-> 1 <= spotSize <= 10.
Proof.
  unfold PaytableService.getPaytable. split.
  - intros (paytable & E).
    destruct (PaytableService.property _ spotSize) as [pt|] eqn:Hp;
      [|discriminate].
    apply property_In in Hp. simpl in Hp.
    repeat destruct Hp as [Hp|Hp]; try (injection Hp as <- _; lia).
    destruct Hp.
  - intros H.
    assert (Hs : spotSize = 1 \/ spotSize = 2 \/ spotSize = 3 \/ spotSize = 4
                 \/ spotSize = 5 \/ spotSize = 6 \/ spotSize = 7
                 \/ spotSize = 8 \/ spotSize = 9 \/ spotSize = 10) by lia.
    repeat destruct Hs as [->|Hs]; try subst spotSize; eexists; reflexivity.
Qed.

Lemma whole_dollars_payout multiple wager :
  Qfloor ((PaytableService.dollars (100 * multiple)
             / PaytableService.dollars 100)
          * PaytableService.dollars wager * 100 + (1 # 2))
  = multiple * wager.
Proof.
  rewrite <- (Qfloor_half (multiple * wager)).
  apply Qfloor_comp. apply Qplus_comp; [|reflexivity].
  unfold PaytableService.dollars, Qeq, Qdiv, Qmult, Qinv.
  cbn -[Z.mul]. ring.
Qed.

(** In each built-in table the base payout grows with the match count. *)
Lemma basePayout_monotone spotSize paytable fewer more :
  PaytableService.getPaytable spotSize = Returns paytable ->
  fewer <= more <= spotSize ->
  match PaytableService.property (PaytableService.payouts paytable) fewer with
  | Some b => b
  | None => 0
  end
  <= match PaytableService.property (PaytableService.payouts paytable) more
     with
     | Some b => b
     | None => 0
     end.
Proof.
  intros Hpt Hm.
  assert (Hs : 1 <= spotSize <= 10) by (apply getPaytable_iff; eauto).
  assert (Hcases : spotSize = 1 \/ spotSize = 2 \/ spotSize = 3
                   \/ spotSize = 4 \/ spotSize = 5 \/ spotSize = 6
                   \/ spotSize = 7 \/ spotSize = 8 \/ spotSize = 9
                   \/ spotSize = 10) by lia.
  repeat destruct Hcases as [->|Hcases]; try subst spotSize;
    injection Hpt as <-; cbn [PaytableService.payouts PaytableService.property];
    repeat match goal with
           | |- context [?k =? fewer] => destruct (Z.eqb_spec k fewer)
           | |- context [?k =? more] => destruct (Z.eqb_spec k more)
           end; lia.
Qed.

(** What [calculatePayout] returns, field by field. *)
Lemma calculatePayout_parts spotSize matches wager p :
  PaytableService.calculatePayout spotSize matches wager = Returns p ->
  exists paytable,
    PaytableService.getPaytable spotSize = Returns paytable
    /\ PaytableService.basePayout p
       = match PaytableService.property (PaytableService.payouts paytable)
                 matches with
         | Some b => b
         | None => 0
         end
    /\ 0 <= PaytableService.basePayout p
    /\ PaytableService.basePayout p mod 100 = 0
    /\ PaytableService.payout p = PaytableService.basePayout p / 100 * wager.
Proof.
  unfold PaytableService.calculatePayout. intros E.
  apply obind_Returns in E as (paytable & Hpt & E). injection E as <-.
  exists paytable. split; [exact Hpt|]. split; [reflexivity|].
  cbn [PaytableService.basePayout PaytableService.payout].
  unfold PaytableService.getPaytable in Hpt.
  destruct (PaytableService.property PaytableService.paytables spotSize)
    as [pt|] eqn:Hp; [|discriminate].
  injection Hpt as ->. apply property_In in Hp.
  pose proof paytables_whole_dollars as Hall.
  rewrite Forall_forall in Hall. destruct (Hall _ Hp) as [Hw Hlines].
  cbn [snd] in Hw, Hlines. rewrite Hw.
  set (base := match PaytableService.property
                       (PaytableService.payouts paytable) matches with
               | Some b => b
               | None => 0
               end).
  assert (Hbase : 0 <= base /\ base mod 100 = 0).
  { unfold base.
    destruct (PaytableService.property (PaytableService.payouts paytable)
                matches) as [b|] eqn:Hb; [|split; [lia|reflexivity]].
    apply property_In in Hb. rewrite Forall_forall in Hlines.
    exact (Hlines _ Hb). }
  destruct Hbase as [Hpos Hmod]. repeat split; try assumption.
  apply Z.div_exact in Hmod; [|lia].
  generalize dependent (base / 100). intros multiple ->.
  apply whole_dollars_payout.
Qed.

(** X5. [calculatePayout] returns for the spot sizes 1 to 10 and for no
    other: outside them it throws "Invalid spot size: n", whatever the match
    count and the wager.  What it returns carries the match count, the wager
    and the spot size it was given. *)
Theorem calculatePayout_spot_sizes :
  forall spotSize matches wager : Z,
    match PaytableService.calculatePayout spotSize matches wager with
    | Returns p =>
        1 <= spotSize <= 10
        /\ PaytableService.matches p = matches
        /\ PaytableService.payout_wager p = wager
        /\ PaytableService.spotSize p = spotSize
    | Throws e =>
        ~ 1 <= spotSize <= 10
        /\ e = Error ("Invalid spot size: " ++ toString spotSize)
    | Diverges => False
    end.
Proof.
  intros spotSize matches wager.
  pose proof (getPaytable_iff spotSize) as Hiff.
  unfold PaytableService.calculatePayout.
  unfold PaytableService.getPaytable in *.
  destruct (PaytableService.property PaytableService.paytables spotSize)
    as [paytable|]; cbn [obind].
  - repeat split; try (apply Hiff; eauto).
  - split; [|reflexivity]. intros H. apply Hiff in H as (pt & H).
    discriminate.
Qed.

(** X6. Every base payout of the built-in tables is a whole number of
    dollars, so the payout is that whole number times the wager, to the
    cent: the rounding of [calculatePayout] never changes an amount. *)
Theorem payout_is_multiple_of_wager :
  forall (spotSize matches wager : Z) (p : PaytableService.Payout),
    PaytableService.calculatePayout spotSize matches wager = Returns p ->
    0 <= PaytableService.basePayout p
    /\ PaytableService.basePayout p mod 100 = 0
    /\ PaytableService.payout p = PaytableService.basePayout p / 100 * wager.
Proof.
  intros spotSize matches wager p E.
  apply calculatePayout_parts in E as (paytable & _ & _ & H). exact H.
Qed.

Lemma payout_is_multiple_of_wager_witness :
  PaytableService.calculatePayout 3 3 75
  = Returns (PaytableService.mkPayout 3 4200 75 3150 3)
  /\ 0 <= 4200 /\ 4200 mod 100 = 0 /\ 3150 = 4200 / 100 * 75.
Proof.
  split; [vm_compute; reflexivity|].
  apply (payout_is_multiple_of_wager 3 3 75
           (PaytableService.mkPayout 3 4200 75 3150 3)).
  vm_compute. reflexivity.
Defined.

(** X7. For a wager that is not negative the payout never decreases with
    the number of matches, up to the spot size: more matches never pay
    less. *)
Theorem payout_monotone_in_matches :
  forall (spotSize fewer more wager : Z) (p1 p2 : PaytableService.Payout),
    fewer <= more <= spotSize -> 0 <= wager ->
    PaytableService.calculatePayout spotSize fewer wager = Returns p1 ->
    PaytableService.calculatePayout spotSize more wager = Returns p2 ->
    PaytableService.payout p1 <= PaytableService.payout p2.
Proof.
  intros spotSize fewer more wager p1 p2 Hm Hw E1 E2.
  apply calculatePayout_parts in E1 as (pt1 & Hpt1 & Hb1 & _ & _ & ->).
  apply calculatePayout_parts in E2 as (pt2 & Hpt2 & Hb2 & _ & _ & ->).
  rewrite Hpt1 in Hpt2. injection Hpt2 as <-.
  apply Z.mul_le_mono_nonneg_r; [assumption|].
  apply Z.div_le_mono; [lia|].
  rewrite Hb1, Hb2. eapply basePayout_monotone; eassumption.
Qed.

Lemma payout_monotone_in_matches_witness :
  PaytableService.payout (PaytableService.mkPayout 3 200 100 200 5)
  <= PaytableService.payout (PaytableService.mkPayout 4 1000 100 1000 5).
Proof.
  apply (payout_monotone_in_matches 5 3 4 100); [lia | lia | | ];
    vm_compute; reflexivity.
Defined.

Lemma flat_map_nothing {A B} (each : A -> list B) (items : list A) :
  flat_map each items = [] <-> forall item, In item items -> each item = [].
Proof.
  induction items as [|item items IH]; simpl.
  - split; [intros _ ? []|reflexivity].
  - split.
    + intros E. apply app_eq_nil in E as [E1 E2].
      intros x [<-|Hx]; [assumption|]. now apply IH.
    + intros Hall. rewrite (Hall item (or_introl eq_refl)). simpl.
      apply IH. intros x Hx. apply Hall. now right.
Qed.

(** X8. [validatePaytable] reports no error exactly when the spot size is
    between 1 and 10 and the table holds a payout that is not negative for
    every match count from 0 to the spot size. *)
Theorem validatePaytable_accepts_iff :
  forall (spotSize : Z) (payouts : list (Z * Z)),
    PaytableService.validatePaytable spotSize payouts = []
    <-> 1 <= spotSize <= 10
        /\ forall matches, 0 <= matches <= spotSize ->
             exists p, PaytableService.property payouts matches = Some p
                       /\ 0 <= p.
Proof.
  intros spotSize payouts. unfold PaytableService.validatePaytable.
  split.
  - intros E. apply app_eq_nil in E as [Hsize Hlines].
    assert (Hs : 1 <= spotSize <= 10).
    { destruct (Z.ltb_spec spotSize 1); [discriminate|].
      destruct (Z.gtb_spec spotSize 10); [discriminate|]. lia. }
    split; [exact Hs|]. intros matches Hm.
    rewrite flat_map_nothing in Hlines.
    specialize (Hlines (Z.to_nat matches)).
    rewrite in_seq, Z2Nat.id in Hlines by lia.
    specialize (Hlines ltac:(lia)).
    destruct (PaytableService.property payouts matches) as [p|];
      [|discriminate].
    exists p. split; [reflexivity|].
    destruct (Z.ltb_spec p 0); [discriminate|assumption].
  - intros [Hs Hall].
    destruct (Z.ltb_spec spotSize 1); [lia|].
    destruct (Z.gtb_spec spotSize 10); [lia|]. cbn [orb app].
    apply flat_map_nothing. intros i Hi. apply in_seq in Hi.
    destruct (Hall (Z.of_nat i) ltac:(lia)) as (p & -> & Hp).
    destruct (Z.ltb_spec p 0); [lia|reflexivity].
Qed.

(** X9. The service's own tables against its own validator: the tables for
    2 to 10 spots pass, the 1-spot table does not, for want of a payout for
    0 matches. *)
Theorem builtin_paytables_validated :
  forall (spotSize : Z) (paytable : PaytableService.Paytable),
    PaytableService.getPaytable spotSize = Returns paytable ->
    PaytableService.validatePaytable spotSize
      (PaytableService.payouts paytable)
    = if spotSize =? 1 then ["Payout for 0 matches is required"%string]
      else [].
Proof.
  intros spotSize paytable Hpt.
  assert (Hs : 1 <= spotSize <= 10) by (apply getPaytable_iff; eauto).
  assert (Hcases : spotSize = 1 \/ spotSize = 2 \/ spotSize = 3
                   \/ spotSize = 4 \/ spotSize = 5 \/ spotSize = 6
                   \/ spotSize = 7 \/ spotSize = 8 \/ spotSize = 9
                   \/ spotSize = 10) by lia.
  repeat destruct Hcases as [->|Hcases]; try subst spotSize;
    injection Hpt as <-; vm_compute; reflexivity.
Qed.

Lemma builtin_paytables_validated_witness :
  PaytableService.validatePaytable 1 [(1, 300)]
  = ["Payout for 0 matches is required"%string].
Proof.
  apply (builtin_paytables_validated 1
           (PaytableService.mkPaytable "1-Spot" 100 [(1, 300)])).
  reflexivity.
Defined.

(** X10. For every spot size from 1 to 10, [calculateRTP] returns, on
    binary64 numbers, a whole number of hundredths of a percent divided by
    100, between 26.06 and 88.17: no table returns more than is staked.  The
    same computation over the rationals rounds to the same hundredths. *)
Theorem calculateRTP_between :
  forall spotSize : Z,
    1 <= spotSize <= 10 ->
    exists hundredths : Z,
      2606 <= hundredths <= 8817
      /\ PaytableService.calculateRTP (T:=float) spotSize
         = Returns (PrimFloat.div (float_of_int hundredths) (float_of_int 100))
      /\ exists q : Q,
           PaytableService.calculateRTP (T:=Q) spotSize = Returns q
           /\ (q == hundredths # 100)%Q.
Proof.
  intros spotSize Hs.
  assert (Hcases : spotSize = 1 \/ spotSize = 2 \/ spotSize = 3
                   \/ spotSize = 4 \/ spotSize = 5 \/ spotSize = 6
                   \/ spotSize = 7 \/ spotSize = 8 \/ spotSize = 9
                   \/ spotSize = 10) by lia.
  assert (Hrun : forall size hundredths,
            PaytableService.calculateRTP (T:=float) size
            = Returns (PrimFloat.div (float_of_int hundredths)
                         (float_of_int 100)) ->
            match PaytableService.calculateRTP (T:=Q) size with
            | Returns q => Qeq_bool q (hundredths # 100) = true
            | _ => False
            end ->
            PaytableService.calculateRTP (T:=float) size
            = Returns (PrimFloat.div (float_of_int hundredths)
                         (float_of_int 100))
            /\ exists q : Q,
                 PaytableService.calculateRTP (T:=Q) size = Returns q
                 /\ (q == hundredths # 100)%Q).
  { intros size hundredths Hf Hq. split; [exact Hf|].
    destruct (PaytableService.calculateRTP (T:=Q) size) as [q| |];
      try contradiction.
    exists q. split; [reflexivity|]. now apply Qeq_bool_iff. }
  destruct Hcases as [->|[->|[->|[->|[->|[->|[->|[->|[->| ->]]]]]]]]];
    [exists 7500 | exists 7215 | exists 7215 | exists 6487 | exists 8817
     | exists 5563 | exists 2606 | exists 3118 | exists 3704 | exists 5046];
    (split; [lia|]); apply Hrun; vm_compute; reflexivity.
Qed.

Lemma calculateRTP_between_witness :
  exists hundredths : Z,
    2606 <= hundredths <= 8817
    /\ PaytableService.calculateRTP (T:=float) 5
       = Returns (PrimFloat.div (float_of_int hundredths) (float_of_int 100))
    /\ exists q : Q,
         PaytableService.calculateRTP (T:=Q) 5 = Returns q
         /\ (q == hundredths # 100)%Q.
Proof. apply (calculateRTP_between 5). lia. Defined.

(** *** The match probabilities *)













(** ** The paytable routes (routes/paytables.js) *)



(** ** Statements on the store *)

(** One statement: refused, with the store as it was, or applied. *)
Lemma query_outcome {A} (statement : Store -> A * Store) w :
  (exists w', query statement w = (Throws StoreError, w')
              /\ store w' = store w
              /\ next_uuid w' = next_uuid w
              /\ refusals w = true :: refusals w')
  \/ (exists w', query statement w
                 = (Returns (fst (statement (store w))), w')
                 /\ store w' = snd (statement (store w))
                 /\ next_uuid w' = next_uuid w /\ clock w' = clock w
                 /\ rngService w' = rngService w
                 /\ (refusals w = false :: refusals w'
                     \/ refusals w = [] /\ refusals w' = [])).
Proof.
  unfold query. destruct (refusals w) as [|[|] rest] eqn:Hr.
  - right. destruct (statement (store w)) as [rows s].
    eexists. split; [reflexivity|]. cbn. auto 10.
  - left. eexists. split; [reflexivity|]. cbn. auto.
  - right. destruct (statement (store w)) as [rows s].
    eexists. split; [reflexivity|]. cbn. auto 10.
Qed.

(** ** Matches (services/drawService.js) *)





(** ** The ticket service (services/ticketService.js) *)

Lemma nodup_keeps_length (spots : list Z) :
  List.length (nodup Z.eq_dec spots) = List.length spots <-> NoDup spots.
Proof.
  split.
  - induction spots as [|spot spots IH]; [constructor|].
    pose proof (NoDup_incl_length (NoDup_nodup Z.eq_dec spots)
                  (fun n Hn => proj1 (nodup_In Z.eq_dec spots n) Hn)) as Hle.
    simpl. destruct (in_dec Z.eq_dec spot spots) as [Hin|Hout].
    + intros E. lia.
    + simpl. intros E. constructor; [assumption|]. apply IH. lia.
  - intros H. now rewrite nodup_fixed_point.
Qed.

(** X14. [validateTicketData] accepts a ticket exactly when the list of
    spots is not empty, its length is within the configured bounds and equal
    to the spot size given, every spot is between 1 and 80, no spot is
    repeated and the wager is within the configured bounds; otherwise it
    throws. *)
Theorem validateTicketData_accepts_iff :
  forall (this : TicketService.t) (spots : list Z) (wager spotSize : Z),
    TicketService.validateTicketData this spots wager spotSize = Returns tt
    <-> spots <> []
        /\ TicketService.minSpots this <= Z.of_nat (List.length spots)
           <= TicketService.maxSpots this
        /\ spotSize = Z.of_nat (List.length spots)
        /\ Forall (fun spot => 1 <= spot <= 80) spots
        /\ NoDup spots
        /\ TicketService.minWager this <= wager <= TicketService.maxWager this.
Proof.
  intros this spots wager spotSize.
  unfold TicketService.validateTicketData, TicketService.check.
  set (count := Z.of_nat (List.length spots)).
  assert (Hrange :
            existsb (fun spot => (spot <? 1) || (spot >? 80)) spots = false
            <-> Forall (fun spot => 1 <= spot <= 80) spots).
  { rewrite Forall_forall. split.
    - intros Hnone spot Hin.
      destruct ((spot <? 1) || (spot >? 80)) eqn:Hbad.
      + assert (existsb (fun spot => (spot <? 1) || (spot >? 80)) spots
                = true)
          by (apply existsb_exists; exists spot; split; assumption).
        congruence.
      + apply orb_false_iff in Hbad as [H1 H2].
        apply Z.ltb_ge in H1. rewrite Z.gtb_ltb in H2. apply Z.ltb_ge in H2.
        lia.
    - intros Hall. apply not_true_is_false. intros Hsome.
      apply existsb_exists in Hsome as (spot & Hin & Hbad).
      specialize (Hall spot Hin).
      destruct (Z.ltb_spec spot 1); destruct (Z.gtb_spec spot 80);
        try lia; discriminate. }
  destruct (Z.eqb_spec count 0) as [Hzero|Hzero]; cbn [obind].
  { split; [discriminate|]. intros (Hne & _).
    destruct spots; [contradiction|]. simpl in count. lia. }
  destruct (Z.ltb_spec count (TicketService.minSpots this)); cbn [orb obind].
  { split; [discriminate|]. intros (_ & Hq & _). lia. }
  destruct (Z.gtb_spec count (TicketService.maxSpots this)); cbn [orb obind].
  { split; [discriminate|]. intros (_ & Hq & _). lia. }
  destruct (Z.eqb_spec spotSize count); cbn [negb obind].
  2:{ split; [discriminate|]. intros (_ & _ & Hq & _). contradiction. }
  destruct (existsb _ spots) eqn:Hout; cbn [obind].
  { split; [discriminate|]. intros (_ & _ & _ & Hq & _).
    apply Hrange in Hq. congruence. }
  destruct (Nat.eqb_spec (List.length (nodup Z.eq_dec spots))
                         (List.length spots)) as [Hdup|Hdup];
    cbn [negb obind].
  2:{ split; [discriminate|]. intros (_ & _ & _ & _ & Hq & _).
      apply nodup_keeps_length in Hq. contradiction. }
  destruct (Z.ltb_spec wager (TicketService.minWager this)); cbn [orb].
  { split; [discriminate|]. intros (_ & _ & _ & _ & _ & Hq). lia. }
  destruct (Z.gtb_spec wager (TicketService.maxWager this)); cbn [orb].
  { split; [discriminate|]. intros (_ & _ & _ & _ & _ & Hq). lia. }
  split; [|reflexivity]. intros _.
  repeat split; try lia; try assumption.
  - intros ->. simpl in count. lia.
  - now apply Hrange.
  - now apply nodup_keeps_length.
Qed.








(** One statement sent through [client]: refused, or applied on top of the
    changes made so far; the store itself is not touched. *)
Lemma client_query_outcome {A} (statement : Store -> A * Store) changes w :
  (exists w', client_query statement changes w
              = ((Throws StoreError, w'), changes)
              /\ store w' = store w)
  \/ (exists w', client_query statement changes w
                 = ((Returns (fst (statement (changes (store w)))), w'),
                    fun s => snd (statement (changes s)))
                 /\ store w' = store w
                 /\ (refusals w = [] -> refusals w' = [])).
Proof.
  unfold client_query.
  match goal with
  | |- context [query ?stmt w] =>
      destruct (query_outcome stmt w)
        as [(w' & -> & Hs & _)|(w' & -> & Hs & _ & _ & _ & Hr)]
  end.
  - left. eauto.
  - right. exists w'. cbn [fst snd] in *. split; [reflexivity|].
    split; [assumption|]. intros Hq. rewrite Hq in Hr.
    destruct Hr as [Hr|[_ Hr]]; [discriminate|assumption].
Qed.

(** [getUserWallet], whatever the store refuses: the wallet found, or a new
    empty wallet for a user who had none; nothing else is written. *)
Lemma getUserWallet_outcome (this : TicketService.t) userId w :
  match TicketService.getUserWallet this userId w with
  | (Returns wallet, w') =>
      (store w' = store w
       /\ hd_error (filter (fun wl => wallet_user_id wl =? userId)%nat
                           (user_wallets (store w))) = Some wallet)
      \/ (filter (fun wl => wallet_user_id wl =? userId)%nat
                 (user_wallets (store w)) = []
          /\ wallet = mkWallet (wallet_id wallet) userId 0
          /\ store w' = with_wallets (fun wls => wls ++ [wallet]) (store w))
  | (Throws e, w') => store w' = store w
  | (Diverges, w') => False
  end.
Proof.
  unfold TicketService.getUserWallet, bind.
  match goal with
  | |- context [query ?stmt w] =>
      destruct (query_outcome stmt w) as [(w1 & -> & Hs1 & _)|(w1 & -> & Hs1 & _)]
  end; [assumption|].
  cbn [reading fst snd] in *.
  destruct (filter _ (user_wallets (store w))) as [|first others] eqn:Hrows.
  - unfold uuidv4.
    match goal with
    | |- context [query ?stmt ?w2] =>
        destruct (query_outcome stmt w2)
          as [(w3 & -> & Hs3 & _)|(w3 & -> & Hs3 & _)]
    end.
    + cbn [store] in Hs3. congruence.
    + unfold ret. right. split; [reflexivity|]. split; [reflexivity|].
      cbn [writing fst snd store wallet_id] in *. rewrite Hs3, Hs1.
      reflexivity.
  - unfold ret. left. split; [assumption|reflexivity].
Qed.

(** The balances [getUserWallet] leaves are those it found. *)
Lemma getUserWallet_balances (this : TicketService.t) userId w o w' :
  TicketService.getUserWallet this userId w = (o, w') ->
  draws (store w') = draws (store w)
  /\ tickets (store w') = tickets (store w)
  /\ ticket_settlements (store w') = ticket_settlements (store w)
  /\ wallet_transactions (store w') = wallet_transactions (store w)
  /\ forall u, user_balance (store w') u = user_balance (store w) u.
Proof.
  intros E. pose proof (getUserWallet_outcome this userId w) as H.
  rewrite E in H. destruct o as [wallet|e|].
  - destruct H as [[-> _]|(Hnone & Hw & ->)]; [auto 10|].
    repeat split; try reflexivity.
    intros u. rewrite Hw. now apply user_balance_new_wallet.
  - rewrite H. auto 10.
  - contradiction.
Qed.

(** [cancelTicket], whatever the store refuses. *)
Lemma cancelTicket_outcome (this : TicketService.t) ticketId userId w :
  match TicketService.cancelTicket this ticketId userId w with
  | (Returns result, w') =>
      exists ticket wallet mid,
        hd_error (filter (fun tk => (ticket_id tk =? ticketId)%nat
                                    && (ticket_user_id tk =? userId)%nat)
                         (tickets (store w))) = Some ticket
        /\ ticket_status ticket = active
        /\ (forall drawId d,
              ticket_draw_id ticket = Some drawId ->
              hd_error (filter (fun d => draw_id d =? drawId)%nat
                               (draws (store w))) = Some d ->
              draw_status d <> completed)
        /\ result = TicketService.mkCancelled true (ticket_wager ticket)
        /\ ((mid = store w
             /\ hd_error (filter (fun wl => wallet_user_id wl
                                            =? ticket_user_id ticket)%nat
                                 (user_wallets (store w))) = Some wallet)
            \/ (filter (fun wl => wallet_user_id wl
                                  =? ticket_user_id ticket)%nat
                       (user_wallets (store w)) = []
                /\ wallet = mkWallet (wallet_id wallet)
                              (ticket_user_id ticket) 0
                /\ mid = with_wallets (fun wls => wls ++ [wallet]) (store w)))
        /\ store w'
           = with_tickets (map (TicketService.mark_cancelled ticketId))
               (with_transactions
                  (fun txs =>
                     txs ++ [mkTransaction (wallet_id wallet) refund_tx
                               (ticket_wager ticket) (balance wallet)
                               (balance wallet + ticket_wager ticket)
                               (ticket_id ticket)])
                  (with_wallets
                     (map (TicketService.set_balance (wallet_id wallet)
                             (balance wallet + ticket_wager ticket)))
                     mid))
  | (Throws e, w') =>
      draws (store w') = draws (store w)
      /\ tickets (store w') = tickets (store w)
      /\ ticket_settlements (store w') = ticket_settlements (store w)
      /\ wallet_transactions (store w') = wallet_transactions (store w)
      /\ forall u, user_balance (store w') u = user_balance (store w) u
  | (Diverges, w') => False
  end.
Proof.
  unfold TicketService.cancelTicket, transaction_on_client, tx_bind.
  match goal with
  | |- context [client_query ?stmt ?ch w] =>
      destruct (client_query_outcome stmt ch w)
        as [(w1 & -> & Hs1)|(w1 & -> & Hs1 & _)]
  end; [rewrite Hs1; auto 10|].
  cbn [reading fst snd].
  destruct (filter _ (tickets (store w))) as [|ticket others] eqn:Hrows;
    [unfold tx_throw; rewrite Hs1; auto 10|].
  destruct (ticket_status ticket) eqn:Hstatus; cbn [TicketStatus_eqb negb];
    try (unfold tx_throw; rewrite Hs1; auto 10).
  (* the draw *)
  assert (Hdraw :
    (exists e w2, TicketService.draw_still_open ticket (fun s => s) w1
                  = ((Throws e, w2), fun s => s) /\ store w2 = store w)
    \/ (exists w2 kept, TicketService.draw_still_open ticket (fun s => s) w1
                   = ((Returns tt, w2), kept)
                   /\ (forall s, kept s = s) /\ store w2 = store w
                   /\ forall drawId d,
                        ticket_draw_id ticket = Some drawId ->
                        hd_error (filter (fun d => draw_id d =? drawId)%nat
                                         (draws (store w))) = Some d ->
                        draw_status d <> completed)).
  { unfold TicketService.draw_still_open, tx_bind.
    destruct (ticket_draw_id ticket) as [drawId|].
    - match goal with
      | |- context [client_query ?stmt ?ch w1] =>
          destruct (client_query_outcome stmt ch w1)
            as [(w2 & -> & Hs2)|(w2 & -> & Hs2 & _)]
      end.
      + left. do 2 eexists. split; [reflexivity|]. congruence.
      + cbn [reading fst snd]. rewrite Hs1.
        destruct (filter _ (draws (store w))) as [|d ds] eqn:Hd.
        * right. unfold tx_ret. do 2 eexists. split; [reflexivity|].
          split; [reflexivity|]. split; [congruence|].
          intros drawId' d' E. injection E as <-. rewrite Hd. discriminate.
        * destruct (draw_status d) eqn:Hst; cbn [DrawStatus_eqb].
          -- right. unfold tx_ret. do 2 eexists. split; [reflexivity|].
             split; [reflexivity|]. split; [congruence|].
             intros drawId' d' E. injection E as <-. rewrite Hd.
             intros E'. injection E' as <-. congruence.
          -- left. unfold tx_throw. do 2 eexists. split; [reflexivity|].
             congruence.
          -- right. unfold tx_ret. do 2 eexists. split; [reflexivity|].
             split; [reflexivity|]. split; [congruence|].
             intros drawId' d' E. injection E as <-. rewrite Hd.
             intros E'. injection E' as <-. congruence.
    - right. unfold tx_ret. do 2 eexists. split; [reflexivity|].
      split; [reflexivity|]. split; [congruence|]. discriminate. }
  destruct Hdraw as [(e & w2 & -> & Hs2)|(w2 & kept & -> & Hkept & Hs2 & Hopen)];
    [rewrite Hs2; auto 10|].
  (* the refund *)
  unfold TicketService.refundTicket, tx_bind, on_pool.
  pose proof (getUserWallet_outcome this (ticket_user_id ticket) w2) as Hwl.
  pose proof (getUserWallet_balances this (ticket_user_id ticket) w2) as Hbal.
  destruct (TicketService.getUserWallet this (ticket_user_id ticket) w2)
    as [[wallet|e|] w3]; [| |contradiction].
  2:{ specialize (Hbal _ _ eq_refl). rewrite Hs2 in Hbal. exact Hbal. }
  specialize (Hbal _ _ eq_refl). rewrite Hs2 in Hbal, Hwl.
  match goal with
  | |- context [client_query ?stmt ?ch w3] =>
      destruct (client_query_outcome stmt ch w3)
        as [(w4 & -> & Hs4)|(w4 & -> & Hs4 & _)]
  end; [rewrite Hs4; exact Hbal|].
  match goal with
  | |- context [client_query ?stmt ?ch w4] =>
      destruct (client_query_outcome stmt ch w4)
        as [(w5 & -> & Hs5)|(w5 & -> & Hs5 & _)]
  end; [rewrite Hs5, Hs4; exact Hbal|].
  match goal with
  | |- context [client_query ?stmt ?ch w5] =>
      destruct (client_query_outcome stmt ch w5)
        as [(w6 & -> & Hs6)|(w6 & -> & Hs6 & _)]
  end; [rewrite Hs6, Hs5, Hs4; exact Hbal|].
  unfold tx_ret. cbn [writing fst snd].
  exists ticket, wallet, (store w3).
  split; [reflexivity|]. split; [assumption|]. split; [exact Hopen|].
  split; [reflexivity|]. split.
  - destruct Hwl as [[Hw3 Hfound]|(Hnone & Hnew & Hw3)]; [left|right]; auto.
  - unfold with_store. cbn [store]. rewrite Hs6, Hs5, Hs4, !Hkept.
    reflexivity.
Qed.

Lemma client_query_quiet {A} (statement : Store -> A * Store) changes w :
  refusals w = [] ->
  client_query statement changes w
  = ((Returns (fst (statement (changes (store w)))), w),
     fun s => snd (statement (changes s))).
Proof.
  destruct w as [st rf nu ck en eu rg]. cbn [refusals]. intros ->.
  reflexivity.
Qed.

(** On a store that refuses nothing: the owner's active ticket, its draw
    not completed, is cancelled and its wager goes back to the wallet. *)
Lemma cancelTicket_quiet (this : TicketService.t) ticketId userId ticket w :
  refusals w = [] -> wallets_ok w ->
  hd_error (filter (fun tk => (ticket_id tk =? ticketId)%nat
                              && (ticket_user_id tk =? userId)%nat)
                   (tickets (store w))) = Some ticket ->
  ticket_status ticket = active ->
  (forall drawId d,
     ticket_draw_id ticket = Some drawId ->
     hd_error (filter (fun d => draw_id d =? drawId)%nat (draws (store w)))
     = Some d ->
     draw_status d <> completed) ->
  exists w' walletId,
    TicketService.cancelTicket this ticketId userId w
    = (Returns (TicketService.mkCancelled true (ticket_wager ticket)), w')
    /\ refusals w' = [] /\ wallets_ok w'
    /\ draws (store w') = draws (store w)
    /\ ticket_settlements (store w') = ticket_settlements (store w)
    /\ tickets (store w')
       = map (TicketService.mark_cancelled ticketId) (tickets (store w))
    /\ wallet_transactions (store w')
       = wallet_transactions (store w)
         ++ [mkTransaction walletId refund_tx (ticket_wager ticket)
               (user_balance (store w) userId)
               (user_balance (store w) userId + ticket_wager ticket)
               ticketId]
    /\ forall u,
         user_balance (store w') u
         = if (u =? userId)%nat
           then user_balance (store w) userId + ticket_wager ticket
           else user_balance (store w) u.
Proof.
  intros Hquiet Hok Hfound Hactive Hopen.
  pose proof (hd_error_filter_In _ _ _ Hfound) as [_ Hkeys].
  apply andb_true_iff in Hkeys as [Hid Huser].
  apply Nat.eqb_eq in Hid, Huser.
  unfold TicketService.cancelTicket, transaction_on_client, tx_bind.
  rewrite client_query_quiet by exact Hquiet. cbn [reading fst snd].
  destruct (filter _ (tickets (store w))) as [|found others];
    [discriminate|].
  injection Hfound as ->. rewrite Hactive. cbn [TicketStatus_eqb negb].
  assert (Hdraw : TicketService.draw_still_open ticket (fun s => s) w
                  = ((Returns tt, w), fun s => s)).
  { unfold TicketService.draw_still_open, tx_bind.
    destruct (ticket_draw_id ticket) as [drawId|]; [|reflexivity].
    rewrite client_query_quiet by exact Hquiet. cbn [reading fst snd].
    specialize (Hopen drawId).
    destruct (filter _ (draws (store w))) as [|d ds]; [reflexivity|].
    specialize (Hopen d eq_refl eq_refl).
    destruct (draw_status d); try contradiction; reflexivity. }
  rewrite Hdraw.
  unfold TicketService.refundTicket, tx_bind, on_pool.
  destruct (getUserWallet_quiet this (ticket_user_id ticket) w Hquiet Hok)
    as (wallet & w1 & -> & Hquiet1 & Hok1 & _ & Hd1 & Htk1 & Hst1 & Htx1
        & Hfirst & Hbal & Hsame).
  rewrite !client_query_quiet by exact Hquiet1.
  cbn [writing fst snd]. unfold tx_ret.
  exists (with_store
            (fun s => with_tickets (map (TicketService.mark_cancelled ticketId))
                        (with_transactions
                           (fun txs =>
                              txs ++ [mkTransaction (wallet_id wallet)
                                        refund_tx (ticket_wager ticket)
                                        (balance wallet)
                                        (balance wallet + ticket_wager ticket)
                                        (ticket_id ticket)])
                           (with_wallets
                              (map (TicketService.set_balance
                                      (wallet_id wallet)
                                      (balance wallet + ticket_wager ticket)))
                              s)))
            w1), (wallet_id wallet).
  split; [reflexivity|].
  split; [exact Hquiet1|]. split.
  { destruct Hok1 as [Hnd Hfresh]. unfold wallets_ok.
    cbn [store with_store with_tickets with_transactions with_wallets
         user_wallets next_uuid].
    assert (Hids : map wallet_id
                     (map (TicketService.set_balance (wallet_id wallet)
                             (balance wallet + ticket_wager ticket))
                          (user_wallets (store w1)))
                   = map wallet_id (user_wallets (store w1))).
    { rewrite map_map. apply map_ext. intros wl.
      unfold TicketService.set_balance.
      destruct (wallet_id wl =? wallet_id wallet)%nat; reflexivity. }
    split; [now rewrite Hids|].
    rewrite Forall_forall in *. intros wl Hwl.
    apply in_map_iff in Hwl as (old & <- & Hold).
    specialize (Hfresh old Hold). unfold TicketService.set_balance.
    destruct (wallet_id old =? wallet_id wallet)%nat; exact Hfresh. }
  cbn [store with_store with_tickets with_transactions with_wallets draws
       tickets ticket_settlements wallet_transactions].
  split; [exact Hd1|]. split; [exact Hst1|]. split; [now rewrite Htk1|].
  split; [rewrite Htx1, Hbal, Huser, Hid; reflexivity|].
  intros u. rewrite <- Huser, <- Hbal, <- (Hsame u).
  destruct Hok1 as [Hnd1 _].
  exact (user_balance_update (store w1) wallet (ticket_user_id ticket)
           (balance wallet + ticket_wager ticket) u Hnd1 Hfirst).
Qed.

(** X17. [cancelTicket] is all or nothing, whatever statements the store
    refuses.  When it throws, no ticket, draw, settlement, ledger entry or
    balance has changed.  When it returns, the ticket was the caller's and
    active, every row with its identifier is marked cancelled, the refund
    amount is the wager and one refund entry for that amount is added to the
    ledger. *)
Theorem cancelTicket_all_or_nothing :
  forall (this : TicketService.t) (ticketId userId : uuid) (w : World),
    match TicketService.cancelTicket this ticketId userId w with
    | (Returns result, w') =>
        exists ticket refund,
          hd_error (filter (fun tk => (ticket_id tk =? ticketId)%nat
                                      && (ticket_user_id tk =? userId)%nat)
                           (tickets (store w))) = Some ticket
          /\ ticket_status ticket = active
          /\ result = TicketService.mkCancelled true (ticket_wager ticket)
          /\ tickets (store w')
             = map (TicketService.mark_cancelled ticketId) (tickets (store w))
          /\ wallet_transactions (store w')
             = wallet_transactions (store w) ++ [refund]
          /\ transaction_type refund = refund_tx
          /\ amount refund = ticket_wager ticket
          /\ balance_after refund = balance_before refund + ticket_wager ticket
          /\ reference_id refund = ticket_id ticket
    | (Throws e, w') =>
        draws (store w') = draws (store w)
        /\ tickets (store w') = tickets (store w)
        /\ ticket_settlements (store w') = ticket_settlements (store w)
        /\ wallet_transactions (store w') = wallet_transactions (store w)
        /\ forall u, user_balance (store w') u = user_balance (store w) u
    | (Diverges, w') => False
    end.
Proof.
  intros this ticketId userId w.
  pose proof (cancelTicket_outcome this ticketId userId w) as H.
  destruct (TicketService.cancelTicket this ticketId userId w)
    as [[result|e|] w']; [|exact H|exact H].
  destruct H as (ticket & wallet & mid & Hfound & Hactive & _ & -> & Hmid
                 & ->).
  exists ticket. eexists. split; [exact Hfound|]. split; [exact Hactive|].
  split; [reflexivity|].
  cbn [tickets wallet_transactions with_tickets with_transactions
       with_wallets].
  assert (tickets mid = tickets (store w)
          /\ wallet_transactions mid = wallet_transactions (store w))
    as [-> ->]
    by (destruct Hmid as [[-> _]|(_ & _ & ->)]; split; reflexivity).
  repeat split; reflexivity.
Qed.

(** X18. On a store that refuses nothing, the owner of an active ticket
    whose draw is not completed gets it cancelled: the call returns the
    wager as the refund amount, the ticket is marked cancelled and the
    owner's balance has grown by the wager, every other balance being as it
    was. *)
Theorem cancelTicket_refunds :
  forall (this : TicketService.t) (ticketId userId : uuid)
         (ticket : TicketRow) (w : World),
    refusals w = [] -> wallets_ok w ->
    hd_error (filter (fun tk => (ticket_id tk =? ticketId)%nat
                                && (ticket_user_id tk =? userId)%nat)
                     (tickets (store w))) = Some ticket ->
    ticket_status ticket = active ->
    (forall drawId d,
       ticket_draw_id ticket = Some drawId ->
       hd_error (filter (fun d => draw_id d =? drawId)%nat (draws (store w)))
       = Some d ->
       draw_status d <> completed) ->
    exists w',
      TicketService.cancelTicket this ticketId userId w
      = (Returns (TicketService.mkCancelled true (ticket_wager ticket)), w')
      /\ tickets (store w')
         = map (TicketService.mark_cancelled ticketId) (tickets (store w))
      /\ forall u,
           user_balance (store w') u
           = if (u =? userId)%nat
             then user_balance (store w) userId + ticket_wager ticket
             else user_balance (store w) u.
Proof.
  intros this ticketId userId ticket w Hquiet Hok Hfound Hactive Hopen.
  destruct (cancelTicket_quiet this ticketId userId ticket w Hquiet Hok Hfound
              Hactive Hopen)
    as (w' & walletId & Hcall & _ & _ & _ & _ & Htk & _ & Hbal).
  exists w'. auto.
Qed.

Lemma cancelTicket_refunds_witness :
  exists w',
    TicketService.cancelTicket Scenario.ticketing 70 1 (Scenario.betting [])
    = (Returns (TicketService.mkCancelled true
                  (ticket_wager Scenario.winner)), w')
    /\ tickets (store w')
       = map (TicketService.mark_cancelled 70)
             (tickets (store (Scenario.betting [])))
    /\ forall u,
         user_balance (store w') u
         = if (u =? 1)%nat
           then user_balance (store (Scenario.betting [])) 1
                + ticket_wager Scenario.winner
           else user_balance (store (Scenario.betting [])) u.
Proof.
  apply (cancelTicket_refunds Scenario.ticketing 70 1 Scenario.winner
           (Scenario.betting [])).
  - reflexivity.
  - split; cbn; repeat constructor; try (intros []); lia.
  - reflexivity.
  - reflexivity.
  - intros drawId d E. injection E as <-. cbn. intros E. injection E as <-.
    discriminate.
Defined.

Lemma marked_cancelled ticketId userId rows :
  Forall (fun tk => ticket_status tk = cancelled)
         (filter (fun tk => (ticket_id tk =? ticketId)%nat
                            && (ticket_user_id tk =? userId)%nat)
                 (map (TicketService.mark_cancelled ticketId) rows)).
Proof.
  rewrite Forall_forall. intros tk Htk.
  apply filter_In in Htk as [Hin Hkeys].
  apply in_map_iff in Hin as (old & <- & _).
  unfold TicketService.mark_cancelled in *.
  destruct (Nat.eqb_spec (ticket_id old) ticketId); [reflexivity|].
  apply andb_true_iff in Hkeys as [Hid _]. apply Nat.eqb_eq in Hid.
  contradiction.
Qed.

(** X19. A ticket is refunded once: after [cancelTicket] has returned, a
    second call for the same ticket throws ("Ticket cannot be cancelled",
    unless the store refuses the first statement) and leaves the store as
    it is. *)
Theorem cancelTicket_twice :
  forall (this : TicketService.t) (ticketId userId : uuid) (w w1 : World)
         (result : TicketService.Cancelled) (answers : list bool),
    TicketService.cancelTicket this ticketId userId w = (Returns result, w1) ->
    exists e w2,
      TicketService.cancelTicket this ticketId userId
        (with_refusals answers w1)
      = (Throws e, w2)
      /\ store w2 = store w1
      /\ (e = StoreError \/ e = Error "Ticket cannot be cancelled").
Proof.
  intros this ticketId userId w w1 result answers Hfirst.
  pose proof (cancelTicket_outcome this ticketId userId w) as H.
  rewrite Hfirst in H.
  destruct H as (ticket & wallet & mid & Hfound & _ & _ & _ & Hmid & Hstore).
  assert (Htk : tickets (store w1)
                = map (TicketService.mark_cancelled ticketId)
                      (tickets (store w)))
    by (rewrite Hstore; destruct Hmid as [[-> _]|(_ & _ & ->)];
        reflexivity).
  pose proof (marked_cancelled ticketId userId (tickets (store w))) as Hall.
  rewrite <- Htk in Hall.
  unfold TicketService.cancelTicket, transaction_on_client, tx_bind.
  match goal with
  | |- context [client_query ?stmt ?ch ?w0] =>
      destruct (client_query_outcome stmt ch w0)
        as [(w2 & -> & Hs2)|(w2 & -> & Hs2 & _)]
  end.
  - do 2 eexists. split; [reflexivity|]. split; [exact Hs2|]. now left.
  - cbn [reading fst snd store with_refusals] in *.
    destruct (filter _ (tickets (store w1))) as [|again others] eqn:Hrows.
    + exfalso.
      pose proof (hd_error_filter_In _ _ _ Hfound) as [Hin Hkeys].
      assert (Hthere : In (TicketService.mark_cancelled ticketId ticket)
                          (filter (fun tk => (ticket_id tk =? ticketId)%nat
                                     && (ticket_user_id tk =? userId)%nat)
                                  (tickets (store w1)))).
      { apply filter_In. split; [rewrite Htk; now apply in_map|].
        apply andb_true_iff in Hkeys as [Hid Hu].
        unfold TicketService.mark_cancelled. rewrite Hid.
        cbn [ticket_id ticket_user_id]. now rewrite Hid, Hu. }
      rewrite Hrows in Hthere. destruct Hthere.
    + inversion Hall as [|? ? Hcancelled _]; subst.
      rewrite Hcancelled. cbn [TicketStatus_eqb negb]. unfold tx_throw.
      do 2 eexists. split; [reflexivity|]. split; [exact Hs2|]. now right.
Qed.

Lemma cancelTicket_twice_witness :
  exists e w2,
    TicketService.cancelTicket Scenario.ticketing 70 1
      (with_refusals []
         (snd (TicketService.cancelTicket Scenario.ticketing 70 1
                 (Scenario.betting []))))
    = (Throws e, w2)
    /\ store w2
       = store (snd (TicketService.cancelTicket Scenario.ticketing 70 1
                       (Scenario.betting [])))
    /\ (e = StoreError \/ e = Error "Ticket cannot be cancelled").
Proof.
  apply (cancelTicket_twice Scenario.ticketing 70 1 (Scenario.betting [])
           (snd (TicketService.cancelTicket Scenario.ticketing 70 1
                   (Scenario.betting [])))
           (TicketService.mkCancelled true 100) []).
  vm_compute. reflexivity.
Defined.



(** X21. An active ticket on a completed draw can be neither settled nor
    refunded: [completeDraw] for its draw and [cancelTicket] for the ticket
    both throw and leave the store as it is, whatever the store refuses. *)
Theorem stranded_ticket_stays :
  forall (service : DrawService.t) (this : TicketService.t)
         (ticket : TicketRow) (draw : DrawRow) (w : World)
         (answers : list bool),
    hd_error (filter (fun tk => (ticket_id tk =? ticket_id ticket)%nat
                                && (ticket_user_id tk
                                    =? ticket_user_id ticket)%nat)
                     (tickets (store w))) = Some ticket ->
    ticket_status ticket = active ->
    ticket_draw_id ticket = Some (draw_id draw) ->
    hd_error (filter (fun d => draw_id d =? draw_id draw)%nat
                     (draws (store w))) = Some draw ->
    draw_status draw = completed ->
    (exists e w',
       DrawService.completeDraw service (draw_id draw)
         (with_refusals answers w) = (Throws e, w')
       /\ store w' = store w)
    /\ (exists e w',
          TicketService.cancelTicket this (ticket_id ticket)
            (ticket_user_id ticket) (with_refusals answers w)
          = (Throws e, w')
          /\ store w' = store w).
Proof.
  intros service this ticket draw w answers Hticket Hactive Hon Hdraw Hdone.
  split.
  - destruct (completeDraw_rejected service (draw_id draw) draw answers w
                Hdraw) as (e & -> & _); [congruence|].
    do 2 eexists. split; reflexivity.
  - unfold TicketService.cancelTicket, transaction_on_client, tx_bind.
    match goal with
    | |- context [client_query ?stmt ?ch ?w0] =>
        destruct (client_query_outcome stmt ch w0)
          as [(w1 & -> & Hs1)|(w1 & -> & Hs1 & _)]
    end; [do 2 eexists; split; [reflexivity|exact Hs1]|].
    cbn [reading fst snd store with_refusals] in *.
    destruct (filter _ (tickets (store w))) as [|found others];
      [discriminate|].
    injection Hticket as ->. rewrite Hactive. cbn [TicketStatus_eqb negb].
    unfold TicketService.draw_still_open, tx_bind. rewrite Hon.
    match goal with
    | |- context [client_query ?stmt ?ch w1] =>
        destruct (client_query_outcome stmt ch w1)
          as [(w2 & -> & Hs2)|(w2 & -> & Hs2 & _)]
    end; [do 2 eexists; split; [reflexivity|congruence]|].
    cbn [reading fst snd]. rewrite Hs1.
    destruct (filter _ (draws (store w))) as [|d ds]; [discriminate|].
    injection Hdraw as ->. rewrite Hdone. cbn [DrawStatus_eqb].
    unfold tx_throw. do 2 eexists. split; [reflexivity|congruence].
Qed.

Lemma stranded_ticket_stays_witness :
  (exists e w',
     DrawService.completeDraw Scenario.drawing
       (draw_id Scenario.closed_round)
       (with_refusals [] (Scenario.stranded [])) = (Throws e, w')
     /\ store w' = store (Scenario.stranded []))
  /\ (exists e w',
        TicketService.cancelTicket Scenario.ticketing
          (ticket_id Scenario.winner) (ticket_user_id Scenario.winner)
          (with_refusals [] (Scenario.stranded []))
        = (Throws e, w')
        /\ store w' = store (Scenario.stranded [])).
Proof.
  apply (stranded_ticket_stays Scenario.drawing Scenario.ticketing
           Scenario.winner Scenario.closed_round (Scenario.stranded []) []);
    reflexivity.
Defined.

(** ** The ticket routes (routes/tickets.js) *)

(** X22. [GET /api/v1/tickets/:ticketId] sends a ticket only to its
    owner: when it answers with data, a stored ticket with that identifier
    belongs to the user who asked. *)
Theorem get_ticket_owner_only :
  forall (service : TicketService.t) (ticketId userId : uuid) (w w' : World)
         (code : Z) (json : TicketsRouter.TicketJson),
    TicketsRouter.get_ticket service ticketId userId w
    = (Returns (Sent code json), w') ->
    exists ticket,
      In ticket (tickets (store w))
      /\ ticket_id ticket = ticketId
      /\ ticket_user_id ticket = userId
      /\ TicketsRouter.ticketId json = ticketId
      /\ TicketsRouter.spots json = ticket_spots ticket.
Proof.
  intros service ticketId userId w w' code json.
  unfold TicketsRouter.get_ticket, TicketService.getTicketById, catching, bind.
  match goal with
  | |- context [query ?stmt w] =>
      destruct (query_outcome stmt w) as [(w1 & -> & _)|(w1 & -> & _)]
  end; [unfold ret; discriminate|].
  cbn [reading fst snd]. unfold ret.
  match goal with
  | |- context [hd_error ?rows] => destruct rows as [|view others] eqn:Hrows
  end; cbn [hd_error]; [discriminate|].
  destruct (Nat.eqb_spec (ticket_user_id (TicketService.view_ticket view))
              userId) as [Howner|]; cbn [negb]; [|discriminate].
  intros E. injection E as _ <- _.
  assert (Hin : In view (view :: others)) by now left.
  rewrite <- Hrows in Hin.
  apply in_flat_map in Hin as (tk & Htk & Hin).
  apply in_flat_map in Hin as (d & _ & Hin).
  apply in_map_iff in Hin as (st & <- & _).
  apply filter_In in Htk as [Htk Hid]. apply Nat.eqb_eq in Hid.
  exists tk. cbn [TicketService.view_ticket] in *.
  repeat split; auto.
Qed.

Lemma get_ticket_owner_only_witness :
  exists ticket,
    In ticket (tickets (store (Scenario.betting [])))
    /\ ticket_id ticket = 70%nat
    /\ ticket_user_id ticket = 1%nat
    /\ TicketsRouter.ticketId
         (TicketsRouter.shown
            (TicketService.mkTicketView Scenario.winner
               (Some Scenario.round) None))
       = 70%nat
    /\ TicketsRouter.spots
         (TicketsRouter.shown
            (TicketService.mkTicketView Scenario.winner
               (Some Scenario.round) None))
       = ticket_spots ticket.
Proof.
  apply (get_ticket_owner_only Scenario.ticketing 70 1 (Scenario.betting [])
           (Scenario.betting []) 200).
  vm_compute. reflexivity.
Defined.

Lemma hd_error_filter_both {Row} (first second : Row -> bool) rows row :
  hd_error (filter first rows) = Some row -> second row = true ->
  hd_error (filter (fun r => first r && second r) rows) = Some row.
Proof.
  intros Hhd Hsecond. induction rows as [|r rows IH]; [discriminate|].
  cbn [filter] in *. destruct (first r); cbn [andb].
  - injection Hhd as ->. now rewrite Hsecond.
  - auto.
Qed.

(** X23. On a store that refuses nothing, the holder of an active ticket
    on a pending draw is sent the draw's numbers by
    [GET /api/v1/tickets/:ticketId], and [DELETE /api/v1/tickets/:ticketId]
    then gives the whole wager back. *)
Theorem holder_sees_numbers_and_cancels :
  forall (service : TicketService.t) (ticket : TicketRow) (draw : DrawRow)
         (w : World),
    refusals w = [] -> wallets_ok w ->
    hd_error (filter (fun tk => ticket_id tk =? ticket_id ticket)%nat
                     (tickets (store w))) = Some ticket ->
    ticket_status ticket = active ->
    ticket_draw_id ticket = Some (draw_id draw) ->
    hd_error (filter (fun d => draw_id d =? draw_id draw)%nat
                     (draws (store w))) = Some draw ->
    draw_status draw = pending ->
    (exists json,
       fst (TicketsRouter.get_ticket service (ticket_id ticket)
              (ticket_user_id ticket) w)
       = Returns (Sent 200 json)
       /\ TicketsRouter.drawStatus json = Some pending
       /\ TicketsRouter.drawNumbers json = Some (draw_numbers draw))
    /\ exists w',
         TicketsRouter.delete_ticket service (ticket_id ticket)
           (ticket_user_id ticket) w
         = (Returns (Sent 200 (ticket_wager ticket)), w')
         /\ user_balance (store w') (ticket_user_id ticket)
            = user_balance (store w) (ticket_user_id ticket)
              + ticket_wager ticket.
Proof.
  intros service ticket draw w Hquiet Hok Hticket Hactive Hon Hdraw Hpending.
  split.
  - unfold TicketsRouter.get_ticket, TicketService.getTicketById, catching,
      bind.
    rewrite query_quiet by exact Hquiet. cbn [reading fst snd]. unfold ret.
    destruct (filter _ (tickets (store w))) as [|found others];
      [discriminate|].
    injection Hticket as ->. cbn [flat_map]. rewrite Hon.
    unfold TicketService.left_join at 2.
    destruct (filter _ (draws (store w))) as [|d ds]; [discriminate|].
    injection Hdraw as ->. cbn [map flat_map].
    unfold TicketService.left_join.
    destruct (filter _ (ticket_settlements (store w))) as [|st sts];
      cbn [map app hd_error TicketService.view_ticket];
      rewrite Nat.eqb_refl; cbn [negb fst];
      eexists; (split; [reflexivity|]);
      cbn [TicketsRouter.shown TicketsRouter.drawStatus
           TicketsRouter.drawNumbers TicketService.view_draw option_map];
      rewrite Hpending; split; reflexivity.
  - assert (Hfound :
              hd_error (filter (fun tk =>
                                  (ticket_id tk =? ticket_id ticket)%nat
                                  && (ticket_user_id tk
                                      =? ticket_user_id ticket)%nat)
                               (tickets (store w))) = Some ticket)
      by (apply hd_error_filter_both; [exact Hticket|apply Nat.eqb_refl]).
    destruct (cancelTicket_quiet service (ticket_id ticket)
                (ticket_user_id ticket) ticket w Hquiet Hok Hfound Hactive)
      as (w' & walletId & Hcall & _ & _ & _ & _ & _ & _ & Hbal).
    + intros drawId d E. rewrite Hon in E. injection E as <-.
      rewrite Hdraw. intros E. injection E as <-. congruence.
    + exists w'. unfold TicketsRouter.delete_ticket, catching, bind.
      rewrite Hcall. unfold ret. cbn [TicketService.refund_amount].
      split; [reflexivity|]. now rewrite Hbal, Nat.eqb_refl.
Qed.

Lemma holder_sees_numbers_and_cancels_witness :
  (exists json,
     fst (TicketsRouter.get_ticket Scenario.ticketing
            (ticket_id Scenario.winner) (ticket_user_id Scenario.winner)
            (Scenario.betting []))
     = Returns (Sent 200 json)
     /\ TicketsRouter.drawStatus json = Some pending
     /\ TicketsRouter.drawNumbers json
        = Some (draw_numbers Scenario.round))
  /\ exists w',
       TicketsRouter.delete_ticket Scenario.ticketing
         (ticket_id Scenario.winner) (ticket_user_id Scenario.winner)
         (Scenario.betting [])
       = (Returns (Sent 200 (ticket_wager Scenario.winner)), w')
       /\ user_balance (store w') (ticket_user_id Scenario.winner)
          = user_balance (store (Scenario.betting []))
              (ticket_user_id Scenario.winner)
            + ticket_wager Scenario.winner.
Proof.
  apply (holder_sees_numbers_and_cancels Scenario.ticketing Scenario.winner
           Scenario.round (Scenario.betting [])); try reflexivity.
  split; cbn; repeat constructor; try (intros []); lia.
Defined.

(** ** The draw service and its routes *)

Lemma max_number_bounds (first : Z) (others : list Z) (n : Z) :
  In n (first :: others) -> n <= fold_right Z.max first others.
Proof.
  induction others as [|other others IH]; cbn [fold_right].
  - intros [<-|[]]. lia.
  - intros [<-|[<-|Hin]].
    + specialize (IH (or_introl eq_refl)). lia.
    + lia.
    + specialize (IH (or_intror Hin)). lia.
Qed.

(** [createDraw], whatever the store refuses. *)
Lemma createDraw_outcome (service : DrawService.t) drawTime w :
  match DrawService.createDraw service drawTime w with
  | (Returns draw, w') =>
      store w' = with_draws (fun ds => ds ++ [draw]) (store w)
      /\ draw_id draw = S (next_uuid w)
      /\ next_uuid w' = S (S (next_uuid w))
      /\ rngService w' = rngService w
      /\ clock w' = clock w
      /\ (refusals w = [] -> refusals w' = [])
      /\ draw_time draw = drawTime
      /\ draw_status draw = pending
      /\ completed_at draw = None
      /\ Forall (fun d => draw_number d < draw_number draw) (draws (store w))
  | (Throws e, w') => store w' = store w
  | (Diverges, w') => store w' = store w
  end.
Proof.
  unfold DrawService.createDraw, catching, bind, DrawService.getNextDrawNumber.
  match goal with
  | |- context [query ?stmt w] =>
      destruct (query_outcome stmt w)
        as [(w1 & -> & Hs1 & _)
           |(w1 & -> & Hs1 & Hn1 & Hc1 & Hg1 & Hr1)]
  end; [exact Hs1|].
  cbn [reading fst snd] in *.
  unfold environment, uuidv4.
  cbn [rngService next_uuid store refusals clock entropy entropy_used].
  destruct (RNGService.generateDraw _ _ None None) as [dr| |];
    [|exact Hs1|exact Hs1].
  match goal with
  | |- context [query ?stmt ?w2] =>
      destruct (query_outcome stmt w2)
        as [(w3 & -> & Hs3 & _)
           |(w3 & -> & Hs3 & Hn3 & Hc3 & Hg3 & Hr3)]
  end; [cbn [store] in Hs3; congruence|].
  cbn [writing fst snd store next_uuid clock rngService refusals] in *.
  unfold ret.
  cbn [draw_id draw_time draw_status completed_at draw_number].
  rewrite Hs3, Hs1, Hn3, Hn1, Hg3, Hg1, Hc3, Hc1.
  repeat split; try reflexivity.
  - intros Hq. rewrite Hq in Hr1.
    destruct Hr1 as [Hr1|[_ Hr1]]; [discriminate|].
    rewrite Hr1 in Hr3. destruct Hr3 as [Hr3|[_ Hr3]]; [discriminate|].
    exact Hr3.
  - rewrite Forall_forall. intros d Hd.
    apply (in_map draw_number) in Hd.
    destruct (map draw_number (draws (store w))) as [|first others];
      [destruct Hd|].
    pose proof (max_number_bounds first others _ Hd). lia.
Qed.

(** X24. [createDraw], whatever the store refuses: when it returns, the
    draw has been added to the stored draws and nothing else has changed;
    it is pending, at the draw time asked for, and its draw number is above
    the number of every draw stored before.  When it throws or does not
    return, the store is as it was. *)
Theorem createDraw_all_or_nothing :
  forall (service : DrawService.t) (drawTime : Z) (w : World),
    match DrawService.createDraw service drawTime w with
    | (Returns draw, w') =>
        store w' = with_draws (fun ds => ds ++ [draw]) (store w)
        /\ draw_time draw = drawTime
        /\ draw_status draw = pending
        /\ completed_at draw = None
        /\ Forall (fun d => draw_number d < draw_number draw)
                  (draws (store w))
    | (Throws e, w') => store w' = store w
    | (Diverges, w') => store w' = store w
    end.
Proof.
  intros service drawTime w.
  pose proof (createDraw_outcome service drawTime w) as H.
  destruct (DrawService.createDraw service drawTime w) as [[draw|e|] w'];
    [|exact H|exact H].
  destruct H as (Hs & _ & _ & _ & _ & _ & Ht & Hst & Hc & Hn). auto.
Qed.

(** [verifyDraw] reads neither the identifier nor the timestamp. *)
Lemma verifyDraw_fields this id time id' time' numbers hash seed nonce
    poolSize drawSize :
  RNGService.verifyDraw this
    (Some (DrawResult.mk id time numbers hash seed nonce poolSize drawSize))
  = RNGService.verifyDraw this
      (Some (DrawResult.mk id' time' numbers hash seed nonce poolSize
               drawSize)).
Proof. reflexivity. Qed.

(** X25. With the service configured for 20 numbers out of 80 and a store
    that refuses nothing, a draw that [createDraw] has stored passes
    [DrawService.verifyDraw]: the answer is valid, with no error. *)
Theorem created_draw_verifies :
  forall (service : DrawService.t) (drawTime : Z) (w w1 : World)
         (draw : DrawRow),
    refusals w = [] ->
    RNGService.poolSize (rngService w) = 80 ->
    RNGService.drawSize (rngService w) = 20 ->
    Forall (fun d => (draw_id d <= next_uuid w)%nat) (draws (store w)) ->
    DrawService.createDraw service drawTime w = (Returns draw, w1) ->
    fst (DrawService.verifyDraw service (draw_id draw) w1)
    = Returns (DrawService.mkVerified (draw_id draw) true None).
Proof.
  intros service drawTime w w1 draw Hquiet Hpool Hsize Hfresh Hcreate.
  pose proof (createDraw_outcome service drawTime w) as H.
  rewrite Hcreate in H.
  destruct H as (Hs & Hid & _ & Hrng & _ & Hq1 & _).
  specialize (Hq1 Hquiet).
  destruct (createDraw_pending service drawTime w draw w1 Hcreate)
    as (_ & env & Hgen).
  rewrite Hpool, Hsize in Hgen. apply generateDraw_accepted in Hgen.
  unfold DrawService.verifyDraw, DrawService.getDrawById, catching, bind.
  rewrite query_quiet by exact Hq1. cbn [reading fst snd]. unfold ret.
  rewrite Hs. cbn [draws with_draws].
  rewrite filter_app, filter_none.
  2:{ intros d Hd. rewrite Forall_forall in Hfresh. specialize (Hfresh d Hd).
      destruct (Nat.eqb_spec (draw_id d) (draw_id draw)); [lia|reflexivity]. }
  cbn [filter app]. rewrite Nat.eqb_refl. cbn [hd_error].
  cbn [rngService with_store]. rewrite Hrng.
  rewrite (verifyDraw_fields _ O 0 (env_uuid env) (env_now env)), Hgen.
  reflexivity.
Qed.

Lemma created_draw_verifies_witness :
  fst (DrawService.verifyDraw Scenario.drawing (draw_id Scenario.created)
         (snd (DrawService.createDraw Scenario.drawing 1700000300000
                 Scenario.opening)))
  = Returns (DrawService.mkVerified (draw_id Scenario.created) true None).
Proof.
  apply (created_draw_verifies Scenario.drawing 1700000300000
           Scenario.opening).
  - reflexivity.
  - reflexivity.
  - reflexivity.
  - constructor.
  - vm_compute. reflexivity.
Defined.

(** [completeDraw] of a draw that has no active ticket, whatever the store
    refuses: only the draw's own row can change. *)
Lemma completeDraw_no_tickets (service : DrawService.t) drawId w :
  filter (DrawService.is_active_for drawId) (tickets (store w)) = [] ->
  match DrawService.completeDraw service drawId w with
  | (Diverges, w') => False
  | (_, w') =>
      tickets (store w') = tickets (store w)
      /\ ticket_settlements (store w') = ticket_settlements (store w)
      /\ user_wallets (store w') = user_wallets (store w)
      /\ wallet_transactions (store w') = wallet_transactions (store w)
  end.
Proof.
  intros Hnone.
  unfold DrawService.completeDraw, catching, bind.
  match goal with
  | |- context [query ?stmt w] =>
      destruct (query_outcome stmt w) as [(w1 & -> & Hs1 & _)|(w1 & -> & Hs1 & _)]
  end; [unfold throw; rewrite Hs1; auto|].
  cbn [reading fst snd] in *.
  destruct (filter _ (draws (store w))) as [|draw others];
    [unfold throw; rewrite Hs1; auto|].
  destruct (negb _); [unfold throw; rewrite Hs1; auto|].
  unfold current_timestamp.
  match goal with
  | |- context [query ?stmt w1] =>
      destruct (query_outcome stmt w1) as [(w2 & -> & Hs2 & _)|(w2 & -> & Hs2 & _)]
  end; [unfold throw; rewrite Hs2, Hs1; auto|].
  cbn [writing fst snd] in *.
  match goal with
  | |- context [query ?stmt w2] =>
      destruct (query_outcome stmt w2) as [(w3 & -> & Hs3 & _)|(w3 & -> & Hs3 & _)]
  end; [unfold throw; rewrite Hs3, Hs2, Hs1; auto|].
  cbn [reading fst snd] in *.
  rewrite Hs2, Hs1. cbn [tickets with_draws]. rewrite Hnone.
  cbn [DrawService.settle_each]. unfold ret.
  rewrite Hs3, Hs2, Hs1. auto.
Qed.

(** X26. [runScheduledDraw] creates a draw and completes it at once: no
    ticket can refer to it, so no ticket, settlement, wallet or ledger entry
    is changed by a scheduled draw, whatever the store refuses; and it never
    throws. *)
Theorem runScheduledDraw_settles_nothing :
  forall (service : DrawService.t) (w : World),
    Forall (fun tk => forall d, ticket_draw_id tk = Some d ->
                                (d <= next_uuid w)%nat)
           (tickets (store w)) ->
    (forall e, fst (DrawService.runScheduledDraw service w) <> Throws e)
    /\ tickets (store (snd (DrawService.runScheduledDraw service w)))
       = tickets (store w)
    /\ ticket_settlements
         (store (snd (DrawService.runScheduledDraw service w)))
       = ticket_settlements (store w)
    /\ user_wallets (store (snd (DrawService.runScheduledDraw service w)))
       = user_wallets (store w)
    /\ wallet_transactions
         (store (snd (DrawService.runScheduledDraw service w)))
       = wallet_transactions (store w).
Proof.
  intros service w Hfresh.
  unfold DrawService.runScheduledDraw, catching, bind, current_timestamp.
  pose proof (createDraw_outcome service (clock w) w) as H.
  destruct (DrawService.createDraw service (clock w) w) as [[draw|e|] w1].
  - destruct H as (Hs & Hid & _).
    assert (Hnone : filter (DrawService.is_active_for (draw_id draw))
                           (tickets (store w1)) = []).
    { rewrite Hs. cbn [tickets with_draws]. apply filter_none.
      intros tk Htk. rewrite Forall_forall in Hfresh.
      specialize (Hfresh tk Htk). unfold DrawService.is_active_for.
      destruct (ticket_draw_id tk) as [d|]; [|reflexivity].
      specialize (Hfresh d eq_refl).
      destruct (Nat.eqb_spec d (draw_id draw)); [lia|reflexivity]. }
    pose proof (completeDraw_no_tickets service (draw_id draw) w1 Hnone) as Hc.
    rewrite Hs in Hc. cbn [tickets ticket_settlements user_wallets
                           wallet_transactions with_draws] in Hc.
    destruct (DrawService.completeDraw service (draw_id draw) w1)
      as [[done|e|] w2]; unfold ret; cbn [fst snd];
      try contradiction; (split; [discriminate|exact Hc]).
  - unfold ret. cbn [fst snd]. rewrite H.
    split; [discriminate|auto].
  - cbn [fst snd]. rewrite H. split; [discriminate|auto].
Qed.

Lemma runScheduledDraw_settles_nothing_witness :
  (forall e,
     fst (DrawService.runScheduledDraw Scenario.drawing (Scenario.betting []))
     <> Throws e)
  /\ tickets (store (snd (DrawService.runScheduledDraw Scenario.drawing
                            (Scenario.betting []))))
     = tickets (store (Scenario.betting []))
  /\ ticket_settlements
       (store (snd (DrawService.runScheduledDraw Scenario.drawing
                      (Scenario.betting []))))
     = ticket_settlements (store (Scenario.betting []))
  /\ user_wallets
       (store (snd (DrawService.runScheduledDraw Scenario.drawing
                      (Scenario.betting []))))
     = user_wallets (store (Scenario.betting []))
  /\ wallet_transactions
       (store (snd (DrawService.runScheduledDraw Scenario.drawing
                      (Scenario.betting []))))
     = wallet_transactions (store (Scenario.betting [])).
Proof.
  apply (runScheduledDraw_settles_nothing Scenario.drawing
           (Scenario.betting [])).
  constructor; [|constructor].
  intros d E. injection E as <-. cbn. lia.
Defined.

(** X27. [completeDraw] of a draw that does not exist or is not pending
    throws ("Draw not found", "Draw is not in pending status", or the
    store's refusal) and changes nothing in the store. *)
Theorem completeDraw_needs_pending_draw :
  forall (service : DrawService.t) (drawId : uuid) (w : World),
    (forall draw,
       hd_error (filter (fun d => draw_id d =? drawId)%nat (draws (store w)))
       = Some draw ->
       draw_status draw <> pending) ->
    exists e w',
      DrawService.completeDraw service drawId w = (Throws e, w')
      /\ store w' = store w
      /\ (e = StoreError \/ e = Error "Draw not found"
          \/ e = Error "Draw is not in pending status").
Proof.
  intros service drawId w Hnot.
  unfold DrawService.completeDraw, catching, bind.
  match goal with
  | |- context [query ?stmt w] =>
      destruct (query_outcome stmt w) as [(w1 & -> & Hs1 & _)|(w1 & -> & Hs1 & _)]
  end; [unfold throw; eauto 10|].
  cbn [reading fst snd] in *.
  destruct (filter _ (draws (store w))) as [|draw others];
    [unfold throw; eauto 10|].
  specialize (Hnot draw eq_refl).
  destruct (draw_status draw); [contradiction| |];
    cbn [DrawStatus_eqb negb]; unfold throw; eauto 10.
Qed.

Lemma completeDraw_needs_pending_draw_witness :
  exists e w',
    DrawService.completeDraw Scenario.drawing 61 (Scenario.betting [])
    = (Throws e, w')
    /\ store w' = store (Scenario.betting [])
    /\ (e = StoreError \/ e = Error "Draw not found"
        \/ e = Error "Draw is not in pending status").
Proof.
  apply (completeDraw_needs_pending_draw Scenario.drawing 61
           (Scenario.betting [])).
  intros draw. cbn. discriminate.
Defined.

Lemma insert_by_perm before d rows :
  Permutation (DrawService.insert_by before d rows) (d :: rows).
Proof.
  induction rows as [|x rows IH]; cbn [DrawService.insert_by]; [reflexivity|].
  destruct (before x d); [|reflexivity].
  rewrite IH. apply perm_swap.
Qed.

Lemma order_by_perm before rows :
  Permutation (DrawService.order_by before rows) rows.
Proof.
  unfold DrawService.order_by.
  induction rows as [|d rows IH]; cbn [fold_right]; [reflexivity|].
  rewrite insert_by_perm. now constructor.
Qed.

Lemma order_by_time_sorted rows :
  StronglySorted (fun a b => draw_time a <= draw_time b)
    (DrawService.order_by (fun x y => draw_time x <=? draw_time y) rows).
Proof.
  unfold DrawService.order_by.
  induction rows as [|d rows IH]; cbn [fold_right]; [constructor|].
  set (sorted := fold_right _ [] rows) in *. clearbody sorted.
  induction IH as [|x sorted Hs IHs Hx]; cbn [DrawService.insert_by].
  - repeat constructor.
  - destruct (Z.leb_spec (draw_time x) (draw_time d)).
    + constructor; [exact IHs|].
      rewrite Forall_forall in *. intros y Hy.
      apply (Permutation_in _ (insert_by_perm _ d sorted)) in Hy.
      destruct Hy as [<-|Hy]; [assumption|auto].
    + constructor; [constructor; assumption|].
      constructor; [lia|].
      eapply Forall_impl; [|exact Hx]. cbn. intros; lia.
Qed.

(** X28. [GET /api/v1/draws/upcoming] lists every pending draw once and no
    other draw, in ascending order of draw time, and leaves out the numbers,
    the commitment, the client seed and the nonce of each. *)
Theorem get_upcoming_lists_pending :
  forall (service : DrawService.t) (w w' : World) (code : Z)
         (items : list DrawsRouter.DrawJson),
    DrawsRouter.get_upcoming service w
    = (Returns (DrawsRouter.Json code items), w') ->
    Permutation (map DrawsRouter.drawId items)
      (map draw_id
         (filter (fun d => DrawStatus_eqb (draw_status d) pending)
                 (draws (store w))))
    /\ StronglySorted
         (fun a b => DrawsRouter.drawTime a <= DrawsRouter.drawTime b) items
    /\ Forall (fun item =>
                 DrawsRouter.status item = pending
                 /\ DrawsRouter.numbers item = None
                 /\ DrawsRouter.serverSeedHash item = None
                 /\ DrawsRouter.clientSeed item = None
                 /\ DrawsRouter.nonce item = None)
              items.
Proof.
  intros service w w' code items.
  unfold DrawsRouter.get_upcoming, DrawService.getUpcomingDraws, catching,
    bind.
  match goal with
  | |- context [query ?stmt w] =>
      destruct (query_outcome stmt w) as [(w1 & -> & _)|(w1 & -> & _)]
  end; [unfold ret; discriminate|].
  cbn [reading fst snd]. unfold ret. intros E. injection E as _ <- _.
  set (open := filter (fun d => DrawStatus_eqb (draw_status d) pending)
                      (draws (store w))).
  set (rows := DrawService.order_by _ open).
  assert (Hperm : Permutation rows open) by apply order_by_perm.
  split; [|split].
  - rewrite map_map. cbn [DrawsRouter.brief DrawsRouter.drawId].
    now apply Permutation_map.
  - assert (Hsorted : StronglySorted
                        (fun a b => draw_time a <= draw_time b) rows)
      by apply order_by_time_sorted.
    clearbody rows. clear Hperm.
    induction Hsorted as [|d rows Hs IH Hd]; cbn [map]; constructor;
      [exact IH|].
    rewrite Forall_forall in *. intros item Hitem.
    apply in_map_iff in Hitem as (x & <- & Hx). exact (Hd x Hx).
  - rewrite Forall_forall. intros item Hitem.
    apply in_map_iff in Hitem as (d & <- & Hd).
    apply (Permutation_in _ Hperm) in Hd.
    apply filter_In in Hd as [_ Hstatus].
    cbn [DrawsRouter.brief DrawsRouter.status DrawsRouter.numbers
         DrawsRouter.serverSeedHash DrawsRouter.clientSeed DrawsRouter.nonce].
    destruct (draw_status d); try discriminate. auto.
Qed.

Lemma get_upcoming_lists_pending_witness :
  Permutation (map DrawsRouter.drawId [DrawsRouter.brief Scenario.round])
    (map draw_id
       (filter (fun d => DrawStatus_eqb (draw_status d) pending)
               (draws (store (Scenario.betting [])))))
  /\ StronglySorted
       (fun a b => DrawsRouter.drawTime a <= DrawsRouter.drawTime b)
       [DrawsRouter.brief Scenario.round]
  /\ Forall (fun item =>
               DrawsRouter.status item = pending
               /\ DrawsRouter.numbers item = None
               /\ DrawsRouter.serverSeedHash item = None
               /\ DrawsRouter.clientSeed item = None
               /\ DrawsRouter.nonce item = None)
            [DrawsRouter.brief Scenario.round].
Proof.
  apply (get_upcoming_lists_pending Scenario.drawing (Scenario.betting [])
           (Scenario.betting []) 200).
  vm_compute. reflexivity.
Defined.

Lemma order_by_latest_first rows :
  StronglySorted (fun a b => draw_time b <= draw_time a)
    (DrawService.order_by (fun x y => draw_time y <=? draw_time x) rows).
Proof.
  unfold DrawService.order_by.
  induction rows as [|d rows IH]; cbn [fold_right]; [constructor|].
  set (sorted := fold_right _ [] rows) in *. clearbody sorted.
  induction IH as [|x sorted Hs IHs Hx]; cbn [DrawService.insert_by].
  - repeat constructor.
  - destruct (Z.leb_spec (draw_time d) (draw_time x)).
    + constructor; [exact IHs|].
      rewrite Forall_forall in *. intros y Hy.
      apply (Permutation_in _ (insert_by_perm _ d sorted)) in Hy.
      destruct Hy as [<-|Hy]; [assumption|auto].
    + constructor; [constructor; assumption|].
      constructor; [lia|].
      eapply Forall_impl; [|exact Hx]. cbn. intros; lia.
Qed.

(** In a sorted list the rows kept by [LIMIT] come before the rows cut. *)
Lemma limit_keeps_first {Row} (before : Row -> Row -> Prop) count rows :
  StronglySorted before rows ->
  forall kept cut, In kept (firstn count rows) -> In cut (skipn count rows) ->
                   before kept cut.
Proof.
  intros Hsorted. revert count.
  induction Hsorted as [|row rows Hs IH Hrow]; intros count kept cut.
  - rewrite firstn_nil. intros [].
  - destruct count as [|count]; cbn [firstn skipn]; [intros []|].
    intros [<-|Hkept] Hcut.
    + rewrite Forall_forall in Hrow. apply Hrow.
      rewrite <- (firstn_skipn count rows). apply in_or_app. now right.
    + eapply IH; eassumption.
Qed.

(** X30. [GET /api/v1/draws] with a limit that is not negative lists the
    most recent draws: as many as the limit allows, latest first, each a
    stored draw, and no stored draw left out is more recent than one that
    is listed. *)
Theorem get_draws_most_recent :
  forall (service : DrawService.t) (limit : Z) (w w' : World) (code : Z)
         (items : list DrawsRouter.DrawJson),
    0 <= limit ->
    DrawsRouter.get_draws service limit w
    = (Returns (DrawsRouter.Json code items), w') ->
    Z.of_nat (List.length items)
    = Z.min limit (Z.of_nat (List.length (draws (store w))))
    /\ exists listed rest,
         items = map DrawsRouter.full listed
         /\ Permutation (draws (store w)) (listed ++ rest)
         /\ StronglySorted (fun a b => draw_time b <= draw_time a) listed
         /\ forall a b, In a listed -> In b rest ->
                        draw_time b <= draw_time a.
Proof.
  intros service limit w w' code items Hlimit.
  unfold DrawsRouter.get_draws, DrawService.getRecentDraws, catching, bind.
  match goal with
  | |- context [query ?stmt w] =>
      destruct (query_outcome stmt w) as [(w1 & -> & _)|(w1 & -> & _)]
  end; [unfold ret; discriminate|].
  cbn [reading fst snd]. unfold ret. intros E. injection E as _ <- _.
  set (rows := DrawService.order_by _ (draws (store w))).
  assert (Hperm : Permutation rows (draws (store w))) by apply order_by_perm.
  assert (Hsorted : StronglySorted (fun a b => draw_time b <= draw_time a)
                      rows) by apply order_by_latest_first.
  split.
  - rewrite length_map, length_firstn, (Permutation_length Hperm). lia.
  - exists (firstn (Z.to_nat limit) rows), (skipn (Z.to_nat limit) rows).
    split; [reflexivity|]. split; [now rewrite firstn_skipn|]. split.
    + clear Hperm. clearbody rows. revert Hsorted.
      generalize (Z.to_nat limit) as count. intros count Hsorted.
      revert count. induction Hsorted as [|row rows Hs IH Hrow];
        intros [|count]; cbn [firstn]; try constructor.
      * apply IH.
      * rewrite Forall_forall in *. intros x Hx. apply Hrow.
        rewrite <- (firstn_skipn count rows). apply in_or_app. now left.
    + intros a b Ha Hb.
      exact (limit_keeps_first _ _ _ Hsorted a b Ha Hb).
Qed.

Lemma get_draws_most_recent_witness :
  Z.of_nat (List.length [DrawsRouter.full Scenario.round])
  = Z.min 10 (Z.of_nat (List.length (draws (store (Scenario.betting [])))))
  /\ exists listed rest,
       [DrawsRouter.full Scenario.round] = map DrawsRouter.full listed
       /\ Permutation (draws (store (Scenario.betting []))) (listed ++ rest)
       /\ StronglySorted (fun a b => draw_time b <= draw_time a) listed
       /\ forall a b, In a listed -> In b rest ->
                      draw_time b <= draw_time a.
Proof.
  apply (get_draws_most_recent Scenario.drawing 10 (Scenario.betting [])
           (Scenario.betting []) 200).
  - lia.
  - vm_compute. reflexivity.
Defined.

(** X29. [POST /api/v1/draws/:drawId/verify] never answers with an error
    status: when it answers, the status is 200, also for a draw that does
    not exist or when the store refuses the query, and the draw is reported
    valid only if it is stored and [verifyDraw] of the RNG service accepts
    its numbers for 20 out of 80. *)
Theorem post_verify_never_fails :
  forall (service : DrawService.t) (drawId : uuid) (w : World),
    match fst (DrawsRouter.post_verify service drawId w) with
    | Returns (Sent code result) =>
        code = 200
        /\ DrawService.verified_drawId result = drawId
        /\ (DrawService.isValid result = true ->
            exists draw,
              hd_error (filter (fun d => draw_id d =? drawId)%nat
                               (draws (store w))) = Some draw
              /\ RNGService.verifyDraw (rngService w)
                   (Some (DrawResult.mk O 0 (draw_numbers draw)
                            (server_seed_hash draw) (client_seed draw)
                            (draw_nonce draw) 80 20))
                 = Returns true)
    | Returns _ => False
    | Throws _ => False
    | Diverges => True
    end.
Proof.
  intros service drawId w.
  unfold DrawsRouter.post_verify, DrawService.verifyDraw,
    DrawService.getDrawById, catching, bind.
  match goal with
  | |- context [query ?stmt w] =>
      destruct (query_outcome stmt w)
        as [(w1 & -> & _)|(w1 & -> & _ & _ & _ & Hrng & _)]
  end.
  { unfold ret. cbn. repeat split. discriminate. }
  cbn [reading fst snd]. unfold ret.
  destruct (filter _ (draws (store w))) as [|draw others]; cbn [hd_error].
  { unfold throw. cbn. repeat split. discriminate. }
  rewrite Hrng.
  destruct (RNGService.verifyDraw (rngService w) _) as [[|]|e|] eqn:Hv;
    cbn [fst].
  - repeat split. intros _. exists draw. split; [reflexivity|exact Hv].
  - repeat split. discriminate.
  - repeat split. discriminate.
  - exact I.
Qed.

